(** * instagrapi.mixins.media: identifier normalisation, metadata fetch
      fallback and the media cache

    A shallow embedding of [MediaMixin] (src/instagrapi/mixins/media.py).
    Client methods are computations in a state-and-exception monad over the
    client state (cache, object store, log, record of collaborator calls);
    the collaborators the mixin calls but does not define (the transports,
    the extractors, the id codec) are fields of an environment record. *)

From Stdlib Require Import ZArith String Ascii List Decimal DecimalString DecimalZ Lia.
From stdpp Require Import base gmap strings list fin_maps.

Open Scope string_scope.
Open Scope Z_scope.

Set Warnings "-register-all".

(** ** Exceptions and results *)

(** An exception object, an instance of [Exception]: the names of the
    classes it is an instance of (its class first, then its bases) and its
    message, [str(e)]. *)
Record Exn := mkExn { exn_mro : list string; exn_msg : string }.

Definition isinstance (e : Exn) (cls : string) : bool :=
  bool_decide (cls ∈ exn_mro e).

Inductive Result (A : Type) : Type :=
| Ok (a : A)
| Raise (e : Exn).
Arguments Ok {A} a.
Arguments Raise {A} e.

Global Instance Result_ret : MRet Result := λ A a, Ok a.
Global Instance Result_bind : MBind Result := λ A B f r,
  match r with Ok a => f a | Raise e => Raise e end.

Definition is_Ok {A} (r : Result A) : bool :=
  match r with Ok _ => true | Raise _ => false end.

(** Builtin exceptions raised by the code itself. *)
Definition AssertionError (msg : string) : Exn :=
  mkExn ["AssertionError"; "Exception"] msg.
Definition ValueError (msg : string) : Exn :=
  mkExn ["ValueError"; "Exception"] msg.
(** [KeyError(key)] for a [str] key of plain characters: [str(e)] is the
    key in quotes. *)
Definition KeyError (key : string) : Exn :=
  mkExn ["KeyError"; "LookupError"; "Exception"] ("'" +:+ key +:+ "'").
Definition IndexError (msg : string) : Exn :=
  mkExn ["IndexError"; "LookupError"; "Exception"] msg.
Definition TypeError (msg : string) : Exn :=
  mkExn ["TypeError"; "Exception"] msg.
Definition AttributeError (msg : string) : Exn :=
  mkExn ["AttributeError"; "Exception"] msg.

(** ** Python builtins used by the mixin

    Strings are sequences of code points below 256. *)
Module Py.

(** [c in s] for a one-character [c]. *)
Fixpoint contains (c : ascii) (s : string) : bool :=
  match s with
  | EmptyString => false
  | String a r => Ascii.eqb a c || contains c r
  end.

(** Number of occurrences of [c] in [s]. *)
Fixpoint count (c : ascii) (s : string) : nat :=
  match s with
  | EmptyString => O
  | String a r => ((if Ascii.eqb a c then 1 else 0) + count c r)%nat
  end.

(** [s.split(c)]: one more segment than there are separators. *)
Fixpoint split (c : ascii) (s : string) : list string :=
  match s with
  | EmptyString => [EmptyString]
  | String a r =>
      if Ascii.eqb a c then EmptyString :: split c r
      else match split c r with
           | h :: t => String a h :: t
           | [] => [String a EmptyString]
           end
  end.

(** The text before the first [c] (all of [s] when there is none). *)
Fixpoint before (c : ascii) (s : string) : string :=
  match s with
  | EmptyString => EmptyString
  | String a r => if Ascii.eqb a c then EmptyString else String a (before c r)
  end.

(** The text after the first [c], when there is one. *)
Fixpoint after (c : ascii) (s : string) : option string :=
  match s with
  | EmptyString => None
  | String a r => if Ascii.eqb a c then Some r else after c r
  end.

(** [s.split(c, 1)]: split at the first separator only. *)
Definition split1 (c : ascii) (s : string) : list string :=
  match after c s with
  | Some r => [before c s; r]
  | None => [s]
  end.

(** [a, b = l]: unpacking into exactly two names. *)
Definition unpack2 {A} (l : list A) : Result (A * A) :=
  match l with
  | [a; b] => Ok (a, b)
  | _ :: _ :: _ :: _ => Raise (ValueError "too many values to unpack (expected 2)")
  | [_] => Raise (ValueError "not enough values to unpack (expected 2, got 1)")
  | [] => Raise (ValueError "not enough values to unpack (expected 2, got 0)")
  end.

(** [s[:n]]. *)
Fixpoint slice_to (n : nat) (s : string) : string :=
  match n, s with
  | S n', String a r => String a (slice_to n' r)
  | _, _ => EmptyString
  end.

Definition is_ascii_digit (a : ascii) : bool :=
  let n := nat_of_ascii a in (48 <=? n)%nat && (n <=? 57)%nat.

(** [str.isdigit] on one character: the decimal digits and the three
    superscript digits of Latin-1. *)
Definition char_isdigit (a : ascii) : bool :=
  let n := nat_of_ascii a in
  is_ascii_digit a || (n =? 178)%nat || (n =? 179)%nat || (n =? 185)%nat.

Fixpoint all_chars (p : ascii -> bool) (s : string) : bool :=
  match s with
  | EmptyString => true
  | String a r => p a && all_chars p r
  end.

(** [s.isdigit()]: non-empty and every character a digit. *)
Definition isdigit (s : string) : bool :=
  match s with
  | EmptyString => false
  | _ => all_chars char_isdigit s
  end.

(** White space that [int] strips. *)
Definition is_space (a : ascii) : bool :=
  let n := nat_of_ascii a in
  ((9 <=? n)%nat && (n <=? 13)%nat) || (n =? 32)%nat
  || (n =? 133)%nat || (n =? 160)%nat.

Fixpoint lstrip (s : string) : string :=
  match s with
  | String a r => if is_space a then lstrip r else s
  | EmptyString => EmptyString
  end.

Fixpoint rstrip (s : string) : string :=
  match s with
  | EmptyString => EmptyString
  | String a r =>
      match rstrip r with
      | EmptyString => if is_space a then EmptyString else String a EmptyString
      | r' => String a r'
      end
  end.

(** Digit groups of an integer literal: single underscores may separate
    digits; the result is the digits alone. *)
Fixpoint digits_of (s : string) : option string :=
  match s with
  | EmptyString => None
  | String a r =>
      if is_ascii_digit a then
        match r with
        | EmptyString => Some (String a EmptyString)
        | String "_" r' =>
            match digits_of r' with
            | Some d => Some (String a d)
            | None => None
            end
        | _ =>
            match digits_of r with
            | Some d => Some (String a d)
            | None => None
            end
        end
      else None
  end.

(** [str(z)] for an [int]: its decimal form. CPython refuses to convert
    between [int] and [str] beyond [max_str_digits] digits (4300 unless
    configured otherwise); [str_int] and [int] are the conversions of the
    ints and literals within that bound, which [within_limit] tests. *)
Definition str_int (z : Z) : string := NilZero.string_of_int (Z.to_int z).

Definition max_str_digits : nat := 4300.

Definition within_limit (z : Z) : bool :=
  (String.length (str_int (Z.abs z)) <=? max_str_digits)%nat.

(** The literal is quoted in the message (as [repr] does for a string of
    plain characters). *)
Definition invalid_literal (s : string) : Exn :=
  ValueError ("invalid literal for int() with base 10: '" +:+ s +:+ "'").

(** [int(s)] for a [str]: optional white space, optional sign, digits. *)
Definition int (s : string) : Result Z :=
  let t := rstrip (lstrip s) in
  let '(neg, body) :=
    match t with
    | String "-" r => (true, r)
    | String "+" r => (false, r)
    | _ => (false, t)
    end in
  match digits_of body with
  | Some d =>
      match NilZero.uint_of_string d with
      | Some u => Ok (if neg then - Z.of_uint u else Z.of_uint u)
      | None => Raise (invalid_literal s)
      end
  | None => Raise (invalid_literal s)
  end.

End Py.

(** An identifier as callers pass it: the methods are annotated [int] or
    [str] and are called with both. *)
Inductive PyId :=
| IdInt (z : Z)
| IdStr (s : string).

(** [str(x)] *)
Definition str (x : PyId) : string :=
  match x with
  | IdInt z => Py.str_int z
  | IdStr s => s
  end.

(** [KeyError(z)] for an [int] key. *)
Definition KeyError_int (z : Z) : Exn :=
  mkExn ["KeyError"; "LookupError"; "Exception"] (Py.str_int z).

(** ** [MediaMixin.media_pk] (static) *)
Definition media_pk (media_id : PyId) : Result Z :=
  let media_pk := str media_id in
  if Py.contains "_" media_pk then
    match media_id with
    | IdStr s =>
        '(media_pk, _) ← Py.unpack2 (Py.split "_" s);
        Py.int media_pk
    | IdInt _ => Raise (AttributeError "'int' object has no attribute 'split'")
    end
  else Py.int media_pk.

(** ** Data *)

(** Decoded JSON, as the transports return it and as payloads are built.
    A float is carried as its binary64 bit pattern; objects keep their
    entries in order. *)
Inductive JSON :=
| JNull
| JBool (b : bool)
| JInt (z : Z)
| JFloat (bits : Z)
| JStr (s : string)
| JList (l : list JSON)
| JDict (d : list (string * JSON)).

Abbreviation dict := (list (string * JSON)).

(** [d.get(k)] as an option; [k in d]. *)
Fixpoint dict_lookup (k : string) (d : dict) : option JSON :=
  match d with
  | [] => None
  | (k', v) :: r => if String.eqb k' k then Some v else dict_lookup k r
  end.

Definition dict_has (k : string) (d : dict) : bool :=
  match dict_lookup k d with Some _ => true | None => false end.

(** [d.get(k)]: [None] when the key is missing. *)
Definition dict_get (k : string) (d : dict) : JSON :=
  default JNull (dict_lookup k d).

(** [d[k] = v] *)
Fixpoint dict_set (k : string) (v : JSON) (d : dict) : dict :=
  match d with
  | [] => [(k, v)]
  | (k', v') :: r => if String.eqb k' k then (k, v) :: r else (k', v') :: dict_set k v r
  end.

Definition dict_keys (d : dict) : list string := map fst d.

(** [type(x).__name__] *)
Definition type_name (x : JSON) : string :=
  match x with
  | JNull => "NoneType"
  | JBool _ => "bool"
  | JInt _ => "int"
  | JFloat _ => "float"
  | JStr _ => "str"
  | JList _ => "list"
  | JDict _ => "dict"
  end.

(** [x[k]] with a string key. *)
Definition getitem (x : JSON) (k : string) : Result JSON :=
  match x with
  | JDict d =>
      match dict_lookup k d with
      | Some v => Ok v
      | None => Raise (KeyError k)
      end
  | JList _ => Raise (TypeError "list indices must be integers or slices, not str")
  | JStr _ => Raise (TypeError "string indices must be integers, not 'str'")
  | other => Raise (TypeError ("'" +:+ type_name other +:+ "' object is not subscriptable"))
  end.

(** Truth value of a decoded JSON value. *)
Definition truthy (x : JSON) : bool :=
  match x with
  | JNull => false
  | JBool b => b
  | JInt z => negb (z =? 0)
  | JFloat bits => negb (Z.land bits (Z.ones 63) =? 0)
  | JStr s => negb (String.eqb s "")
  | JList l => match l with [] => false | _ => true end
  | JDict d => match d with [] => false | _ => true end
  end.

(** [needle in hay] for strings. *)
Fixpoint is_substring (needle hay : string) : bool :=
  String.prefix needle hay ||
  match hay with
  | EmptyString => false
  | String _ r => is_substring needle r
  end.

(** Addresses of objects. *)
Abbreviation loc := positive.

(** Modelled from the spec: [UserShort] and [Media] of instagrapi/types.py,
    which is not among the sources (the spec's author reference and
    ContentMetadata): the attributes the mixin reads, and the remaining
    descriptive fields as one immutable payload. [Media U] has its author
    as a [U]: a [UserShort] in a value built by an extractor, an address
    once the object lives in the store. *)
Record UserShort := mkUser { pk : Z; username : string }.

Record Media (U : Type) := mkMedia {
  product_type : string;
  caption_text : string;
  user : U;
  fields : dict;
}.
Arguments mkMedia {U}.
Arguments product_type {U}.
Arguments caption_text {U}.
Arguments user {U}.
Arguments fields {U}.

Inductive Obj :=
| OMedia (m : Media loc)
| OUser (u : UserShort).

(** Modelled from the spec: [Location] and [Usertag] of instagrapi/types.py,
    not among the sources. A location is carried as its fields, the
    coordinates of a tag as binary64 bit patterns. *)
Abbreviation Location := (list (string * JSON)).

Record Usertag := mkUsertag { tag_user : UserShort; x : Z; y : Z }.

(** ** Collaborator calls *)

(** The calls the mixin makes to methods defined outside it; the client
    keeps them in order, newest first. *)
Inductive Call :=
| PublicGraphqlRequest (variables : dict) (query_hash : string)
| PrivateRequest (endpoint : string) (data : option dict)
| InjectSessionidToPublic
| LocationComplete (location : Location)
| LocationBuild (location : option Location).

Definition is_transport (c : Call) : bool :=
  match c with
  | PublicGraphqlRequest _ _ | PrivateRequest _ _ => true
  | _ => false
  end.

Definition transport_count (cs : list Call) : nat :=
  length (filter (λ c, is_transport c = true) cs).

(** What lies outside the mixin. A reply may depend on every call made
    before it. [location_build] is a method of the client that may look
    the location up and may fail; [media_not_found_message] is the message
    that the constructor of [MediaNotFound] (instagrapi/exceptions.py)
    arrives at from its positional argument, [media_pk] and the other
    keywords. *)
Record Env := mkEnv {
  encode : Z → string;                       (* InstagramIdCodec.encode *)
  graphql_reply : list Call → dict → string → Result dict;
  private_reply : list Call → string → option dict → Result dict * dict;
                                             (* result, and last_json *)
  inject_reply : list Call → bool;
  location_reply : list Call → Location → Result Location;
  extract_media_gql : JSON → Result (Media UserShort);
  extract_media_v1 : JSON → Result (Media UserShort);
  extract_location : JSON → Result Location;
  location_build_reply : list Call → option Location → Result string;
  media_not_found_message : option Exn → PyId → dict → string;
  with_default_data : dict → dict;
  with_action_data : dict → dict;
  json_dumps : JSON → string;
  randint : nat → Z → Z → Z;                 (* n-th draw of random.randint *)
}.

(** ** Client state *)
Record Client := mkClient {
  user_id : option Z;
  _medias_cache : gmap Z loc;      (* pk -> object *)
  heap : gmap loc Obj;             (* the objects *)
  last_json : dict;
  log : list Exn;                  (* logger.exception, newest first *)
  calls : list Call;               (* newest first *)
  draws : nat;                     (* random numbers drawn *)
}.

Definition set_cache (f : gmap Z loc → gmap Z loc) (c : Client) : Client :=
  mkClient (user_id c) (f (_medias_cache c)) (heap c) (last_json c) (log c) (calls c) (draws c).
Definition set_heap (h : gmap loc Obj) (c : Client) : Client :=
  mkClient (user_id c) (_medias_cache c) h (last_json c) (log c) (calls c) (draws c).
Definition set_last_json (j : dict) (c : Client) : Client :=
  mkClient (user_id c) (_medias_cache c) (heap c) j (log c) (calls c) (draws c).
Definition add_log (e : Exn) (c : Client) : Client :=
  mkClient (user_id c) (_medias_cache c) (heap c) (last_json c) (e :: log c) (calls c) (draws c).
Definition add_call (k : Call) (c : Client) : Client :=
  mkClient (user_id c) (_medias_cache c) (heap c) (last_json c) (log c) (k :: calls c) (draws c).
Definition add_draw (c : Client) : Client :=
  mkClient (user_id c) (_medias_cache c) (heap c) (last_json c) (log c) (calls c) (S (draws c)).

(** ** The monad of client methods *)
Definition M (A : Type) : Type := Client → Result A * Client.

Global Instance M_ret : MRet M := λ A a st, (Ok a, st).
Global Instance M_bind : MBind M := λ A B f m st,
  match m st with
  | (Ok a, st') => f a st'
  | (Raise e, st') => (Raise e, st')
  end.

Definition raise {A} (e : Exn) : M A := λ st, (Raise e, st).
Definition lift {A} (r : Result A) : M A := λ st, (r, st).
Definition gets {A} (f : Client → A) : M A := λ st, (Ok (f st), st).
Definition modify (f : Client → Client) : M unit := λ st, (Ok tt, f st).

(** [try: body / except Exception as e: handler e]. Effects of the body
    up to the point of failure stay. *)
Definition try_except {A} (body : M A) (handler : Exn → M A) : M A := λ st,
  match body st with
  | (Raise e, st') => handler e st'
  | r => r
  end.

(** One [except cls as e:] clause and the clauses after it. *)
Definition except {A} (cls : string) (handler : Exn → M A) (rest : Exn → M A)
  : Exn → M A :=
  λ e, if isinstance e cls then handler e else rest e.

(** [assert cond, msg] *)
Definition assert (cond : bool) (msg : string) : M unit :=
  if cond then mret tt else raise (AssertionError msg).

(** [try: r / except cls: h] for code without effects. *)
Definition result_try {A} (r : Result A) (cls : string) (h : Result A) : Result A :=
  match r with
  | Raise e => if isinstance e cls then h else Raise e
  | ok => ok
  end.

Definition LF : ascii := "010"%char.

(** ** The mixin *)
Section MediaMixin.

Context (E : Env).

(** *** Methods of the client defined outside the mixin *)

Definition public_graphql_request (variables : dict) (query_hash : string) : M dict :=
  λ st, (graphql_reply E (calls st) variables query_hash,
         add_call (PublicGraphqlRequest variables query_hash) st).

Definition private_request (endpoint : string) (data : option dict) : M dict :=
  λ st, let '(r, lj) := private_reply E (calls st) endpoint data in
        (r, set_last_json lj (add_call (PrivateRequest endpoint data) st)).

Definition inject_sessionid_to_public : M bool :=
  λ st, (Ok (inject_reply E (calls st)), add_call InjectSessionidToPublic st).

Definition location_complete (l : Location) : M Location :=
  λ st, (location_reply E (calls st) l, add_call (LocationComplete l) st).

Definition location_build (l : option Location) : M string :=
  λ st, (location_build_reply E (calls st) l, add_call (LocationBuild l) st).

Definition logger_exception (e : Exn) : M unit := modify (add_log e).

Definition random_randint (lo hi : Z) : M Z :=
  λ st, (Ok (randint E (draws st) lo hi), add_draw st).

(** *** Objects *)

(** A new object, at an address not in use. *)
Definition alloc (o : Obj) : M loc :=
  λ st, let l := fresh (dom (heap st)) in
        (Ok l, set_heap (<[l := o]> (heap st)) st).

(** The [Media] object an extractor builds from a response. *)
Definition new_media (v : Media UserShort) : M loc :=
  u ← alloc (OUser (user v));
  alloc (OMedia (mkMedia (product_type v) (caption_text v) u (fields v))).

Definition get_media (l : loc) : M (Media loc) :=
  λ st, match heap st !! l with
        | Some (OMedia m) => (Ok m, st)
        | _ => (Raise (AttributeError "not a Media"), st)
        end.

Definition get_user (l : loc) : M UserShort :=
  λ st, match heap st !! l with
        | Some (OUser u) => (Ok u, st)
        | _ => (Raise (AttributeError "not a UserShort"), st)
        end.

(** [copy.deepcopy(media)]: new objects for the media and for its author. *)
Definition deepcopy (l : loc) : M loc :=
  m ← get_media l;
  u ← get_user (user m);
  u' ← alloc (OUser u);
  alloc (OMedia (mkMedia (product_type m) (caption_text m) u' (fields m))).

(** Modelled from the spec: [MediaNotFound] of instagrapi/exceptions.py,
    which is not among the sources: the spec's NotFoundError, one of the
    client-level error classes. *)
Definition MediaNotFound (msg : string) : Exn :=
  mkExn ["MediaNotFound"; "MediaError"; "PrivateError"; "ClientError"; "Exception"] msg.

(** [raise MediaNotFound(arg, media_pk=media_pk, **kwargs)], with or
    without the positional [arg]: a second [media_pk] among the keywords
    is a [TypeError] of the call; otherwise the exception is built, with
    the message its constructor gives it. *)
Definition raise_MediaNotFound {A} (arg : option Exn) (media_pk : PyId)
    (kwargs : dict) : M A :=
  if dict_has "media_pk" kwargs
  then raise (TypeError "instagrapi.exceptions.MediaNotFound() got multiple values for keyword argument 'media_pk'")
  else raise (MediaNotFound (media_not_found_message E arg media_pk kwargs)).

(** *** [media_info_gql] *)
Definition gql_variables (shortcode : string) : dict :=
  [ ("shortcode", JStr shortcode);
    ("child_comment_count", JInt 3);
    ("fetch_comment_count", JInt 40);
    ("parent_comment_count", JInt 24);
    ("has_threaded_comments", JBool false) ].

Definition media_info_gql (media_pk0 : PyId) : M loc :=
  media_pk' ← lift (media_pk media_pk0);
  let shortcode := encode E media_pk' in
  data ← public_graphql_request (gql_variables shortcode)
           "477b65a610463740ccdb83135b2014db";
  (if negb (truthy (dict_get "shortcode_media" data))
   then raise_MediaNotFound None (IdInt media_pk') data
   else mret tt);;
  let shortcode_media := dict_get "shortcode_media" data in
  location ← lift (getitem shortcode_media "location");
  shortcode_media ←
    (if truthy location then
       l ← lift (extract_location E location);
       l' ← location_complete l;
       mret (match shortcode_media with
             | JDict d => JDict (dict_set "location" (JDict l') d)
             | other => other
             end)
     else mret shortcode_media);
  v ← lift (extract_media_gql E shortcode_media);
  new_media v.

(** *** [media_info_v1] *)

(** [result["items"].pop()] *)
Definition pop_items (result : dict) : Result JSON :=
  items ← getitem (JDict result) "items";
  match items with
  | JList l =>
      match last l with
      | Some x => Ok x
      | None => Raise (IndexError "pop from empty list")
      end
  | JDict _ => Raise (TypeError "pop expected at least 1 argument, got 0")
  | other => Raise (AttributeError ("'" +:+ type_name other +:+ "' object has no attribute 'pop'"))
  end.

Definition media_info_v1 (media_pk0 : PyId) : M loc :=
  result ←
    try_except
      (private_request ("media/" +:+ str media_pk0 +:+ "/info/") None)
      (except "ClientNotFoundError"
         (λ e, lj ← gets last_json; raise_MediaNotFound (Some e) media_pk0 lj)
      (except "ClientError"
         (λ e, if is_substring "Media not found" (exn_msg e)
               then lj ← gets last_json; raise_MediaNotFound (Some e) media_pk0 lj
               else raise e)
      raise));
  v ← lift (x ← pop_items result; extract_media_v1 E x);
  new_media v.

(** *** [media_info] *)
Definition media_info (media_pk0 : PyId) (use_cache : bool) : M loc :=
  media_pk' ← lift (media_pk media_pk0);
  cached ← gets (λ st, bool_decide (is_Some (_medias_cache st !! media_pk')));
  (if negb use_cache || negb cached then
     media ←
       try_except
         (try_except
            (media_info_gql (IdInt media_pk'))
            (except "ClientLoginRequired"
               (λ e, ok ← inject_sessionid_to_public;
                     if negb ok then raise e
                     else media_info_gql (IdInt media_pk'))   (* retry *)
            raise))
         (λ e,
            (if negb (isinstance e "ClientError")
             then logger_exception e     (* Register unknown error *)
             else mret tt);;
            media_info_v1 (IdInt media_pk'));
     modify (set_cache (<[media_pk' := media]>))
   else mret tt);;
  entry ← gets (λ st, _medias_cache st !! media_pk');
  match entry with
  | Some media => deepcopy media
  | None => raise (KeyError_int media_pk')
  end.

(** *** [media_user] and [media_id] *)
Definition media_user (media_pk0 : PyId) : M loc :=
  media ← media_info media_pk0 true;
  m ← get_media media;
  mret (user m).

Definition media_id (media_pk0 : PyId) : M string :=
  let media_id := str media_pk0 in
  if negb (Py.contains "_" media_id) then
    assert (Py.isdigit media_id)
      ("media_id must been contain digits, now " +:+ media_id);;
    user ← media_user (IdStr media_id);
    u ← get_user user;
    mret (media_id +:+ "_" +:+ Py.str_int (pk u))
  else mret media_id.

(** [self.user_id] as a condition. *)
Definition logged_in (st : Client) : bool :=
  match user_id st with
  | Some n => negb (n =? 0)
  | None => false
  end.

(** [self._medias_cache.pop(self.media_pk(media_id), None)] *)
Definition cache_pop (media_id : string) : M unit :=
  media_pk' ← lift (media_pk (IdStr media_id));
  modify (set_cache (delete media_pk')).

(** *** [media_delete] *)
Definition media_delete (media_id0 : PyId) : M JSON :=
  li ← gets logged_in;
  assert li "Login required";;
  media_id' ← media_id media_id0;
  result ← private_request ("media/" +:+ media_id' +:+ "/delete/")
             (Some (with_default_data E [("media_id", JStr media_id')]));
  cache_pop media_id';;
  mret (dict_get "did_delete" result).

(** *** [media_edit] *)
Definition usertag_entry (tag : Usertag) : JSON :=
  JDict [ ("user_id", JInt (pk (tag_user tag)));
          ("position", JList [JFloat (x tag); JFloat (y tag)]) ].

Definition media_edit (media_id0 : PyId) (caption title : string)
    (usertags : list Usertag) (location : option Location) : M dict :=
  li ← gets logged_in;
  assert li "Login required";;
  media_id' ← media_id media_id0;
  media ← media_info (IdStr media_id') true;   (* from cache *)
  let usertags := map usertag_entry usertags in
  location' ← location_build location;
  let data :=
    [ ("caption_text", JStr caption);
      ("container_module", JStr "edit_media_info");
      ("feed_position", JStr "0");
      ("location", JStr location');
      ("usertags", JStr (json_dumps E (JDict [("in", JList usertags)])));
      ("is_carousel_bumped_post", JStr "false") ] in
  m ← get_media media;
  data ←
    (if String.eqb (product_type m) "igtv" then
       '(title, caption) ← lift
         (if String.eqb title "" then
            result_try (Py.unpack2 (Py.split1 LF caption)) "ValueError"
              (Ok (Py.slice_to 75 caption, caption))
          else Ok (title, caption));
       mret [ ("caption_text", JStr caption);
              ("title", JStr title);
              ("igtv_ads_toggled_on", JStr "0") ]
     else mret data);
  cache_pop media_id';;   (* clean cache *)
  private_request ("media/" +:+ media_id' +:+ "/edit_media/")
    (Some (with_default_data E data)).

(** *** [media_like], [media_unlike] *)
Definition media_like (media_id0 : PyId) (revert : bool) : M bool :=
  li ← gets logged_in;
  assert li "Login required";;
  media_id' ← media_id media_id0;
  feed_position ← random_randint 0 6;
  let data :=
    [ ("inventory_source", JStr "media_or_ad");
      ("media_id", JStr media_id');
      ("radio_type", JStr "wifi-none");
      ("is_carousel_bumped_post", JStr "false");
      ("container_module", JStr "feed_timeline");
      ("feed_position", JStr (Py.str_int feed_position)) ] in
  let name := if revert then "unlike" else "like" in
  result ← private_request ("media/" +:+ media_id' +:+ "/" +:+ name +:+ "/")
             (Some (with_action_data E data));
  status ← lift (getitem (JDict result) "status");
  mret (match status with JStr s => String.eqb s "ok" | _ => false end).

Definition media_unlike (media_id0 : PyId) : M bool :=
  media_like media_id0 true.

End MediaMixin.

(** ** Views of the state used in the statements *)

(** The value of the [Media] object at [l], its author read through the
    reference. *)
Definition read_media (h : gmap loc Obj) (l : loc) : option (Media UserShort) :=
  match h !! l with
  | Some (OMedia m) =>
      match h !! user m with
      | Some (OUser u) => Some (mkMedia (product_type m) (caption_text m) u (fields m))
      | _ => None
      end
  | _ => None
  end.

(** Every cache entry refers to a [Media] object with an author: what
    holds of a cache that only [media_info] has written. *)
Definition wf (st : Client) : Prop :=
  ∀ k c, _medias_cache st !! k = Some c → is_Some (read_media (heap st) c).

(** What no method undoes: objects stay as they are, and the records of
    calls and of logged errors only grow. *)
Record extends (st st' : Client) : Prop := mkExtends {
  ext_user_id : user_id st' = user_id st;
  ext_heap : heap st ⊆ heap st';
  ext_calls : calls st `suffix_of` calls st';
  ext_log : log st `suffix_of` log st';
}.

(** The same, with the cache as it was: what a fetch strategy does. *)
Definition fetch_rel (st st' : Client) : Prop :=
  extends st st' ∧ _medias_cache st' = _medias_cache st.

(** [keeps R m]: the state after [m] is related by [R] to the state before
    it, whether [m] returns or raises. *)
Definition keeps (R : Client → Client → Prop) {A} (m : M A) : Prop :=
  ∀ st, R st (m st).2.

Section Blocks.

Context (E : Env).

(** The [try] statement of [media_info] (lines 228-240). *)
Definition fallback_policy (pk : Z) : M loc :=
  try_except
    (try_except
       (media_info_gql E (IdInt pk))
       (except "ClientLoginRequired"
          (λ e, ok ← inject_sessionid_to_public E;
                if negb ok then raise e
                else media_info_gql E (IdInt pk))
       raise))
    (λ e,
       (if negb (isinstance e "ClientError")
        then logger_exception e
        else mret tt);;
       media_info_v1 E (IdInt pk)).

(** The handler of the outer [try] (lines 236-240), run on the error [e]. *)
Definition fall_back (pk : Z) (e : Exn) : M loc :=
  (if negb (isinstance e "ClientError")
   then logger_exception e
   else mret tt);;
  media_info_v1 E (IdInt pk).

(** Lines 241-242 once [media] is fetched. *)
Definition store_and_copy (pk : Z) (media : loc) : M loc :=
  modify (set_cache (<[pk := media]>));;
  deepcopy media.

(** Lines 312-322 of [media_edit]: title and caption of a long-form
    video, as submitted. *)
Definition igtv_title_caption (title caption : string) : string * string :=
  if String.eqb title "" then
    match Py.after LF caption with
    | Some rest => (Py.before LF caption, rest)
    | None => (Py.slice_to 75 caption, caption)
    end
  else (title, caption).

Definition igtv_data (title caption : string) : dict :=
  let '(title, caption) := igtv_title_caption title caption in
  [ ("caption_text", JStr caption);
    ("title", JStr title);
    ("igtv_ads_toggled_on", JStr "0") ].

Definition info_endpoint (pk : Z) : string := "media/" +:+ Py.str_int pk +:+ "/info/".
Definition edit_endpoint (media_id : string) : string := "media/" +:+ media_id +:+ "/edit_media/".
Definition delete_endpoint (media_id : string) : string := "media/" +:+ media_id +:+ "/delete/".

Definition graph_request (pk : Z) : Call :=
  PublicGraphqlRequest (gql_variables (encode E pk)) "477b65a610463740ccdb83135b2014db".

End Blocks.

(** [returns m Q]: whenever [m] returns [a], [Q a] holds of the state then. *)
Definition returns {A} (m : M A) (Q : A → Client → Prop) : Prop :=
  ∀ st a st', m st = (Ok a, st') → Q a st'.

(** [l] is a [Media] object whose value can be read. *)
Definition readable (l : loc) (st : Client) : Prop :=
  is_Some (read_media (heap st) l).

(** ** A concrete client and concrete collaborators, for examples *)

(** Modelled from the spec: [ClientError], [ClientLoginRequired] and
    [ClientNotFoundError] of instagrapi/exceptions.py, not among the
    sources: a client-level error, the spec's LoginRequiredError and the
    error of a transport that finds nothing. *)
Definition ClientError (msg : string) : Exn :=
  mkExn ["ClientError"; "Exception"] msg.
Definition ClientLoginRequired (msg : string) : Exn :=
  mkExn ["ClientLoginRequired"; "ClientError"; "Exception"] msg.
Definition ClientNotFoundError (msg : string) : Exn :=
  mkExn ["ClientNotFoundError"; "ClientError"; "Exception"] msg.

(** A constructor of [MediaNotFound] that takes its message from the
    keyword [message], else from its positional argument. *)
Definition demo_message (arg : option Exn) (media_pk : PyId) (kwargs : dict) : string :=
  match dict_lookup "message" kwargs, arg with
  | Some (JStr s), _ => s
  | _, Some e => exn_msg e
  | _, None => "Unknown"
  end.

(** An extractor that reads [product_type] and the owner's [pk]. *)
Definition demo_extract (x : JSON) : Result (Media UserShort) :=
  Ok (mkMedia
        (match getitem x "product_type" with Ok (JStr s) => s | _ => "feed" end)
        "a caption"
        (mkUser (match getitem x "owner" with Ok (JInt z) => z | _ => 7 end) "owner")
        []).

(** Collaborators whose replies do not change over time: the graph
    transport answers [graph], the private transport answers [private],
    session injection answers [inject]. *)
Definition demo_env (graph : Result dict) (inject : bool) (private : Result dict) : Env :=
  {| encode := Py.str_int;
     graphql_reply := λ _ _ _, graph;
     private_reply := λ _ _ _, (private, []);
     inject_reply := λ _, inject;
     location_reply := λ _ l, Ok l;
     extract_media_gql := demo_extract;
     extract_media_v1 := demo_extract;
     extract_location := λ _, Ok [];
     location_build_reply := λ _ _, Ok "{}";
     media_not_found_message := demo_message;
     with_default_data := λ d, d;
     with_action_data := λ d, d;
     json_dumps := λ _, "{}";
     randint := λ _ lo _, lo |}.

Definition graph_media (ptype : string) : dict :=
  [("shortcode_media", JDict [("product_type", JStr ptype); ("location", JNull)])].

Definition private_items : dict :=
  [("items", JList [JDict [("product_type", JStr "feed")]]);
   ("status", JStr "ok"); ("did_delete", JBool true)].

(** Collaborators for which the graph transport wants a login until a
    session has been injected. *)
Definition session_injected (cs : list Call) : bool :=
  existsb (λ c, match c with InjectSessionidToPublic => true | _ => false end) cs.

Definition elevating_env : Env :=
  {| encode := Py.str_int;
     graphql_reply := λ cs _ _,
       if session_injected cs then Ok (graph_media "igtv")
       else Raise (ClientLoginRequired "login_required");
     private_reply := λ _ _ _, (Ok private_items, []);
     inject_reply := λ _, true;
     location_reply := λ _ l, Ok l;
     extract_media_gql := demo_extract;
     extract_media_v1 := demo_extract;
     extract_location := λ _, Ok [];
     location_build_reply := λ _ _, Ok "{}";
     media_not_found_message := demo_message;
     with_default_data := λ d, d;
     with_action_data := λ d, d;
     json_dumps := λ _, "{}";
     randint := λ _ lo _, lo |}.

(** A logged-in client that has fetched nothing yet, and one without a
    session. *)
Definition fresh_client : Client := mkClient (Some 7) ∅ ∅ [] [] [] 0.
Definition anonymous_client : Client := mkClient None ∅ ∅ [] [] [] 0.

(** [extends], and a well-formed cache stays well-formed. *)
Definition wf_rel (st st' : Client) : Prop :=
  extends st st' ∧ (wf st → wf st').

(** Lines 300-311 of [media_edit]: the standard payload, [location] being
    what [location_build] has returned. *)
Definition standard_edit_data (E : Env) (caption : string)
    (usertags : list Usertag) (location : string) : dict :=
  [ ("caption_text", JStr caption);
    ("container_module", JStr "edit_media_info");
    ("feed_position", JStr "0");
    ("location", JStr location);
    ("usertags", JStr (json_dumps E (JDict [("in", JList (map usertag_entry usertags))])));
    ("is_carousel_bumped_post", JStr "false") ].

(** ** The remaining methods of the mixin *)

(** Truth value of a [str]. *)
Definition nonempty (s : string) : bool := negb (String.eqb s "").

Section Helpers.

(** [InstagramIdCodec.decode] (instagrapi/utils.py) and [urlparse(url).path]
    (urllib.parse) are taken as given. *)
Context (decode : string → Result Z) (urlparse_path : string → string).

(** *** [media_pk_from_code] (static) *)
Definition media_pk_from_code (code : string) : Result Z :=
  decode (Py.slice_to 11 code).

(** *** [media_pk_from_url] *)
Definition media_pk_from_url (url : string) : Result Z :=
  let path := urlparse_path url in
  let parts := List.filter nonempty (Py.split "/" path) in
  match last parts with
  | Some code => media_pk_from_code code
  | None => Raise (IndexError "pop from empty list")
  end.

End Helpers.

Section Strategies.

(** [public_a1_request], a method of the client defined outside the mixin,
    is taken as a computation on the client. *)
Context (E : Env) (public_a1_request : string → option dict → M dict).

(** *** [media_info_a1] *)
Definition media_info_a1 (media_pk0 : PyId) (max_id : option string) : M loc :=
  media_pk' ← lift (media_pk media_pk0);
  let shortcode := encode E media_pk' in
  let params :=
    match max_id with
    | Some s => if nonempty s then Some [("max_id", JStr s)] else None
    | None => None
    end in
  data ← public_a1_request ("/p/" +:+ shortcode +:+ "/") params;
  (if negb (truthy (dict_get "shortcode_media" data))
   then raise_MediaNotFound E None (IdInt media_pk') data
   else mret tt);;
  shortcode_media ← lift (getitem (JDict data) "shortcode_media");
  v ← lift (extract_media_gql E shortcode_media);
  new_media v.

(** *** [media_oembed]; [extract_media_oembed] is taken as given. *)
Definition media_oembed (extract_media_oembed : dict → Result dict)
    (url : string) : M dict :=
  result ← private_request E ("oembed?url=" +:+ url) None;
  lift (extract_media_oembed result).

End Strategies.

(** ** Further views of the state *)

(** Kinds of collaborator call. *)
Inductive Kind := KGraph | KPrivate | KInject | KLocation | KBuild.

Global Instance Kind_eq_dec : EqDecision Kind.
Proof. solve_decision. Defined.

Definition kind_of (c : Call) : Kind :=
  match c with
  | PublicGraphqlRequest _ _ => KGraph
  | PrivateRequest _ _ => KPrivate
  | InjectSessionidToPublic => KInject
  | LocationComplete _ => KLocation
  | LocationBuild _ => KBuild
  end.

(** Number of calls of kind [κ] in a record of calls. *)
Definition count_kind (κ : Kind) (cs : list Call) : nat :=
  length (List.filter (λ c, bool_decide (kind_of c = κ)) cs).

(** [adds m κ n]: a run of [m] records at most [n] calls of kind [κ] on
    top of those recorded before. *)
Definition adds {A} (m : M A) (κ : Kind) (n : nat) : Prop :=
  ∀ st, ∃ new : list Call,
    calls (m st).2 = (new ++ calls st)%list ∧ (count_kind κ new ≤ n)%nat.

(** One call of kind [k] counts for one when [κ] is [k]. *)
Definition one_if (k κ : Kind) : nat := if bool_decide (k = κ) then 1 else 0.

(** The cache is as it was except, at most, under the key of [id]. *)
Definition only_key (id : PyId) (st st' : Client) : Prop :=
  ∀ k, media_pk id ≠ Ok k → _medias_cache st' !! k = _medias_cache st !! k.

Fixpoint slashes (n : nat) : string :=
  match n with
  | O => EmptyString
  | S n' => String "/" (slashes n')
  end.

(** [m] returns only objects that did not exist before the call. *)
Definition returns_fresh (m : M loc) : Prop :=
  ∀ st l st', m st = (Ok l, st') → heap st !! l = None.

(** The cache only gains entries: none is evicted or replaced. *)
Definition cache_grows (st st' : Client) : Prop :=
  _medias_cache st ⊆ _medias_cache st'.

(** What a fetch strategy may do: record calls and [last_json], add
    objects. The user id, the cache, the log and the objects that exist
    are left as they are. *)
Definition strategy_rel (st st' : Client) : Prop :=
  user_id st' = user_id st ∧ _medias_cache st' = _medias_cache st ∧
  log st' = log st ∧ draws st' = draws st ∧
  heap st ⊆ heap st' ∧ calls st `suffix_of` calls st'.

(** Lines 381-388 of [media_like]: the payload, the drawn feed position
    given. *)
Definition like_data (media_id : string) (feed_position : Z) : dict :=
  [ ("inventory_source", JStr "media_or_ad");
    ("media_id", JStr media_id);
    ("radio_type", JStr "wifi-none");
    ("is_carousel_bumped_post", JStr "false");
    ("container_module", JStr "feed_timeline");
    ("feed_position", JStr (Py.str_int feed_position)) ].

Definition like_endpoint (media_id : string) (revert : bool) : string :=
  "media/" +:+ media_id +:+ "/" +:+ (if revert then "unlike" else "like") +:+ "/".

(** ** [media_edit] in steps *)

(** Lines 297-299 of [media_edit]: the session, the composite identifier
    and the metadata. *)
Definition edit_prelude (E : Env) (media_id0 : PyId) : M (string * loc) :=
  li ← gets logged_in;
  assert li "Login required";;
  media_id' ← media_id E media_id0;
  media ← media_info E (IdStr media_id') true;
  mret (media_id', media).

(** The claim about the title of a long-form video, in its own words:
    when the caption has a line break, the title [t] is its first line and
    the caption [c] the remainder after the first line break; when it has
    none, the title is the caption cut to its first 75 characters, and the
    caption stays. *)
Definition is_title_split (caption t c : string) : bool :=
  if Py.contains LF caption then
    negb (Py.contains LF t) && String.eqb caption (t +:+ String LF c)
  else
    String.eqb c caption && String.prefix t caption &&
    (String.length t =? Nat.min 75 (String.length caption))%nat.

(** Collaborators as [E], but for a [location_build] that fails with [e]
    on every location it is given; called without a location it answers as
    that of [E] does. *)
Definition failing_location_build (e : Exn) (E : Env) : Env :=
  {| encode := encode E;
     graphql_reply := graphql_reply E;
     private_reply := private_reply E;
     inject_reply := inject_reply E;
     location_reply := location_reply E;
     extract_media_gql := extract_media_gql E;
     extract_media_v1 := extract_media_v1 E;
     extract_location := extract_location E;
     location_build_reply := λ cs l,
       match l with
       | Some _ => Raise e
       | None => location_build_reply E cs l
       end;
     media_not_found_message := media_not_found_message E;
     with_default_data := with_default_data E;
     with_action_data := with_action_data E;
     json_dumps := json_dumps E;
     randint := randint E |}.

(** Collaborators as [E], but for a [with_default_data] that adds the
    key [_uuid] to what it is given. *)
Definition adding_uuid (E : Env) : Env :=
  {| encode := encode E;
     graphql_reply := graphql_reply E;
     private_reply := private_reply E;
     inject_reply := inject_reply E;
     location_reply := location_reply E;
     extract_media_gql := extract_media_gql E;
     extract_media_v1 := extract_media_v1 E;
     extract_location := extract_location E;
     location_build_reply := location_build_reply E;
     media_not_found_message := media_not_found_message E;
     with_default_data := λ d, (with_default_data E d ++ [("_uuid", JStr "uuid")])%list;
     with_action_data := with_action_data E;
     json_dumps := json_dumps E;
     randint := randint E |}.

(** Collaborators as [E], but for a private transport that leaves [lj]
    as [last_json]. *)
Definition leaving_last_json (lj : dict) (E : Env) : Env :=
  {| encode := encode E;
     graphql_reply := graphql_reply E;
     private_reply := λ cs ep d, ((private_reply E cs ep d).1, lj);
     inject_reply := inject_reply E;
     location_reply := location_reply E;
     extract_media_gql := extract_media_gql E;
     extract_media_v1 := extract_media_v1 E;
     extract_location := extract_location E;
     location_build_reply := location_build_reply E;
     media_not_found_message := media_not_found_message E;
     with_default_data := with_default_data E;
     with_action_data := with_action_data E;
     json_dumps := json_dumps E;
     randint := randint E |}.

(** * Properties *)

Example media_pk_composite :
  media_pk (IdStr "2277033926878261772_1903424587") = Ok 2277033926878261772.
Proof. reflexivity. Qed.

Example media_pk_plain : media_pk (IdStr "2277033926878261772") = Ok 2277033926878261772.
Proof. reflexivity. Qed.

Example media_pk_of_int : media_pk (IdInt 2277033926878261772) = Ok 2277033926878261772.
Proof. reflexivity. Qed.

Example media_pk_two_separators :
  media_pk (IdStr "1_2_3") = Raise (ValueError "too many values to unpack (expected 2)").
Proof. reflexivity. Qed.

(** ** Strings *)
Section PyStrings.

Lemma contains_count c s : Py.contains c s = negb (Nat.eqb (Py.count c s) 0).
Proof.
  induction s as [|a r IH]; simpl; [done|].
  destruct (Ascii.eqb a c); simpl; [done|]. exact IH.
Qed.

Lemma split_before c s : ∃ t, Py.split c s = Py.before c s :: t.
Proof.
  induction s as [|a r [t IH]]; simpl; [by eexists|].
  destruct (Ascii.eqb a c); [by eexists|].
  rewrite IH. by eexists.
Qed.

Lemma split_length c s : length (Py.split c s) = S (Py.count c s).
Proof.
  induction s as [|a r IH]; simpl; [done|].
  destruct (Ascii.eqb a c); simpl; [by rewrite IH|].
  destruct (Py.split c r); simpl in *; [done | exact IH].
Qed.

Lemma split_none c s : Py.contains c s = false → Py.split c s = [s].
Proof.
  induction s as [|a r IH]; simpl; [done|].
  destruct (Ascii.eqb a c); simpl; [done|].
  intros H. by rewrite IH.
Qed.

Lemma split_join c a b :
  Py.contains c a = false → Py.contains c b = false →
  Py.split c (a +:+ String c b) = [a; b].
Proof.
  intros Ha Hb. induction a as [|x r IH]; simpl in *.
  - rewrite Ascii.eqb_refl. by rewrite split_none.
  - destruct (Ascii.eqb x c); simpl in *; [done|]. by rewrite IH.
Qed.

Lemma contains_app c a b :
  Py.contains c (a +:+ b) = Py.contains c a || Py.contains c b.
Proof.
  induction a as [|x r IH]; simpl; [done|].
  rewrite IH. by rewrite orb_assoc.
Qed.

Lemma all_chars_not_contains (p : ascii → bool) c s :
  p c = false → Py.all_chars p s = true → Py.contains c s = false.
Proof.
  intros Hc. induction s as [|a r IH]; simpl; [done|].
  intros [Ha Hr]%andb_true_iff.
  destruct (Ascii.eqb_spec a c) as [->|]; [congruence|]. by apply IH.
Qed.

End PyStrings.

(** ** [media_pk] *)

(** C7, as the code has it: without a separator the whole string is parsed;
    with exactly one separator the segment before it is parsed; with two or
    more the unpacking of the split fails with ValueError. *)
Theorem media_pk_by_separators (s : string) :
  media_pk (IdStr s) =
    match Py.count "_" s with
    | O => Py.int s
    | 1%nat => Py.int (Py.before "_" s)
    | _ => Raise (ValueError "too many values to unpack (expected 2)")
    end.
Proof.
  unfold media_pk; simpl. rewrite contains_count.
  pose proof (split_length "_" s) as Hlen.
  destruct (split_before "_" s) as [t Ht]. rewrite Ht in *.
  destruct (Py.count "_" s) as [|[|n]]; simpl in *; [done| |].
  - destruct t as [|b [|? ?]]; simpl in *; try lia. done.
  - destruct t as [|b [|? ?]]; simpl in *; try lia. done.
Qed.

(** C7 as stated fails: the first segment of "1_2_3" is the integer 1, and
    media_pk raises instead of returning it. *)
Lemma media_pk_first_segment_counterexample :
  Py.contains "_" "1_2_3" = true ∧
  Py.int (Py.before "_" "1_2_3") = Ok 1 ∧
  media_pk (IdStr "1_2_3") ≠ Py.int (Py.before "_" "1_2_3").
Proof. repeat split; try reflexivity. vm_compute. discriminate. Qed.

(** ** [str] and [int] on integers *)
Section StrInt.

Lemma uint_digits d : Py.all_chars Py.is_ascii_digit (NilEmpty.string_of_uint d) = true.
Proof. induction d; simpl; try done. Qed.

Lemma digit_not_space a : Py.is_ascii_digit a = true → Py.is_space a = false.
Proof. destruct a as [[] [] [] [] [] [] [] []]; vm_compute; congruence. Qed.

Lemma rstrip_digits s :
  Py.all_chars Py.is_ascii_digit s = true → Py.rstrip s = s.
Proof.
  induction s as [|a r IH]; simpl; [done|].
  intros [Ha Hr]%andb_true_iff. rewrite (IH Hr).
  destruct r; [by rewrite (digit_not_space _ Ha) | done].
Qed.

Lemma rstrip_cons a s :
  s ≠ EmptyString → Py.rstrip s = s → Py.rstrip (String a s) = String a s.
Proof.
  intros Hs Hr. destruct s as [|b t]; [done|]. simpl in *. by rewrite Hr.
Qed.

Lemma digits_of_digits s :
  s ≠ EmptyString → Py.all_chars Py.is_ascii_digit s = true →
  Py.digits_of s = Some s.
Proof.
  induction s as [|a r IH]; [done|]. intros _ [Ha Hr]%andb_true_iff.
  cbn [Py.digits_of]. rewrite Ha.
  destruct r as [|b r']; [done|].
  assert (Hb : Py.is_ascii_digit b = true) by (simpl in Hr; by apply andb_true_iff in Hr as [? _]).
  rewrite (IH ltac:(done) Hr).
  destruct b as [[] [] [] [] [] [] [] []]; try reflexivity; vm_compute in Hb; congruence.
Qed.

(** A non-empty digit string is parsed as its decimal value. *)
Lemma int_of_digits d :
  d ≠ Nil → Py.int (NilEmpty.string_of_uint d) = Ok (Z.of_uint d).
Proof.
  intros Hd. pose proof (uint_digits d) as Hall.
  pose proof (NilZero.usu d Hd) as Hparse.
  assert (NilZero.string_of_uint d = NilEmpty.string_of_uint d) as Heq by (by destruct d).
  rewrite Heq in Hparse.
  destruct (NilEmpty.string_of_uint d) as [|a r] eqn:Hs; [by destruct d|].
  unfold Py.int. cbn [Py.lstrip].
  pose proof Hall as [Ha Hr]%andb_true_iff.
  rewrite (digit_not_space _ Ha), (rstrip_digits _ Hall).
  assert (match String a r with
          | String "-" r0 => (true, r0)
          | String "+" r0 => (false, r0)
          | _ => (false, String a r)
          end = (false, String a r)) as ->.
  { destruct a as [[] [] [] [] [] [] [] []]; try reflexivity; vm_compute in Ha; congruence. }
  rewrite digits_of_digits by done. by rewrite Hparse.
Qed.

Lemma int_of_minus_digits d :
  d ≠ Nil → Py.int (String "-" (NilEmpty.string_of_uint d)) = Ok (- Z.of_uint d).
Proof.
  intros Hd. pose proof (uint_digits d) as Hall.
  pose proof (NilZero.usu d Hd) as Hparse.
  assert (NilZero.string_of_uint d = NilEmpty.string_of_uint d) as Heq by (by destruct d).
  rewrite Heq in Hparse.
  destruct (NilEmpty.string_of_uint d) as [|a r] eqn:Hs; [by destruct d|].
  unfold Py.int. cbn [Py.lstrip].
  replace (Py.is_space "-") with false by reflexivity.
  rewrite rstrip_cons by (done || by apply rstrip_digits).
  cbv beta iota. rewrite digits_of_digits by done. by rewrite Hparse.
Qed.

(** [int(str(z)) == z] *)
Lemma int_str_int z : Py.int (Py.str_int z) = Ok z.
Proof.
  destruct z as [|p|p]; [reflexivity| |].
  - unfold Py.str_int; simpl.
    assert (Hn := DecimalPos.Unsigned.to_uint_nonnil p).
    replace (NilZero.string_of_uint (Pos.to_uint p))
      with (NilEmpty.string_of_uint (Pos.to_uint p)) by (by destruct (Pos.to_uint p)).
    rewrite int_of_digits by done.
    unfold Z.of_uint. by rewrite DecimalPos.Unsigned.of_to.
  - unfold Py.str_int; simpl.
    assert (Hn := DecimalPos.Unsigned.to_uint_nonnil p).
    replace (NilZero.string_of_uint (Pos.to_uint p))
      with (NilEmpty.string_of_uint (Pos.to_uint p)) by (by destruct (Pos.to_uint p)).
    rewrite int_of_minus_digits by done.
    unfold Z.of_uint. by rewrite DecimalPos.Unsigned.of_to.
Qed.

(** The decimal form of an integer has no separator. *)
Lemma str_int_no_separator z : Py.contains "_" (Py.str_int z) = false.
Proof.
  assert (Hu : ∀ d, Py.contains "_" (NilZero.string_of_uint d) = false).
  { intros d. destruct d; try reflexivity;
      apply (all_chars_not_contains Py.is_ascii_digit); try reflexivity;
      apply (uint_digits (_ d)). }
  destruct z as [|p|p]; [reflexivity| |]; unfold Py.str_int; simpl.
  - apply Hu.
  - apply Hu.
Qed.

Lemma media_pk_int z : media_pk (IdInt z) = Ok z.
Proof.
  unfold media_pk; simpl. rewrite str_int_no_separator. apply int_str_int.
Qed.

End StrInt.

(** ** Running computations *)
Section Monad.

Context {A B : Type}.

Lemma run_bind (m : M A) (f : A → M B) st :
  (m ≫= f) st =
    match m st with
    | (Ok a, st') => f a st'
    | (Raise e, st') => (Raise e, st')
    end.
Proof. reflexivity. Qed.

Lemma bind_Ok (m : M A) (f : A → M B) st b st' :
  (m ≫= f) st = (Ok b, st') →
  ∃ a st1, m st = (Ok a, st1) ∧ f a st1 = (Ok b, st').
Proof.
  rewrite run_bind. destruct (m st) as [[a|e] st1]; [eauto | discriminate].
Qed.

End Monad.

(** ** Relations that every step of a method keeps *)
Section Invariants.

Context (R : Client → Client → Prop) `{!PreOrder R}.

Lemma keeps_ret {A} (a : A) : keeps R (mret a).
Proof. intros st. simpl. reflexivity. Qed.

Lemma keeps_raise {A} e : keeps R (@raise A e).
Proof. intros st. simpl. reflexivity. Qed.

Lemma keeps_lift {A} (r : Result A) : keeps R (lift r).
Proof. intros st. simpl. reflexivity. Qed.

Lemma keeps_gets {A} (f : Client → A) : keeps R (gets f).
Proof. intros st. simpl. reflexivity. Qed.

Lemma keeps_assert c msg : keeps R (assert c msg).
Proof. destruct c; [apply keeps_ret | apply keeps_raise]. Qed.

Lemma keeps_bind {A B} (m : M A) (f : A → M B) :
  keeps R m → (∀ a, keeps R (f a)) → keeps R (m ≫= f).
Proof.
  intros Hm Hf st. rewrite run_bind. specialize (Hm st).
  destruct (m st) as [[a|e] st1]; simpl in *; [|done].
  etrans; [exact Hm | apply Hf].
Qed.

Lemma keeps_try {A} (m : M A) (h : Exn → M A) :
  keeps R m → (∀ e, keeps R (h e)) → keeps R (try_except m h).
Proof.
  intros Hm Hh st. unfold try_except. specialize (Hm st).
  destruct (m st) as [[a|e] st1]; simpl in *; [done|].
  etrans; [exact Hm | apply Hh].
Qed.

Lemma keeps_except {A} cls (h r : Exn → M A) e :
  keeps R (h e) → keeps R (r e) → keeps R (except cls h r e).
Proof. intros Hh Hr. unfold except. by destruct (isinstance e cls). Qed.

Lemma keeps_if {A} (b : bool) (m1 m2 : M A) :
  keeps R m1 → keeps R m2 → keeps R (if b then m1 else m2).
Proof. by destruct b. Qed.

End Invariants.

Global Instance extends_preorder : PreOrder extends.
Proof.
  split.
  - intros st. by split.
  - intros s1 s2 s3 [? ? ? ?] [? ? ? ?]. split; [congruence | by etrans..].
Qed.

Global Instance fetch_rel_preorder : PreOrder fetch_rel.
Proof.
  split.
  - intros st. by split.
  - intros s1 s2 s3 [? ?] [? ?]. split; [by etrans | congruence].
Qed.

Lemma keeps_weaken (R R' : Client → Client → Prop) {A} (m : M A) :
  (∀ st st', R st st' → R' st st') → keeps R m → keeps R' m.
Proof. intros HR Hm st. apply HR, Hm. Qed.

Create HintDb keeps.

Ltac keeps_step :=
  first
    [ apply keeps_ret | apply keeps_raise | apply keeps_lift | apply keeps_gets
    | apply keeps_assert
    | apply keeps_bind; [typeclasses eauto | | intros ?]
    | apply keeps_try; [typeclasses eauto | | intros ?]
    | apply keeps_except
    | apply keeps_if
    | assumption
    | match goal with
      | |- keeps _ (match ?x with _ => _ end) => destruct x
      | |- keeps _ (let '(_, _) := ?x in _) => destruct x
      end ].

(** ** The collaborators and the object store keep [fetch_rel] *)
Section Primitives.

Context (E : Env).

Lemma heap_alloc_subseteq (h : gmap loc Obj) o : h ⊆ <[fresh (dom h) := o]> h.
Proof. apply insert_subseteq, not_elem_of_dom, is_fresh. Qed.

Lemma keeps_public_graphql_request v q : keeps fetch_rel (public_graphql_request E v q).
Proof. intros st. repeat split; simpl; try done. by apply suffix_cons_r. Qed.

Lemma keeps_private_request ep d : keeps fetch_rel (private_request E ep d).
Proof.
  intros st. unfold private_request.
  destruct (private_reply E (calls st) ep d) as [r lj].
  repeat split; simpl; try done. by apply suffix_cons_r.
Qed.

Lemma keeps_inject : keeps fetch_rel (inject_sessionid_to_public E).
Proof. intros st. repeat split; simpl; try done. by apply suffix_cons_r. Qed.

Lemma keeps_location_complete l : keeps fetch_rel (location_complete E l).
Proof. intros st. repeat split; simpl; try done. by apply suffix_cons_r. Qed.

Lemma keeps_location_build l : keeps fetch_rel (location_build E l).
Proof. intros st. repeat split; simpl; try done. by apply suffix_cons_r. Qed.

Lemma keeps_logger_exception e : keeps fetch_rel (logger_exception e).
Proof. intros st. repeat split; simpl; try done. by apply suffix_cons_r. Qed.

Lemma keeps_random_randint lo hi : keeps fetch_rel (random_randint E lo hi).
Proof. intros st. by repeat split. Qed.

Lemma keeps_alloc o : keeps fetch_rel (alloc o).
Proof. intros st. repeat split; simpl; try done. apply heap_alloc_subseteq. Qed.

Lemma keeps_get_media l : keeps fetch_rel (get_media l).
Proof. intros st. unfold get_media. by destruct (heap st !! l) as [[]|]. Qed.

Lemma keeps_get_user l : keeps fetch_rel (get_user l).
Proof. intros st. unfold get_user. by destruct (heap st !! l) as [[]|]. Qed.

#[local] Hint Resolve keeps_public_graphql_request keeps_private_request keeps_inject
  keeps_location_complete keeps_location_build keeps_logger_exception keeps_random_randint
  keeps_alloc keeps_get_media keeps_get_user : keeps.

Ltac fetch_tac := repeat (keeps_step; try typeclasses eauto; auto with keeps).

Lemma keeps_new_media v : keeps fetch_rel (new_media v).
Proof. unfold new_media. fetch_tac. Qed.

Lemma keeps_deepcopy l : keeps fetch_rel (deepcopy l).
Proof. unfold deepcopy. fetch_tac. Qed.

Lemma keeps_raise_MediaNotFound {A} arg id kw :
  keeps fetch_rel (@raise_MediaNotFound E A arg id kw).
Proof. unfold raise_MediaNotFound. fetch_tac. Qed.

#[local] Hint Resolve keeps_new_media keeps_deepcopy keeps_raise_MediaNotFound : keeps.

Lemma keeps_media_info_gql id : keeps fetch_rel (media_info_gql E id).
Proof. unfold media_info_gql. fetch_tac. Qed.

Lemma keeps_media_info_v1 id : keeps fetch_rel (media_info_v1 E id).
Proof. unfold media_info_v1. fetch_tac. Qed.

#[local] Hint Resolve keeps_media_info_gql keeps_media_info_v1 : keeps.

Lemma keeps_fall_back pk e : keeps fetch_rel (fall_back E pk e).
Proof. unfold fall_back. fetch_tac. Qed.

Lemma keeps_fallback_policy pk : keeps fetch_rel (fallback_policy E pk).
Proof. unfold fallback_policy. fetch_tac. Qed.

End Primitives.

Ltac frame_tac :=
  repeat first
    [ apply keeps_fallback_policy | apply keeps_fall_back
    | apply keeps_media_info_gql | apply keeps_media_info_v1
    | apply keeps_new_media | apply keeps_deepcopy | apply keeps_raise_MediaNotFound
    | apply keeps_public_graphql_request | apply keeps_private_request
    | apply keeps_inject | apply keeps_location_complete | apply keeps_location_build
    | apply keeps_logger_exception | apply keeps_random_randint
    | apply keeps_alloc | apply keeps_get_media | apply keeps_get_user
    | keeps_step; try typeclasses eauto ].

(** ** What a method returns *)
Section Returns.

Context {A : Type} (Q : A → Client → Prop).

Lemma returns_raise e : returns (raise e) Q.
Proof. intros st a st' [=]. Qed.

Lemma returns_bind {B} (m : M B) (f : B → M A) :
  (∀ b, returns (f b) Q) → returns (m ≫= f) Q.
Proof.
  intros Hf st a st' (b & st1 & _ & H)%bind_Ok. by eapply Hf.
Qed.

Lemma returns_try (m : M A) (h : Exn → M A) :
  returns m Q → (∀ e, returns (h e) Q) → returns (try_except m h) Q.
Proof.
  intros Hm Hh st a st'. unfold try_except.
  destruct (m st) as [[a0|e] st1] eqn:Hrun.
  - intros [= <- <-]. by eapply Hm.
  - by apply Hh.
Qed.

Lemma returns_except cls (h r : Exn → M A) e :
  returns (h e) Q → returns (r e) Q → returns (except cls h r e) Q.
Proof. unfold except. by destruct (isinstance e cls). Qed.

Lemma returns_if (b : bool) (m1 m2 : M A) :
  returns m1 Q → returns m2 Q → returns (if b then m1 else m2) Q.
Proof. by destruct b. Qed.

End Returns.

Ltac returns_step :=
  first
    [ apply returns_raise
    | apply returns_bind; intros ?
    | apply returns_try; [|intros ?]
    | apply returns_except
    | apply returns_if
    | assumption
    | match goal with
      | |- returns (match ?x with _ => _ end) _ => destruct x
      end ].

(** ** The object store *)
Section Store.

Context (E : Env).

Lemma read_media_mono (h h' : gmap loc Obj) l v :
  h ⊆ h' → read_media h l = Some v → read_media h' l = Some v.
Proof.
  intros Hsub. unfold read_media.
  destruct (h !! l) as [[m|u]|] eqn:Hl; try done.
  rewrite (lookup_weaken _ _ _ _ Hl Hsub).
  destruct (h !! user m) as [[m'|u]|] eqn:Hu; try done.
  by rewrite (lookup_weaken _ _ _ _ Hu Hsub).
Qed.

(** The objects read by [read_media h l] are in [h]. *)
Lemma read_media_dom (h : gmap loc Obj) l v :
  read_media h l = Some v →
  ∃ m, h !! l = Some (OMedia m) ∧ h !! user m = Some (OUser (user v)).
Proof.
  unfold read_media.
  destruct (h !! l) as [[m|u]|] eqn:Hl; try done.
  destruct (h !! user m) as [[m'|u]|] eqn:Hu; try done.
  intros [= <-]. eauto.
Qed.

(** Reading [c] looks at no other object than [c] and its author. *)
Lemma read_media_agree (h h' : gmap loc Obj) c v :
  read_media h c = Some v →
  (∀ a, is_Some (h !! a) → h' !! a = h !! a) →
  read_media h' c = Some v.
Proof.
  intros Hr Hag. pose proof Hr as (m & Hc & Hu)%read_media_dom.
  unfold read_media in *.
  rewrite (Hag c) by (by rewrite Hc). rewrite Hc in *.
  rewrite (Hag (user m)) by (by rewrite Hu). done.
Qed.

(** [new_media] always returns, with two new objects. *)
Lemma new_media_run v st :
  let lu := fresh (dom (heap st)) in
  let h1 := <[lu := OUser (user v)]> (heap st) in
  let l := fresh (dom h1) in
  new_media v st =
    (Ok l, set_heap (<[l := OMedia (mkMedia (product_type v) (caption_text v) lu (fields v))]> h1) st).
Proof. reflexivity. Qed.

Lemma new_media_spec v st l st' :
  new_media v st = (Ok l, st') →
  read_media (heap st') l = Some v ∧
  heap st !! l = None ∧
  (∃ m, heap st' !! l = Some (OMedia m) ∧ heap st !! user m = None ∧ user m ≠ l) ∧
  (∀ a, a ≠ l → (∀ m, heap st' !! l = Some (OMedia m) → a ≠ user m) →
        heap st' !! a = heap st !! a) ∧
  _medias_cache st' = _medias_cache st ∧ calls st' = calls st ∧
  log st' = log st ∧ user_id st' = user_id st.
Proof.
  rewrite new_media_run. cbv zeta. intros [= Hl0 Hst0]. subst l st'. simpl.
  set (lu := fresh (dom (heap st))).
  set (h1 := <[lu := OUser (user v)]> (heap st)).
  set (l := fresh (dom h1)).
  assert (Hlu : heap st !! lu = None) by apply not_elem_of_dom, is_fresh.
  assert (Hl1 : h1 !! l = None) by apply not_elem_of_dom, is_fresh.
  assert (Hne : lu ≠ l).
  { intros Heq. unfold h1 in Hl1. rewrite <- Heq in Hl1.
    by rewrite lookup_insert_eq in Hl1. }
  assert (Hl : heap st !! l = None).
  { unfold h1 in Hl1. by rewrite lookup_insert_ne in Hl1. }
  split_and!; try done.
  - unfold read_media. rewrite lookup_insert_eq. simpl.
    rewrite lookup_insert_ne by done. unfold h1. rewrite lookup_insert_eq.
    by destruct v.
  - eexists. rewrite lookup_insert_eq. split; [done|]. simpl. done.
  - intros a Hal Hau. rewrite lookup_insert_ne by done.
    unfold h1. rewrite lookup_insert_ne; [done|].
    intros Heq. eapply Hau; [by rewrite lookup_insert_eq|]. by simpl.
Qed.

(** [deepcopy] of a readable object is [new_media] of its value. *)
Lemma deepcopy_read c st v :
  read_media (heap st) c = Some v → deepcopy c st = new_media v st.
Proof.
  intros Hr. unfold deepcopy, read_media in *.
  rewrite run_bind. unfold get_media at 1.
  destruct (heap st !! c) as [[m|u]|] eqn:Hc; try done.
  rewrite run_bind. unfold get_user at 1.
  destruct (heap st !! user m) as [[m'|u]|] eqn:Hu; try done.
  by injection Hr as <-.
Qed.

Lemma deepcopy_unreadable c st :
  read_media (heap st) c = None → ∃ e, deepcopy c st = (Raise e, st).
Proof.
  intros Hr. unfold deepcopy, read_media in *.
  rewrite run_bind. unfold get_media at 1.
  destruct (heap st !! c) as [[m|u]|] eqn:Hc; eauto.
  rewrite run_bind. unfold get_user at 1.
  destruct (heap st !! user m) as [[m'|u]|] eqn:Hu; eauto. done.
Qed.

Lemma deepcopy_Ok c st l st' :
  deepcopy c st = (Ok l, st') →
  ∃ v, read_media (heap st) c = Some v ∧ new_media v st = (Ok l, st').
Proof.
  intros H. destruct (read_media (heap st) c) as [v|] eqn:Hr.
  - exists v. split; [done|]. by rewrite <- (deepcopy_read _ _ _ Hr).
  - destruct (deepcopy_unreadable _ _ Hr) as [e He]. congruence.
Qed.

Lemma returns_new_media v : returns (new_media v) readable.
Proof. intros st l st' H%new_media_spec. unfold readable. by rewrite (proj1 H). Qed.

Lemma returns_media_info_gql id : returns (media_info_gql E id) readable.
Proof. unfold media_info_gql. repeat first [apply returns_new_media | returns_step]. Qed.

Lemma returns_media_info_v1 id : returns (media_info_v1 E id) readable.
Proof. unfold media_info_v1. repeat first [apply returns_new_media | returns_step]. Qed.

Lemma returns_fallback_policy pk : returns (fallback_policy E pk) readable.
Proof.
  unfold fallback_policy.
  repeat first [apply returns_media_info_gql | apply returns_media_info_v1 | returns_step].
Qed.

End Store.

(** ** [media_info]: the shape of a run *)
Section MediaInfo.

Context (E : Env).

Lemma media_info_unfold id uc st :
  media_info E id uc st =
    match media_pk id with
    | Raise e => (Raise e, st)
    | Ok pk =>
        match (if uc then _medias_cache st !! pk else None) with
        | Some c => deepcopy c st
        | None => (fallback_policy E pk ≫= store_and_copy pk) st
        end
    end.
Proof.
  unfold media_info. rewrite run_bind. unfold lift at 1.
  destruct (media_pk id) as [pk|e]; [|done].
  rewrite run_bind. unfold gets at 1.
  fold (fallback_policy E pk).
  assert (Hfetch :
    ((media ← fallback_policy E pk; modify (set_cache <[pk:=media]>));;
     entry ← gets (λ st0, _medias_cache st0 !! pk);
     match entry with
     | Some media => deepcopy media
     | None => raise (KeyError_int pk)
     end) st = (fallback_policy E pk ≫= store_and_copy pk) st).
  { rewrite !run_bind. destruct (fallback_policy E pk st) as [[media|e] st1]; [|done].
    unfold store_and_copy. rewrite !run_bind. simpl.
    rewrite run_bind. unfold gets at 1. cbn [_medias_cache set_cache].
    by rewrite lookup_insert_eq. }
  destruct uc; simpl.
  - destruct (_medias_cache st !! pk) as [c|] eqn:Hc; simpl.
    + rewrite run_bind. simpl. rewrite run_bind. unfold gets at 1. by rewrite Hc.
    + exact Hfetch.
  - exact Hfetch.
Qed.

(** On a miss the fetch and the store are all there is. *)
Lemma media_info_miss id uc pk st :
  media_pk id = Ok pk →
  uc = false ∨ _medias_cache st !! pk = None →
  media_info E id uc st = (fallback_policy E pk ≫= store_and_copy pk) st.
Proof.
  intros Hpk Hmiss. rewrite media_info_unfold, Hpk.
  destruct Hmiss as [->| ->]; [done | by destruct uc].
Qed.

(** The graph strategy fails, not for want of a login. *)
Lemma fallback_policy_other pk st e st1 :
  media_info_gql E (IdInt pk) st = (Raise e, st1) →
  isinstance e "ClientLoginRequired" = false →
  fallback_policy E pk st = fall_back E pk e st1.
Proof.
  intros Hg He. unfold fallback_policy, try_except. rewrite Hg.
  unfold except. rewrite He. done.
Qed.

(** The graph strategy wants a login and there is no session to inject. *)
Lemma fallback_policy_no_session pk st e st1 :
  media_info_gql E (IdInt pk) st = (Raise e, st1) →
  isinstance e "ClientLoginRequired" = true →
  inject_reply E (calls st1) = false →
  fallback_policy E pk st = fall_back E pk e (add_call InjectSessionidToPublic st1).
Proof.
  intros Hg He Hinj. unfold fallback_policy, try_except. rewrite Hg.
  unfold except. rewrite He. rewrite run_bind.
  unfold inject_sessionid_to_public. rewrite Hinj. done.
Qed.

(** The retry after a successful injection fails. *)
Lemma fallback_policy_retry_fails pk st e0 st0 e st1 :
  media_info_gql E (IdInt pk) st = (Raise e0, st0) →
  isinstance e0 "ClientLoginRequired" = true →
  inject_reply E (calls st0) = true →
  media_info_gql E (IdInt pk) (add_call InjectSessionidToPublic st0) = (Raise e, st1) →
  fallback_policy E pk st = fall_back E pk e st1.
Proof.
  intros Hg He Hinj Hretry. unfold fallback_policy, try_except. rewrite Hg.
  unfold except. rewrite He. rewrite run_bind.
  unfold inject_sessionid_to_public. rewrite Hinj. simpl. rewrite Hretry. done.
Qed.

(** [fall_back] logs exactly the errors that are not a [ClientError]. *)
Lemma fall_back_run pk e st :
  fall_back E pk e st =
    media_info_v1 E (IdInt pk)
      (if isinstance e "ClientError" then st else add_log e st).
Proof. unfold fall_back. rewrite run_bind. by destruct (isinstance e "ClientError"). Qed.

Lemma keeps_store_and_copy pk media : keeps extends (store_and_copy pk media).
Proof.
  unfold store_and_copy. apply keeps_bind; [typeclasses eauto| |intros _].
  - by intros st.
  - apply (keeps_weaken fetch_rel); [by intros ? ? [? _] | apply keeps_deepcopy].
Qed.

Lemma calls_kept {A} (m : M A) st c :
  keeps extends m → c ∈ calls st → c ∈ calls (m st).2.
Proof.
  intros Hm Hc. destruct (Hm st) as [_ _ [k ->] _]. set_solver.
Qed.

Lemma log_kept {A} (m : M A) st e :
  keeps extends m → e ∈ log st → e ∈ log (m st).2.
Proof.
  intros Hm Hc. destruct (Hm st) as [_ _ _ [k ->]]. set_solver.
Qed.

(** [media_info_v1] after its request: the error mapping, then the
    extraction. *)
Lemma media_info_v1_run pk st :
  media_info_v1 E (IdInt pk) st =
    let '(r, lj) := private_reply E (calls st) (info_endpoint pk) None in
    let st1 := set_last_json lj (add_call (PrivateRequest (info_endpoint pk) None) st) in
    (result ←
       match r with
       | Ok d => mret d
       | Raise e =>
           except "ClientNotFoundError"
             (λ e, lj ← gets last_json; raise_MediaNotFound E (Some e) (IdInt pk) lj)
           (except "ClientError"
             (λ e, if is_substring "Media not found" (exn_msg e)
                   then lj ← gets last_json; raise_MediaNotFound E (Some e) (IdInt pk) lj
                   else raise e)
           raise) e
       end;
     v ← lift (x ← pop_items result; extract_media_v1 E x);
     new_media v) st1.
Proof.
  unfold media_info_v1. rewrite run_bind. unfold try_except at 1.
  unfold private_request at 1. change (str (IdInt pk)) with (Py.str_int pk).
  fold (info_endpoint pk).
  by destruct (private_reply E (calls st) (info_endpoint pk) None) as [[d|e] lj].
Qed.

(** [media_info_v1] sends its request whatever follows. *)
Lemma media_info_v1_request pk st :
  PrivateRequest (info_endpoint pk) None ∈ calls (media_info_v1 E (IdInt pk) st).2.
Proof.
  rewrite media_info_v1_run.
  destruct (private_reply E (calls st) (info_endpoint pk) None) as [r lj].
  cbv zeta.
  match goal with |- _ ∈ calls (?k ?s).2 => apply (calls_kept k s) end.
  - apply (keeps_weaken fetch_rel); [by intros ? ? [? _]|].
    frame_tac.
  - simpl. set_solver.
Qed.

Lemma fall_back_then_store_request pk e st :
  PrivateRequest (info_endpoint pk) None
    ∈ calls ((fall_back E pk e ≫= store_and_copy pk) st).2.
Proof.
  rewrite run_bind, fall_back_run.
  pose proof (media_info_v1_request pk
    (if isinstance e "ClientError" then st else add_log e st)) as Hin.
  destruct (media_info_v1 _ _ _) as [[media|e'] st2]; [|exact Hin].
  by apply calls_kept; [apply keeps_store_and_copy|].
Qed.

Lemma fall_back_then_store_log pk e st :
  isinstance e "ClientError" = false →
  e ∈ log ((fall_back E pk e ≫= store_and_copy pk) st).2.
Proof.
  intros He. rewrite run_bind, fall_back_run, He.
  assert (Hin : e ∈ log (media_info_v1 E (IdInt pk) (add_log e st)).2).
  { apply log_kept; [|simpl; set_solver].
    apply (keeps_weaken fetch_rel); [by intros ? ? [? _] | apply keeps_media_info_v1]. }
  destruct (media_info_v1 _ _ _) as [[media|e'] st2]; [|exact Hin].
  by apply log_kept; [apply keeps_store_and_copy|].
Qed.

End MediaInfo.

(** ** The fallback policy of [media_info] *)

(** C1, as the code has it: when the graph strategy fails with a
    ClientLoginRequired error and no session can be injected, the graph
    strategy is not tried again and the error is raised again inside the
    outer [try], whose handler catches it: the private strategy
    media_info_v1 runs next, its request is sent, and what media_info
    returns or raises is what media_info_v1 returns or raises. *)
Theorem media_info_login_required_falls_back E id uc pk st e st1 :
  media_pk id = Ok pk →
  uc = false ∨ _medias_cache st !! pk = None →
  media_info_gql E (IdInt pk) st = (Raise e, st1) →
  isinstance e "ClientLoginRequired" = true →
  inject_reply E (calls st1) = false →
  let st2 := add_call InjectSessionidToPublic st1 in
  media_info E id uc st =
    (media_info_v1 E (IdInt pk) ≫= store_and_copy pk)
      (if isinstance e "ClientError" then st2 else add_log e st2) ∧
  PrivateRequest (info_endpoint pk) None ∈ calls (media_info E id uc st).2.
Proof.
  intros Hpk Hmiss Hg He Hinj st2.
  assert (Hrun : media_info E id uc st = (fall_back E pk e ≫= store_and_copy pk) st2).
  { rewrite (media_info_miss E id uc pk st Hpk Hmiss), run_bind.
    by rewrite (fallback_policy_no_session E pk st e st1 Hg He Hinj). }
  split.
  - rewrite Hrun, !run_bind. by rewrite fall_back_run.
  - rewrite Hrun. apply fall_back_then_store_request.
Qed.

Lemma media_info_login_required_falls_back_witness :
  let E := demo_env (Raise (ClientLoginRequired "login_required")) false (Ok private_items) in
  PrivateRequest (info_endpoint 1) None ∈ calls (media_info E (IdInt 1) true fresh_client).2.
Proof.
  intros E.
  refine (proj2 (media_info_login_required_falls_back E (IdInt 1) true 1 fresh_client
            (ClientLoginRequired "login_required")
            (media_info_gql E (IdInt 1) fresh_client).2 _ _ _ _ _)).
  - reflexivity.
  - right. reflexivity.
  - vm_compute. reflexivity.
  - vm_compute. reflexivity.
  - reflexivity.
Defined.

(** C1 as stated fails: the graph strategy raises ClientLoginRequired, no
    session can be injected, and yet media_info returns a result, after
    the request of media_info_v1. *)
Lemma media_info_login_required_counterexample :
  let E := demo_env (Raise (ClientLoginRequired "login_required")) false (Ok private_items) in
  let run := media_info E (IdInt 1) true fresh_client in
  (media_info_gql E (IdInt 1) fresh_client).1 = Raise (ClientLoginRequired "login_required") ∧
  isinstance (ClientLoginRequired "login_required") "ClientLoginRequired" = true ∧
  inject_reply E (calls (media_info_gql E (IdInt 1) fresh_client).2) = false ∧
  is_Ok run.1 = true ∧
  calls run.2 = [ PrivateRequest "media/1/info/" None;
                  InjectSessionidToPublic;
                  graph_request E 1 ].
Proof. vm_compute. repeat split. Qed.

(** C3: on a miss, when the graph strategy fails with an error other than
    ClientLoginRequired, or its retry after a successful injection fails,
    media_info_v1 runs next from a state in which the error has been logged
    unless it is a ClientError; its request is sent, and media_info returns
    or raises as media_info_v1 does. *)
Theorem media_info_other_error_falls_back E id uc pk st e st1 :
  media_pk id = Ok pk →
  uc = false ∨ _medias_cache st !! pk = None →
  (media_info_gql E (IdInt pk) st = (Raise e, st1) ∧
   isinstance e "ClientLoginRequired" = false) ∨
  (∃ e0 st0,
     media_info_gql E (IdInt pk) st = (Raise e0, st0) ∧
     isinstance e0 "ClientLoginRequired" = true ∧
     inject_reply E (calls st0) = true ∧
     media_info_gql E (IdInt pk) (add_call InjectSessionidToPublic st0) = (Raise e, st1)) →
  media_info E id uc st =
    (media_info_v1 E (IdInt pk) ≫= store_and_copy pk)
      (if isinstance e "ClientError" then st1 else add_log e st1) ∧
  PrivateRequest (info_endpoint pk) None ∈ calls (media_info E id uc st).2 ∧
  (isinstance e "ClientError" = false → e ∈ log (media_info E id uc st).2).
Proof.
  intros Hpk Hmiss Hfail.
  assert (Hrun : media_info E id uc st = (fall_back E pk e ≫= store_and_copy pk) st1).
  { rewrite (media_info_miss E id uc pk st Hpk Hmiss), run_bind.
    destruct Hfail as [[Hg He] | (e0 & st0 & Hg & He & Hinj & Hretry)].
    - by rewrite (fallback_policy_other E pk st e st1 Hg He).
    - by rewrite (fallback_policy_retry_fails E pk st e0 st0 e st1 Hg He Hinj Hretry). }
  split_and!.
  - rewrite Hrun, !run_bind. by rewrite fall_back_run.
  - rewrite Hrun. apply fall_back_then_store_request.
  - intros He. rewrite Hrun. by apply fall_back_then_store_log.
Qed.

Lemma media_info_other_error_falls_back_witness :
  let E := demo_env (Ok [("shortcode_media", JDict [("id", JStr "1")])]) false (Ok private_items) in
  let run := media_info E (IdInt 1) true fresh_client in
  PrivateRequest (info_endpoint 1) None ∈ calls run.2 ∧ KeyError "location" ∈ log run.2.
Proof.
  intros E run.
  destruct (media_info_other_error_falls_back E (IdInt 1) true 1 fresh_client
              (KeyError "location") (media_info_gql E (IdInt 1) fresh_client).2)
    as (_ & Hcall & Hlog).
  - reflexivity.
  - right. reflexivity.
  - left. split; vm_compute; reflexivity.
  - split; [exact Hcall | apply Hlog; reflexivity].
Defined.

(** ** The cache stays well-formed *)
Global Instance wf_rel_preorder : PreOrder wf_rel.
Proof.
  split.
  - intros st. by split.
  - intros s1 s2 s3 [? ?] [? ?]. split; [by etrans | auto].
Qed.

Lemma fetch_rel_wf_rel st st' : fetch_rel st st' → wf_rel st st'.
Proof.
  intros [Hext Hc]. split; [done|].
  intros Hwf k c Hk. rewrite Hc in Hk.
  destruct (Hwf k c Hk) as [v Hv]. exists v.
  eapply read_media_mono; [apply Hext | done].
Qed.

Lemma wf_insert st k media :
  wf st → readable media st → wf (set_cache (<[k:=media]>) st).
Proof.
  intros Hwf Hr k' c. simpl. rewrite lookup_insert.
  case_decide; [intros [= <-]; exact Hr | apply Hwf].
Qed.

Lemma wf_delete st k : wf st → wf (set_cache (delete k) st).
Proof.
  intros Hwf k' c. simpl. rewrite lookup_delete.
  case_decide; [done | apply Hwf].
Qed.

Lemma wf_fresh_client : wf fresh_client.
Proof. intros k c. simpl. by rewrite lookup_empty. Qed.

Section MediaInfoResult.

Context (E : Env).

Lemma store_and_copy_run k media st :
  store_and_copy k media st = deepcopy media (set_cache (<[k:=media]>) st).
Proof. reflexivity. Qed.

(** A successful [media_info]: the state [stm] in which the entry for
    the key is in place, then a copy of that entry. *)
Lemma media_info_Ok id uc st l st' :
  media_info E id uc st = (Ok l, st') →
  ∃ k c v stm,
    media_pk id = Ok k ∧
    _medias_cache stm !! k = Some c ∧
    read_media (heap stm) c = Some v ∧
    new_media v stm = (Ok l, st') ∧
    ((uc = true ∧ _medias_cache st !! k = Some c ∧ stm = st) ∨
     ((uc = false ∨ _medias_cache st !! k = None) ∧
      ∃ st1, fallback_policy E k st = (Ok c, st1) ∧
             stm = set_cache (<[k:=c]>) st1)).
Proof.
  rewrite media_info_unfold.
  destruct (media_pk id) as [k|e]; [|done].
  destruct (if uc then _medias_cache st !! k else None) as [c|] eqn:Hhit.
  - destruct uc; [|done].
    intros (v & Hv & Hnew)%deepcopy_Ok. exists k, c, v, st. eauto 10.
  - intros (c & st1 & Hpol & Hcopy)%bind_Ok.
    rewrite store_and_copy_run in Hcopy.
    apply deepcopy_Ok in Hcopy as (v & Hv & Hnew).
    exists k, c, v, (set_cache (<[k:=c]>) st1). split_and!; try done.
    + simpl. by rewrite lookup_insert_eq.
    + right. split; [destruct uc; auto | eauto].
Qed.

Lemma keeps_wf_media_info id uc : keeps wf_rel (media_info E id uc).
Proof.
  intros st. rewrite media_info_unfold.
  destruct (media_pk id) as [k|e]; [|reflexivity].
  destruct (if uc then _medias_cache st !! k else None) as [c|] eqn:Hhit.
  - apply fetch_rel_wf_rel, keeps_deepcopy.
  - rewrite run_bind.
    pose proof (keeps_fallback_policy E k st) as Hpol.
    pose proof (returns_fallback_policy E k st) as Hret.
    destruct (fallback_policy E k st) as [[c|e] st1]; simpl in *.
    + specialize (Hret c st1 eq_refl).
      etrans; [apply fetch_rel_wf_rel, Hpol|].
      rewrite store_and_copy_run.
      etrans; [|apply fetch_rel_wf_rel, keeps_deepcopy].
      split; [by split | intros Hwf; by apply wf_insert].
    + by apply fetch_rel_wf_rel.
Qed.

(** A hit: nothing is fetched. *)
Lemma media_info_hit id k c v st :
  media_pk id = Ok k → _medias_cache st !! k = Some c →
  read_media (heap st) c = Some v →
  media_info E id true st = new_media v st.
Proof.
  intros Hk Hc Hv. rewrite media_info_unfold, Hk. simpl. rewrite Hc.
  by apply deepcopy_read.
Qed.

(** When the graph strategy returns it has made one transport call. *)
Lemma media_info_gql_one_call id st l st' :
  media_info_gql E id st = (Ok l, st') →
  transport_count (calls st') = S (transport_count (calls st)).
Proof.
  unfold media_info_gql.
  intros (k & s1 & Hk & H)%bind_Ok. injection Hk as _ <-.
  apply bind_Ok in H as (data & s2 & Hreq & H).
  injection Hreq as _ <-.
  apply bind_Ok in H as ([] & s3 & Hnf & H).
  assert (s3 = add_call (graph_request E k) st) as ->.
  { destruct (negb _); [|by injection Hnf as <-].
    unfold raise_MediaNotFound in Hnf. by destruct (dict_has _ _). }
  apply bind_Ok in H as (location & s4 & Hloc & H). injection Hloc as _ <-.
  apply bind_Ok in H as (sm & s5 & Hsm & H).
  apply bind_Ok in H as (v & s6 & Hv & H). injection Hv as _ <-.
  apply new_media_spec in H as (_ & _ & _ & _ & _ & -> & _).
  destruct (truthy location).
  - apply bind_Ok in Hsm as (l0 & s7 & Hl0 & Hsm). injection Hl0 as _ <-.
    apply bind_Ok in Hsm as (l' & s8 & Hl' & Hsm).
    injection Hl' as _ <-. by injection Hsm as _ <-.
  - by injection Hsm as _ <-.
Qed.

End MediaInfoResult.

(** ** Every method keeps [wf_rel] *)
Section Methods.

Context (E : Env).

Lemma keeps_wf_fetch {A} (m : M A) : keeps fetch_rel m → keeps wf_rel m.
Proof. apply keeps_weaken. apply fetch_rel_wf_rel. Qed.

Lemma keeps_wf_cache_pop mid : keeps wf_rel (cache_pop mid).
Proof.
  unfold cache_pop. apply keeps_bind; [typeclasses eauto|apply keeps_lift; typeclasses eauto|].
  intros k st. split; [by split | apply wf_delete].
Qed.

Ltac wf_tac :=
  repeat first
    [ apply keeps_wf_media_info | apply keeps_wf_cache_pop
    | apply keeps_wf_fetch; frame_tac; fail
    | keeps_step; try typeclasses eauto ].

Lemma keeps_wf_media_user id : keeps wf_rel (media_user E id).
Proof. unfold media_user. wf_tac. Qed.

Lemma keeps_wf_media_id id : keeps wf_rel (media_id E id).
Proof. unfold media_id. wf_tac; apply keeps_wf_media_user. Qed.

Lemma keeps_wf_media_delete id : keeps wf_rel (media_delete E id).
Proof.
  unfold media_delete.
  repeat first [apply keeps_wf_media_id | apply keeps_wf_media_info | apply keeps_wf_cache_pop
               | apply keeps_wf_fetch; frame_tac; fail
               | keeps_step; try typeclasses eauto ].
Qed.

Lemma keeps_wf_media_edit id caption title usertags location :
  keeps wf_rel (media_edit E id caption title usertags location).
Proof.
  unfold media_edit.
  repeat first [apply keeps_wf_media_id | apply keeps_wf_media_info | apply keeps_wf_cache_pop
               | apply keeps_wf_fetch; frame_tac; fail
               | keeps_step; try typeclasses eauto ].
Qed.

Lemma keeps_wf_media_like id revert : keeps wf_rel (media_like E id revert).
Proof.
  unfold media_like.
  repeat first [apply keeps_wf_media_id | apply keeps_wf_media_info | apply keeps_wf_cache_pop
               | apply keeps_wf_fetch; frame_tac; fail
               | keeps_step; try typeclasses eauto ].
Qed.

End Methods.

(** ** Reading twice, and the copy that is returned *)

(** C4, as the code has it: when media_info(id, use_cache=True) has
    returned, a second such call returns too, makes no collaborator call at
    all and leaves the cache as it is, and what it returns reads as the
    cached entry does. Every transport call of the two was made by the
    first; that is one call when the first call missed the cache and the
    graph strategy answered at once. *)
Theorem media_info_second_call_from_cache E id st l1 st1 :
  media_info E id true st = (Ok l1, st1) →
  ∃ k c v l2 st2,
    media_pk id = Ok k ∧
    _medias_cache st1 !! k = Some c ∧
    read_media (heap st1) c = Some v ∧
    media_info E id true st1 = (Ok l2, st2) ∧
    calls st2 = calls st1 ∧
    _medias_cache st2 = _medias_cache st1 ∧
    read_media (heap st2) l2 = Some v ∧
    (∀ media st',
       _medias_cache st !! k = None →
       media_info_gql E (IdInt k) st = (Ok media, st') →
       transport_count (calls st2) = S (transport_count (calls st))).
Proof.
  intros (k & c & v & stm & Hk & Hc & Hv & Hnew & Hcase)%media_info_Ok.
  pose proof (keeps_new_media v stm) as [[_ Hheap _ _] _]. rewrite Hnew in Hheap.
    simpl in Hheap.
  pose proof Hnew as (_ & _ & _ & _ & Hcache & Hcalls & _)%new_media_spec.
  assert (Hc1 : _medias_cache st1 !! k = Some c) by (by rewrite Hcache).
  assert (Hv1 : read_media (heap st1) c = Some v) by (by eapply read_media_mono).
  destruct (new_media v st1) as [r2 st2] eqn:Hnew2.
  pose proof Hnew2 as Hrun2. rewrite new_media_run in Hrun2. cbv zeta in Hrun2.
  injection Hrun2 as Hr2 _. subst r2.
  pose proof Hnew2 as (Hread2 & _ & _ & _ & Hcache2 & Hcalls2 & _)%new_media_spec.
  eexists k, c, v, _, st2. split_and!; try done.
  - by rewrite (media_info_hit E id k c v st1).
  - intros media st' Hmiss Hgql.
    destruct Hcase as [(_ & Hhit & _) | (_ & st1' & Hpol & ->)]; [congruence|].
    unfold fallback_policy, try_except in Hpol. rewrite Hgql in Hpol.
    injection Hpol as _ <-.
    rewrite Hcalls2, Hcalls. simpl.
    by apply (media_info_gql_one_call E (IdInt k) st media).
Qed.

Lemma media_info_second_call_from_cache_witness :
  let E := demo_env (Ok (graph_media "feed")) false (Ok private_items) in
  let st1 := (media_info E (IdStr "17") true fresh_client).2 in
  ∃ l2 st2, media_info E (IdStr "17") true st1 = (Ok l2, st2) ∧ calls st2 = calls st1.
Proof.
  intros E st1.
  destruct (media_info_second_call_from_cache E (IdStr "17") fresh_client 4%positive st1)
    as (k & c & v & l2 & st2 & _ & _ & _ & Hrun & Hcalls & _).
  - vm_compute. reflexivity.
  - by exists l2, st2.
Defined.

(** C4 as stated fails: the first call falls back from the graph strategy
    to media_info_v1, the second is served from the cache, and the two
    together have made two transport calls, not one. *)
Lemma media_info_twice_counterexample :
  let E := demo_env (Ok []) false (Ok private_items) in
  let first := media_info E (IdInt 1) true fresh_client in
  let second := media_info E (IdInt 1) true first.2 in
  is_Ok first.1 = true ∧ is_Ok second.1 = true ∧
  calls second.2 = [PrivateRequest "media/1/info/" None; graph_request E 1] ∧
  transport_count (calls second.2) ≠ 1%nat.
Proof. vm_compute. repeat split. discriminate. Qed.

Lemma media_info_wf_before_copy E (uc : bool) st k c stm :
  wf st →
  (uc = true ∧ _medias_cache st !! k = Some c ∧ stm = st) ∨
  ((uc = false ∨ _medias_cache st !! k = None) ∧
   ∃ st1, fallback_policy E k st = (Ok c, st1) ∧ stm = set_cache (<[k:=c]>) st1) →
  wf stm.
Proof.
  intros Hwf [(_ & _ & ->) | (_ & st1 & Hpol & ->)]; [done|].
  apply wf_insert.
  - pose proof (keeps_fallback_policy E k st) as Hrel. rewrite Hpol in Hrel.
    by apply (fetch_rel_wf_rel _ _ Hrel).
  - by apply (returns_fallback_policy E k st c st1).
Qed.

(** C5: what a successful media_info returns is a new object that reads as
    the cached entry does and is not the cached object; whatever is then
    written to it or to its author object, every cached entry reads as
    before. Nor does any method of the mixin write to an object that
    exists: a call only adds objects, so an entry changes by being replaced
    in the cache or evicted from it. *)
Theorem media_info_returns_copy E :
  (∀ (id : PyId) (uc : bool) (st : Client) (l : loc) (st' : Client),
     wf st →
     media_info E id uc st = (Ok l, st') →
     ∃ k c v m,
       media_pk id = Ok k ∧
       _medias_cache st' !! k = Some c ∧
       read_media (heap st') c = Some v ∧
       read_media (heap st') l = Some v ∧
       heap st' !! l = Some (OMedia m) ∧
       l ≠ c ∧
       (∀ h' : gmap loc Obj,
          (∀ a, a ≠ l → a ≠ user m → h' !! a = heap st' !! a) →
          ∀ k' c', _medias_cache st' !! k' = Some c' →
                   read_media h' c' = read_media (heap st') c')) ∧
  (∀ (id : PyId) (uc : bool) (st : Client), heap st ⊆ heap (media_info E id uc st).2) ∧
  (∀ (id : PyId) (st : Client), heap st ⊆ heap (media_delete E id st).2) ∧
  (∀ (id : PyId) caption title usertags location (st : Client),
     heap st ⊆ heap (media_edit E id caption title usertags location st).2) ∧
  (∀ (id : PyId) revert (st : Client), heap st ⊆ heap (media_like E id revert st).2).
Proof.
  split_and!.
  - intros id uc st l st' Hwf
      (k & c & v & stm & Hk & Hc & Hv & Hnew & Hcase)%media_info_Ok.
    assert (Hwfm : wf stm) by (by eapply media_info_wf_before_copy).
    pose proof (keeps_new_media v stm) as [[_ Hheap _ _] _]. rewrite Hnew in Hheap.
    simpl in Hheap.
    pose proof Hnew as
      (Hread & Hfresh & (m & Hm & Hmu & _) & Hframe & Hcache & _)%new_media_spec.
    exists k, c, v, m. split_and!; try done.
    + by rewrite Hcache.
    + by eapply read_media_mono.
    + intros ->. apply read_media_dom in Hv as (? & Hv & _). congruence.
    + intros h' Hh' k' c' Hc'. rewrite Hcache in Hc'.
      destruct (Hwfm k' c' Hc') as [v' Hv'].
      rewrite (read_media_mono _ _ _ _ Hheap Hv').
      apply (read_media_agree (heap stm)); [done|].
      intros a [o Ha].
      assert (a ≠ l) by congruence.
      assert (a ≠ user m) by congruence.
      rewrite Hh' by done. apply Hframe; [done|].
      intros m0 Hm0. congruence.
  - intros id uc st. apply (keeps_wf_media_info E id uc st).
  - intros id st. apply (keeps_wf_media_delete E id st).
  - intros id caption title usertags location st.
    apply (keeps_wf_media_edit E id caption title usertags location st).
  - intros id revert st. apply (keeps_wf_media_like E id revert st).
Qed.

Lemma media_info_returns_copy_witness :
  let E := demo_env (Ok (graph_media "feed")) false (Ok private_items) in
  let st' := (media_info E (IdStr "17") true fresh_client).2 in
  ∃ c v, _medias_cache st' !! 17 = Some c ∧ 4%positive ≠ c ∧
         read_media (heap st') c = Some v ∧ read_media (heap st') 4%positive = Some v.
Proof.
  intros E st'.
  destruct (proj1 (media_info_returns_copy E) (IdStr "17") true fresh_client 4%positive st')
    as (k & c & v & m & Hk & Hc & Hv & Hl & _ & Hne & _).
  - exact wf_fresh_client.
  - vm_compute. reflexivity.
  - injection Hk as <-. by exists c, v.
Defined.

(** ** [media_id] *)
Section MediaId.

Context (E : Env).

(** [get_media] and [get_user] read, and change nothing. *)
Lemma get_media_Ok l st m st' :
  get_media l st = (Ok m, st') → heap st !! l = Some (OMedia m) ∧ st' = st.
Proof.
  unfold get_media. destruct (heap st !! l) as [[m0|u]|]; try done.
  by intros [= -> ->].
Qed.

Lemma get_user_Ok l st u st' :
  get_user l st = (Ok u, st') → heap st !! l = Some (OUser u) ∧ st' = st.
Proof.
  unfold get_user. destruct (heap st !! l) as [[m0|u0]|]; try done.
  by intros [= -> ->].
Qed.

(** A successful [media_id]: the identifier itself, or the digits, the
    separator and the owner found by [media_info]. *)
Lemma media_id_Ok x st s st' :
  media_id E x st = (Ok s, st') →
  (Py.contains "_" (str x) = true ∧ s = str x ∧ st' = st) ∨
  (Py.contains "_" (str x) = false ∧ Py.isdigit (str x) = true ∧
   ∃ l m u,
     media_info E (IdStr (str x)) true st = (Ok l, st') ∧
     heap st' !! l = Some (OMedia m) ∧
     heap st' !! user m = Some (OUser u) ∧
     s = str x +:+ "_" +:+ Py.str_int (pk u)).
Proof.
  unfold media_id. destruct (Py.contains "_" (str x)) eqn:Hsep; simpl.
  - intros [= <- <-]. by left.
  - intros ([] & s1 & Hassert & H)%bind_Ok. right.
    unfold assert in Hassert.
    destruct (Py.isdigit (str x)) eqn:Hdig; [|done]. injection Hassert as <-.
    apply bind_Ok in H as (lu & s2 & Huser & H).
    apply bind_Ok in H as (u & s3 & Hu & H). injection H as <- <-.
    apply get_user_Ok in Hu as [Hu ->].
    unfold media_user in Huser.
    apply bind_Ok in Huser as (l & s4 & Hinfo & H).
    apply bind_Ok in H as (m & s5 & Hm & H). injection H as <- <-.
    apply get_media_Ok in Hm as [Hm ->].
    split_and!; try done. by exists l, m, u.
Qed.

(** The key of a composite identifier made by [media_id] is the key of
    the identifier it was made from. *)
Lemma media_pk_joined x t :
  Py.contains "_" (str x) = false → Py.contains "_" t = false →
  media_pk (IdStr (str x +:+ "_" +:+ t)) = media_pk x.
Proof.
  intros Hx Ht.
  assert (media_pk x = Py.int (str x)) as ->.
  { unfold media_pk. cbv zeta. by rewrite Hx. }
  unfold media_pk. cbv zeta. cbn [str].
  change (str x +:+ "_" +:+ t) with (str x +:+ String "_" t).
  rewrite contains_app.
  replace (Py.contains "_" (String "_" t)) with true by reflexivity.
  rewrite orb_true_r. by rewrite split_join.
Qed.

End MediaId.

(** The key survives [media_id]. *)
Lemma media_id_keeps_key E x st s st' k :
  media_id E x st = (Ok s, st') →
  media_pk x = Ok k →
  media_pk (IdStr s) = Ok k.
Proof.
  intros [(Hsep & -> & _) | (Hsep & _ & l & m & u & _ & _ & _ & ->)]%media_id_Ok Hk.
  - destruct x as [z|s0]; [|done].
    simpl in Hsep. by rewrite str_int_no_separator in Hsep.
  - rewrite media_pk_joined; [done | done | apply str_int_no_separator].
Qed.

(** C6: for every identifier that media_id accepts, that is, whenever
    media_id returns, the key of the composite identifier it returns is
    the key of the identifier it was given (and fails as it does when the
    identifier, having a separator, has no key). *)
Theorem media_pk_media_id E x st s st' :
  media_id E x st = (Ok s, st') →
  media_pk (IdStr s) = media_pk x.
Proof.
  intros Hrun. apply media_id_Ok in Hrun.
  destruct Hrun as [(Hsep & -> & _) | (Hsep & _ & l & m & u & _ & _ & _ & ->)].
  - destruct x as [z|s0]; [|reflexivity].
    simpl in Hsep. rewrite str_int_no_separator in Hsep. discriminate.
  - apply media_pk_joined; [exact Hsep | apply str_int_no_separator].
Qed.

Lemma media_pk_media_id_witness :
  let E := demo_env (Ok (graph_media "feed")) false (Ok private_items) in
  media_pk (IdStr "2277033926878261772_7") = media_pk (IdStr "2277033926878261772").
Proof.
  intros E.
  apply (media_pk_media_id E (IdStr "2277033926878261772") fresh_client
           "2277033926878261772_7"
           (media_id E (IdStr "2277033926878261772") fresh_client).2).
  vm_compute. reflexivity.
Defined.

(** ** Mutating calls without a session *)

(** C8: while the client has no user id, media_delete, media_edit,
    media_like and media_unlike raise the "Login required" assertion error
    at once and leave the client as it was: no call is made and the cache
    is untouched. *)
Theorem mutating_requires_login E st :
  logged_in st = false →
  (∀ id, media_delete E id st = (Raise (AssertionError "Login required"), st)) ∧
  (∀ id caption title usertags location,
     media_edit E id caption title usertags location st
     = (Raise (AssertionError "Login required"), st)) ∧
  (∀ id revert, media_like E id revert st = (Raise (AssertionError "Login required"), st)) ∧
  (∀ id, media_unlike E id st = (Raise (AssertionError "Login required"), st)).
Proof.
  intros Hli. split_and!; intros;
    unfold media_unlike, media_delete, media_edit, media_like;
    rewrite run_bind; unfold gets at 1; rewrite Hli; reflexivity.
Qed.

Lemma mutating_requires_login_witness :
  let E := demo_env (Ok (graph_media "feed")) false (Ok private_items) in
  media_delete E (IdStr "17_7") anonymous_client
  = (Raise (AssertionError "Login required"), anonymous_client).
Proof.
  intros E. apply (mutating_requires_login E anonymous_client). reflexivity.
Defined.

(** ** The title of a long-form video *)
Section Title.

Lemma before_after c s r : Py.after c s = Some r → s = Py.before c s +:+ String c r.
Proof.
  induction s as [|a s IH]; simpl; [done|].
  destruct (Ascii.eqb_spec a c) as [->|Hne].
  - by intros [= ->].
  - intros H.
    change (String a (Py.before c s) +:+ String c r)
      with (String a (Py.before c s +:+ String c r)).
    f_equal. by apply IH.
Qed.

Lemma before_no_separator c s : Py.contains c (Py.before c s) = false.
Proof.
  induction s as [|a s IH]; simpl; [done|].
  destruct (Ascii.eqb a c) eqn:Hac; simpl; [done|]. by rewrite Hac.
Qed.

Lemma after_none c s : Py.after c s = None → Py.contains c s = false.
Proof.
  induction s as [|a s IH]; simpl; [done|].
  destruct (Ascii.eqb a c); [done | exact IH].
Qed.

Lemma contains_after c s : Py.contains c s = true → is_Some (Py.after c s).
Proof.
  destruct (Py.after c s) eqn:Hafter; [done|].
  by rewrite (after_none _ _ Hafter).
Qed.

Lemma after_without c s : Py.contains c s = false → Py.after c s = None.
Proof.
  induction s as [|a s IH]; simpl; [done|].
  destruct (Ascii.eqb a c); [done | exact IH].
Qed.

(** Splitting what was joined with a separator. *)
Lemma after_joined c t r : Py.contains c t = false → Py.after c (t +:+ String c r) = Some r.
Proof.
  induction t as [|a t IH]; simpl.
  - by rewrite Ascii.eqb_refl.
  - destruct (Ascii.eqb a c); [done | exact IH].
Qed.

Lemma before_joined c t r : Py.contains c t = false → Py.before c (t +:+ String c r) = t.
Proof.
  induction t as [|a t IH]; simpl.
  - by rewrite Ascii.eqb_refl.
  - destruct (Ascii.eqb a c); [done|]. intros H. by rewrite IH.
Qed.

Lemma slice_to_length n s : (String.length (Py.slice_to n s) ≤ n)%nat.
Proof.
  revert s. induction n as [|n IH]; intros [|a s]; simpl; try lia.
  specialize (IH s). lia.
Qed.

Lemma slice_to_length_min n s :
  String.length (Py.slice_to n s) = Nat.min n (String.length s).
Proof.
  revert s. induction n as [|n IH]; intros [|a s]; simpl; try done.
  by rewrite IH.
Qed.

Lemma slice_to_prefix n s : ∃ rest, s = Py.slice_to n s +:+ rest.
Proof.
  revert s. induction n as [|n IH]; intros s.
  - exists s. by destruct s.
  - destruct s as [|a s]; [by exists ""|].
    destruct (IH s) as [rest Hrest]. exists rest.
    change (Py.slice_to (S n) (String a s) +:+ rest)
      with (String a (Py.slice_to n s +:+ rest)).
    by f_equal.
Qed.

Lemma slice_to_is_prefix n s : String.prefix (Py.slice_to n s) s = true.
Proof.
  revert s. induction n as [|n IH]; intros [|a s]; simpl; try done.
  rewrite IH. by destruct (ascii_dec a a).
Qed.

(** The prefix of [s] that has [min n (length s)] characters is [s[:n]]. *)
Lemma prefix_of_length_slice n t s :
  String.prefix t s = true →
  String.length t = Nat.min n (String.length s) →
  Py.slice_to n s = t.
Proof.
  revert t s. induction n as [|n IH]; intros t s Hpre Hlen.
  - destruct t; [by destruct s | done].
  - destruct t as [|a t], s as [|b s]; simpl in *; try done.
    destruct (ascii_dec a b) as [->|]; [|done].
    f_equal. apply IH; [done | lia].
Qed.

Lemma slice_to_no_separator c n s :
  Py.contains c s = false → Py.contains c (Py.slice_to n s) = false.
Proof.
  revert s. induction n as [|n IH]; intros [|a s]; simpl; try done.
  intros [Ha Hs]%orb_false_iff. rewrite Ha. by apply IH.
Qed.

(** The title and the caption that the claim describes are those that
    lines 313-317 compute, and no others. *)
Lemma is_title_split_spec caption t c :
  is_title_split caption t c = true ↔ igtv_title_caption "" caption = (t, c).
Proof.
  unfold is_title_split, igtv_title_caption.
  change (String.eqb "" "") with true. cbv iota.
  destruct (Py.contains LF caption) eqn:Hsep.
  - destruct (contains_after _ _ Hsep) as [r Hr]. rewrite Hr. split.
    + intros [Ht Heq]%andb_true_iff. apply negb_true_iff in Ht.
      apply String.eqb_eq in Heq. subst caption.
      rewrite after_joined in Hr by done. injection Hr as <-.
      by rewrite before_joined.
    + intros [= <- <-]. rewrite before_no_separator. simpl.
      apply String.eqb_eq. by apply before_after.
  - rewrite (after_without _ _ Hsep). split.
    + intros [[Hc Hpre]%andb_true_iff Hlen%Nat.eqb_eq]%andb_true_iff.
      apply String.eqb_eq in Hc. subst c.
      by rewrite (prefix_of_length_slice 75 t caption).
    + intros [<- <-]%pair_equal_spec.
      rewrite String.eqb_refl, slice_to_is_prefix. cbn [andb].
      apply Nat.eqb_eq, slice_to_length_min.
Qed.

End Title.

(** ** [media_edit] *)
Section MediaEdit.

Context (E : Env).

Lemma split1_cases caption :
  Py.split1 LF caption =
    match Py.after LF caption with
    | Some rest => [Py.before LF caption; rest]
    | None => [caption]
    end.
Proof. reflexivity. Qed.

(** The [try] around the split of the caption computes
    [igtv_title_caption]. *)
Lemma igtv_split title caption :
  (if String.eqb title "" then
     result_try (Py.unpack2 (Py.split1 LF caption)) "ValueError"
       (Ok (Py.slice_to 75 caption, caption))
   else Ok (title, caption))
  = Ok (igtv_title_caption title caption).
Proof.
  unfold igtv_title_caption. destruct (String.eqb title ""); [|done].
  rewrite split1_cases. by destruct (Py.after LF caption).
Qed.

(** What a successful [media_info] returns is a [Media] object with an
    author. *)
Lemma media_info_Ok_object id uc st l st' :
  media_info E id uc st = (Ok l, st') →
  ∃ k v m,
    media_pk id = Ok k ∧ is_Some (_medias_cache st' !! k) ∧
    read_media (heap st') l = Some v ∧
    heap st' !! l = Some (OMedia m) ∧ heap st' !! user m = Some (OUser (user v)) ∧
    product_type m = product_type v.
Proof.
  intros (k & c & v & stm & Hk & Hc & Hv & Hnew & _)%media_info_Ok.
  pose proof Hnew as (Hread & _ & _ & _ & Hcache & _)%new_media_spec.
  pose proof Hread as (m & Hm & Hu)%read_media_dom.
  exists k, v, m. split_and!; try done.
  - rewrite Hcache, Hc. eauto.
  - unfold read_media in Hread. rewrite Hm, Hu in Hread. by injection Hread as <-.
Qed.

(** When the identifier cannot be composed or the metadata cannot be
    read, [media_edit] ends as [edit_prelude] does. *)
Lemma media_edit_prelude_raises id caption title usertags location st e st' :
  edit_prelude E id st = (Raise e, st') →
  media_edit E id caption title usertags location st = (Raise e, st').
Proof.
  unfold edit_prelude, media_edit. rewrite !run_bind.
  destruct (gets logged_in st) as [[li|e0] s0]; [|by intros [= -> ->]].
  rewrite !run_bind.
  destruct (assert li "Login required" s0) as [[[]|e0] s1]; [|by intros [= -> ->]].
  rewrite !run_bind. destruct (media_id E id s1) as [[mid|e0] s2]; [|by intros [= -> ->]].
  rewrite !run_bind.
  destruct (media_info E (IdStr mid) true s2) as [[l|e0] s3]; [done | by intros [= -> ->]].
Qed.

(** Once the identifier is composed and the metadata read, [media_edit]
    calls [location_build]; when that returns, what is left is the
    eviction and the request. *)
Lemma media_edit_run id caption title usertags location st mid st1 l st2 :
  logged_in st = true →
  media_id E id st = (Ok mid, st1) →
  media_info E (IdStr mid) true st1 = (Ok l, st2) →
  ∃ k v,
    media_pk (IdStr mid) = Ok k ∧ read_media (heap st2) l = Some v ∧
    is_Some (_medias_cache st2 !! k) ∧
    media_edit E id caption title usertags location st =
      match location_build_reply E (calls st2) location with
      | Ok built =>
          private_request E (edit_endpoint mid)
            (Some (with_default_data E
                     (if String.eqb (product_type v) "igtv"
                      then igtv_data title caption
                      else standard_edit_data E caption usertags built)))
            (set_cache (delete k) (add_call (LocationBuild location) st2))
      | Raise e => (Raise e, add_call (LocationBuild location) st2)
      end.
Proof.
  intros Hli Hmid Hinfo.
  pose proof Hinfo as (k & v & m & Hk & Hc & Hv & Hm & _ & Hpt)%media_info_Ok_object.
  exists k, v. split_and!; try done.
  unfold media_edit. rewrite run_bind. unfold gets at 1. rewrite Hli.
  rewrite run_bind. cbn [assert mret M_ret]. rewrite run_bind, Hmid.
  rewrite run_bind, Hinfo. rewrite run_bind. unfold location_build at 1.
  destruct (location_build_reply E (calls st2) location) as [built|e]; [|done].
  rewrite run_bind. unfold get_media at 1. cbn [heap add_call]. rewrite Hm.
  rewrite Hpt. rewrite run_bind.
  destruct (String.eqb (product_type v) "igtv").
  - rewrite run_bind. rewrite igtv_split. unfold lift at 1.
    unfold igtv_data. destruct (igtv_title_caption title caption) as [t c].
    cbn [mret M_ret]. rewrite run_bind. unfold cache_pop at 1.
    rewrite run_bind. unfold lift at 1. by rewrite Hk.
  - cbn [mret M_ret]. rewrite run_bind. unfold cache_pop at 1.
    rewrite run_bind. unfold lift at 1. by rewrite Hk.
Qed.

Lemma private_request_calls ep d st :
  calls (private_request E ep d st).2 = PrivateRequest ep d :: calls st ∧
  _medias_cache (private_request E ep d st).2 = _medias_cache st.
Proof.
  unfold private_request. by destruct (private_reply E (calls st) ep d).
Qed.

End MediaEdit.

(** C9: media_edit on long-form video with an empty title, once the
    identifier is composed, the metadata read and the location built. The
    caption always has a title and a caption as the claim describes them
    (with a line break: the first line, and the remainder after the first
    line break; without one: the first 75 characters of the caption, all
    of it when it is shorter, and the caption itself), and whichever title
    and caption fit that description are the ones the request carries,
    which is sent after the call of location_build. *)
Theorem media_edit_igtv_title_from_caption
    E id caption usertags location st mid st1 l st2 v built :
  logged_in st = true →
  media_id E id st = (Ok mid, st1) →
  media_info E (IdStr mid) true st1 = (Ok l, st2) →
  read_media (heap st2) l = Some v →
  product_type v = "igtv" →
  location_build_reply E (calls st2) location = Ok built →
  (∃ t c, is_title_split caption t c = true) ∧
  (∀ t c,
     is_title_split caption t c = true →
     calls (media_edit E id caption "" usertags location st).2 =
       PrivateRequest (edit_endpoint mid)
         (Some (with_default_data E
            [ ("caption_text", JStr c);
              ("title", JStr t);
              ("igtv_ads_toggled_on", JStr "0") ]))
       :: LocationBuild location :: calls st2).
Proof.
  intros Hli Hmid Hinfo Hv Hpt Hbuilt. split.
  - exists (igtv_title_caption "" caption).1, (igtv_title_caption "" caption).2.
    apply is_title_split_spec. by destruct (igtv_title_caption "" caption).
  - intros t c Hsplit%is_title_split_spec.
    destruct (media_edit_run E id caption "" usertags location st mid st1 l st2 Hli Hmid Hinfo)
      as (k & v' & _ & Hv' & _ & ->).
    assert (v' = v) as -> by congruence.
    rewrite Hbuilt, Hpt. cbn [String.eqb Ascii.eqb Bool.eqb andb].
    rewrite (proj1 (private_request_calls _ _ _ _)). cbn [calls set_cache add_call].
    unfold igtv_data. by rewrite Hsplit.
Qed.

Lemma media_edit_igtv_title_from_caption_witness :
  let E := demo_env (Ok (graph_media "igtv")) false (Ok private_items) in
  let two_lines := "Title Line" +:+ String LF "Body text" in
  let long_line :=
    "0123456789012345678901234567890123456789012345678901234567890123456789012345678901234567890123456789" in
  hd_error (calls (media_edit E (IdStr "17_7") two_lines "" [] None fresh_client).2) =
    Some (PrivateRequest "media/17_7/edit_media/"
            (Some [ ("caption_text", JStr "Body text");
                    ("title", JStr "Title Line");
                    ("igtv_ads_toggled_on", JStr "0") ])) ∧
  hd_error (calls (media_edit E (IdStr "17_7") long_line "" [] None fresh_client).2) =
    Some (PrivateRequest "media/17_7/edit_media/"
            (Some [ ("caption_text", JStr long_line);
                    ("title",
                     JStr "012345678901234567890123456789012345678901234567890123456789012345678901234");
                    ("igtv_ads_toggled_on", JStr "0") ])).
Proof.
  intros E two_lines long_line. split.
  - rewrite (proj2 (media_edit_igtv_title_from_caption E (IdStr "17_7") two_lines [] None
               fresh_client "17_7" fresh_client 4%positive
               (media_info E (IdStr "17_7") true fresh_client).2
               (mkMedia "igtv" "a caption" (mkUser 7 "owner") []) "{}"
               eq_refl eq_refl eq_refl eq_refl eq_refl eq_refl)
             "Title Line" "Body text" eq_refl).
    reflexivity.
  - rewrite (proj2 (media_edit_igtv_title_from_caption E (IdStr "17_7") long_line [] None
               fresh_client "17_7" fresh_client 4%positive
               (media_info E (IdStr "17_7") true fresh_client).2
               (mkMedia "igtv" "a caption" (mkUser 7 "owner") []) "{}"
               eq_refl eq_refl eq_refl eq_refl eq_refl eq_refl)
             "012345678901234567890123456789012345678901234567890123456789012345678901234"
             long_line eq_refl).
    reflexivity.
Defined.

(** C10, as the code has it: media_edit on long-form video, once the
    identifier is composed and the metadata read. The user tags have no
    effect on the run. The location is still handed to location_build
    (line 308): when that raises, media_edit raises the same error and no
    request is sent; when it returns, the request is sent after it, and the
    dict handed to with_default_data for the request is made of the title
    and the caption alone, with the keys caption_text, title and
    igtv_ads_toggled_on and no other. *)
Theorem media_edit_igtv_ignores_tags_and_location
    E id caption title usertags location st mid st1 l st2 v :
  logged_in st = true →
  media_id E id st = (Ok mid, st1) →
  media_info E (IdStr mid) true st1 = (Ok l, st2) →
  read_media (heap st2) l = Some v →
  product_type v = "igtv" →
  (∀ usertags',
     media_edit E id caption title usertags' location st =
     media_edit E id caption title usertags location st) ∧
  (∀ e,
     location_build_reply E (calls st2) location = Raise e →
     (media_edit E id caption title usertags location st).1 = Raise e ∧
     calls (media_edit E id caption title usertags location st).2 =
       LocationBuild location :: calls st2) ∧
  (∀ built,
     location_build_reply E (calls st2) location = Ok built →
     calls (media_edit E id caption title usertags location st).2 =
       PrivateRequest (edit_endpoint mid)
         (Some (with_default_data E (igtv_data title caption)))
       :: LocationBuild location :: calls st2) ∧
  dict_keys (igtv_data title caption) = ["caption_text"; "title"; "igtv_ads_toggled_on"].
Proof.
  intros Hli Hmid Hinfo Hv Hpt.
  set (st3 := add_call (LocationBuild location) st2).
  assert (Hrun : ∀ ut,
    media_edit E id caption title ut location st =
      match location_build_reply E (calls st2) location with
      | Ok built =>
          private_request E (edit_endpoint mid)
            (Some (with_default_data E (igtv_data title caption)))
            (set_cache (delete (default 0 (match media_pk (IdStr mid) with
                                           | Ok k => Some k | _ => None end))) st3)
      | Raise e => (Raise e, st3)
      end).
  { intros ut.
    destruct (media_edit_run E id caption title ut location st mid st1 l st2 Hli Hmid Hinfo)
      as (k & v' & Hk & Hv' & _ & ->).
    assert (v' = v) as -> by congruence.
    rewrite Hpt, Hk. done. }
  split_and!.
  - intros ut'. by rewrite !Hrun.
  - intros e He. by rewrite Hrun, He.
  - intros built Hbuilt. rewrite Hrun, Hbuilt.
    by rewrite (proj1 (private_request_calls _ _ _ _)).
  - unfold igtv_data. by destruct (igtv_title_caption title caption).
Qed.

Lemma media_edit_igtv_ignores_tags_and_location_witness :
  let E := demo_env (Ok (graph_media "igtv")) false (Ok private_items) in
  media_edit E (IdStr "17_7") "a caption" "a title"
    [mkUsertag (mkUser 9 "friend") 1 2] (Some [("name", JStr "somewhere")]) fresh_client
  = media_edit E (IdStr "17_7") "a caption" "a title" []
      (Some [("name", JStr "somewhere")]) fresh_client.
Proof.
  intros E.
  apply (media_edit_igtv_ignores_tags_and_location E (IdStr "17_7") "a caption" "a title"
           [] (Some [("name", JStr "somewhere")]) fresh_client "17_7" fresh_client 4%positive
           (media_info E (IdStr "17_7") true fresh_client).2
           (mkMedia "igtv" "a caption" (mkUser 7 "owner") [])).
  - reflexivity.
  - reflexivity.
  - vm_compute. reflexivity.
  - vm_compute. reflexivity.
  - reflexivity.
Defined.

(** C10 as stated fails on both counts, on long-form video. What
    with_default_data adds to the dict it is given is submitted with it:
    here the payload has a fourth key. And the location has an effect:
    with a location for which location_build raises, media_edit raises
    after the call of location_build and submits nothing, where without
    a location it submits the request. *)
Lemma media_edit_igtv_payload_counterexample :
  let E := failing_location_build (ClientError "location_search failed")
             (adding_uuid (demo_env (Ok (graph_media "igtv")) false (Ok private_items))) in
  let place := Some [("name", JStr "somewhere"); ("lat", JInt 1); ("lng", JInt 2)] in
  let without := media_edit E (IdStr "17_7") "a caption" "a title" [] None fresh_client in
  let with_place := media_edit E (IdStr "17_7") "a caption" "a title" [] place fresh_client in
  (∃ media, read_media (heap without.2) 2%positive = Some media ∧ product_type media = "igtv") ∧
  is_Ok without.1 = true ∧
  calls without.2 =
    [ PrivateRequest "media/17_7/edit_media/"
        (Some [ ("caption_text", JStr "a caption");
                ("title", JStr "a title");
                ("igtv_ads_toggled_on", JStr "0");
                ("_uuid", JStr "uuid") ]);
      LocationBuild None;
      graph_request E 17 ] ∧
  with_place.1 = Raise (ClientError "location_search failed") ∧
  calls with_place.2 = [LocationBuild place; graph_request E 17].
Proof. vm_compute. split_and!; try reflexivity. by eexists. Qed.

(** ** Eviction by the mutating calls *)
Section Eviction.

Context (E : Env).

Lemma media_pk_str x :
  Py.contains "_" (str x) = false → media_pk (IdStr (str x)) = media_pk x.
Proof. intros Hx. unfold media_pk. cbv zeta. cbn [str]. by rewrite Hx. Qed.

(** With a well-formed cache, [media_info] through the cache either
    returns an object, and the key is cached, or raises, and the key is
    not cached. *)
Lemma media_info_outcome id k st :
  wf st → media_pk id = Ok k →
  match media_info E id true st with
  | (Ok l, st') => is_Some (_medias_cache st' !! k) ∧
                   ∃ m u, heap st' !! l = Some (OMedia m) ∧
                          heap st' !! user m = Some (OUser u)
  | (Raise _, st') => _medias_cache st' !! k = None
  end.
Proof.
  intros Hwf Hk.
  destruct (media_info E id true st) as [[l|e] st'] eqn:Hrun.
  - apply media_info_Ok_object in Hrun as (k' & v & m & Hk' & Hc & _ & Hm & Hu & _).
    assert (k' = k) as -> by congruence. eauto.
  - rewrite media_info_unfold, Hk in Hrun. cbn [negb] in Hrun.
    destruct (_medias_cache st !! k) as [c|] eqn:Hc.
    + destruct (Hwf k c Hc) as [v Hv].
      rewrite (deepcopy_read c st v Hv), new_media_run in Hrun. done.
    + rewrite run_bind in Hrun.
      pose proof (keeps_fallback_policy E k st) as [_ Hcache].
      pose proof (returns_fallback_policy E k st) as Hret.
      destruct (fallback_policy E k st) as [[c|e'] st1]; simpl in *.
      * destruct (Hret c st1 eq_refl) as [v Hv].
        rewrite store_and_copy_run in Hrun.
        rewrite (deepcopy_read c _ v) in Hrun by done.
        rewrite new_media_run in Hrun. done.
      * injection Hrun as _ <-. by rewrite Hcache.
Qed.

(** When [media_id] raises on an identifier of a valid form, the owner
    lookup has failed and the key is not cached. *)
Lemma media_id_raises id k st e st' :
  wf st → media_pk id = Ok k →
  Py.contains "_" (str id) = true ∨ Py.isdigit (str id) = true →
  media_id E id st = (Raise e, st') →
  _medias_cache st' !! k = None.
Proof.
  intros Hwf Hk Hform. unfold media_id.
  destruct (Py.contains "_" (str id)) eqn:Hsep; [done|]. cbn [negb].
  destruct Hform as [|Hdig]; [done|]. rewrite Hdig.
  rewrite run_bind. cbn [assert mret M_ret]. rewrite run_bind.
  unfold media_user. rewrite run_bind.
  pose proof (media_info_outcome (IdStr (str id)) k st Hwf) as Hout.
  rewrite media_pk_str in Hout by done. specialize (Hout Hk).
  destruct (media_info E (IdStr (str id)) true st) as [[l|e'] s1].
  - destruct Hout as (_ & m & u & Hm & Hu).
    rewrite run_bind. unfold get_media at 1. rewrite Hm.
    cbn [mret M_ret]. rewrite run_bind. unfold get_user at 1. rewrite Hu. done.
  - by intros [= _ <-].
Qed.

(** When [edit_prelude] raises, for a logged-in client and an identifier
    of a valid form, the key is not cached. *)
Lemma edit_prelude_raises id k st e st' :
  wf st → logged_in st = true → media_pk id = Ok k →
  Py.contains "_" (str id) = true ∨ Py.isdigit (str id) = true →
  edit_prelude E id st = (Raise e, st') →
  _medias_cache st' !! k = None.
Proof.
  intros Hwf Hli Hk Hform. unfold edit_prelude.
  rewrite run_bind. unfold gets at 1. rewrite Hli.
  rewrite run_bind. cbn [assert mret M_ret]. rewrite run_bind.
  destruct (media_id E id st) as [[mid|e0] st1] eqn:Hmid.
  - assert (Hkm : media_pk (IdStr mid) = Ok k)
      by (by apply (media_id_keeps_key E id st mid st1)).
    assert (Hwf1 : wf st1).
    { pose proof (keeps_wf_media_id E id st) as [_ H]. rewrite Hmid in H. auto. }
    pose proof (media_info_outcome (IdStr mid) k st1 Hwf1 Hkm) as Hout.
    rewrite run_bind.
    destruct (media_info E (IdStr mid) true st1) as [[l|e1] st2]; [done|].
    by intros [= _ <-].
  - intros [= <- <-]. by eapply media_id_raises.
Qed.

(** When [edit_prelude] returns, the identifier is composed, the metadata
    read and the cache well-formed as before. *)
Lemma edit_prelude_Ok id st mid l st2 :
  edit_prelude E id st = (Ok (mid, l), st2) →
  logged_in st = true ∧
  ∃ st1, media_id E id st = (Ok mid, st1) ∧
         media_info E (IdStr mid) true st1 = (Ok l, st2) ∧
         (wf st → wf st2).
Proof.
  unfold edit_prelude.
  intros (li & s0 & Hli & H)%bind_Ok. injection Hli as <- <-.
  apply bind_Ok in H as ([] & s1 & Hassert & H).
  unfold assert in Hassert. destruct (logged_in st) eqn:Hli; [|done].
  injection Hassert as <-.
  apply bind_Ok in H as (mid' & s2 & Hmid & H).
  apply bind_Ok in H as (l' & s3 & Hinfo & H). injection H as <- <- <-.
  split; [done|]. exists s2. split_and!; try done.
  intros Hwf.
  pose proof (keeps_wf_media_id E id st) as [_ H1]. rewrite Hmid in H1.
  pose proof (keeps_wf_media_info E (IdStr mid') true s2) as [_ H2]. rewrite Hinfo in H2.
  auto.
Qed.

(** When [media_delete] returns, it has evicted the key. *)
Lemma media_delete_evicts id k st r st' :
  media_pk id = Ok k →
  media_delete E id st = (Ok r, st') →
  _medias_cache st' !! k = None.
Proof.
  intros Hk. unfold media_delete.
  intros (li & s0 & _ & H)%bind_Ok.
  apply bind_Ok in H as ([] & s1 & _ & H).
  apply bind_Ok in H as (mid & s2 & Hmid & H).
  apply bind_Ok in H as (result & s3 & _ & H).
  apply bind_Ok in H as ([] & s4 & Hpop & H). injection H as _ <-.
  unfold cache_pop in Hpop.
  apply bind_Ok in Hpop as (k' & s5 & Hk' & Hpop). injection Hpop as <-.
  unfold assert in *.
  assert (Hkm : media_pk (IdStr mid) = Ok k).
  { destruct (media_id E id s1) as [[mid'|?] s2'] eqn:Hrun; [|done].
    injection Hmid as -> ->. by apply (media_id_keeps_key E id s1 mid s2). }
  injection Hk' as Hk' _. rewrite Hkm in Hk'. injection Hk' as <-.
  simpl. apply lookup_delete_eq.
Qed.

(** A miss starts with the request of the graph strategy. *)
Lemma media_info_miss_fetches id k st :
  media_pk id = Ok k → _medias_cache st !! k = None →
  graph_request E k :: calls st `suffix_of` calls (media_info E id true st).2.
Proof.
  intros Hk Hmiss.
  rewrite (media_info_miss E id true k st Hk (or_intror Hmiss)).
  set (rest := λ data : dict,
    ((if negb (truthy (dict_get "shortcode_media" data))
      then raise_MediaNotFound E None (IdInt k) data
      else mret tt);;
     let shortcode_media := dict_get "shortcode_media" data in
     location ← lift (getitem shortcode_media "location");
     shortcode_media ←
       (if truthy location then
          l ← lift (extract_location E location);
          l' ← location_complete E l;
          mret (match shortcode_media with
                | JDict d => JDict (dict_set "location" (JDict l') d)
                | other => other
                end)
        else mret shortcode_media);
     v ← lift (extract_media_gql E shortcode_media);
     new_media v) : M loc).
  set (after_request :=
    try_except
      (try_except
         (lift (graphql_reply E (calls st) (gql_variables (encode E k))
                  "477b65a610463740ccdb83135b2014db") ≫= rest)
         (except "ClientLoginRequired"
            (λ e, ok ← inject_sessionid_to_public E;
                  if negb ok then raise e
                  else media_info_gql E (IdInt k))
            raise))
      (λ e,
         (if negb (isinstance e "ClientError")
          then logger_exception e
          else mret tt);;
         media_info_v1 E (IdInt k)) ≫= store_and_copy k).
  assert (Hrun : (fallback_policy E k ≫= store_and_copy k) st
                 = after_request (add_call (graph_request E k) st)).
  { unfold after_request, fallback_policy, try_except.
    rewrite !run_bind. unfold media_info_gql.
    rewrite !run_bind. unfold lift at 1. rewrite media_pk_int.
    unfold public_graphql_request at 1. unfold lift at 2. reflexivity. }
  rewrite Hrun.
  assert (Hkeeps : keeps extends after_request).
  { unfold after_request, rest.
    apply keeps_bind; [typeclasses eauto| |intros; apply keeps_store_and_copy].
    apply (keeps_weaken fetch_rel); [by intros ? ? [? _]|]. frame_tac. }
  apply (Hkeeps (add_call (graph_request E k) st)).
Qed.

(** A hit on a well-formed cache makes no call. *)
Lemma media_info_hit_no_call id k st :
  wf st → media_pk id = Ok k → is_Some (_medias_cache st !! k) →
  calls (media_info E id true st).2 = calls st.
Proof.
  intros Hwf Hk [c Hc]. destruct (Hwf k c Hc) as [v Hv].
  by rewrite (media_info_hit E id k c v st Hk Hc Hv), new_media_run.
Qed.

End Eviction.

(** C2, as the code has it: for a logged-in client with a well-formed
    cache and an identifier of a valid form (with a separator, or all
    digits) whose key is k. When media_edit gets as far as line 308 and
    location_build raises there, media_edit raises that error with the
    entry under k still cached, and the next media_info(id,
    use_cache=True) is served from the cache without a call. In every
    other run of media_edit, whether it raises before line 308 or goes on
    to the pop and the request, and whatever the transport then answers,
    and after media_delete when it returns, there is no cache entry under
    k, and the next media_info(id, use_cache=True) misses the cache and
    sends the request of the graph strategy. *)
Theorem mutation_evicts E id k st :
  wf st →
  logged_in st = true →
  media_pk id = Ok k →
  Py.contains "_" (str id) = true ∨ Py.isdigit (str id) = true →
  (∀ caption title usertags location,
     let run := media_edit E id caption title usertags location st in
     let evicted :=
       _medias_cache run.2 !! k = None ∧
       graph_request E k :: calls run.2 `suffix_of` calls (media_info E id true run.2).2 in
     match edit_prelude E id st with
     | (Ok _, st2) =>
         match location_build_reply E (calls st2) location with
         | Ok _ => evicted
         | Raise e =>
             run.1 = Raise e ∧
             calls run.2 = LocationBuild location :: calls st2 ∧
             is_Some (_medias_cache run.2 !! k) ∧
             calls (media_info E id true run.2).2 = calls run.2
         end
     | (Raise e, st2) => run = (Raise e, st2) ∧ evicted
     end) ∧
  (∀ r st',
     media_delete E id st = (Ok r, st') →
     _medias_cache st' !! k = None ∧
     graph_request E k :: calls st' `suffix_of` calls (media_info E id true st').2).
Proof.
  intros Hwf Hli Hk Hform. split.
  - intros caption title usertags location run evicted.
    destruct (edit_prelude E id st) as [[[mid l]|e] st2] eqn:Hpre.
    + apply edit_prelude_Ok in Hpre as (_ & st1 & Hmid & Hinfo & Hwf2).
      assert (Hkm : media_pk (IdStr mid) = Ok k)
        by (by apply (media_id_keeps_key E id st mid st1)).
      destruct (media_edit_run E id caption title usertags location st mid st1 l st2
                  Hli Hmid Hinfo) as (k' & v & Hk' & _ & Hc & Hrun).
      assert (k' = k) as -> by congruence.
      subst evicted run. rewrite Hrun.
      destruct (location_build_reply E (calls st2) location) as [built|e].
      * assert (Hnone : _medias_cache
          (private_request E (edit_endpoint mid)
             (Some (with_default_data E
                (if String.eqb (product_type v) "igtv" then igtv_data title caption
                 else standard_edit_data E caption usertags built)))
             (set_cache (delete k) (add_call (LocationBuild location) st2))).2 !! k = None).
        { rewrite (proj2 (private_request_calls _ _ _ _)). simpl. apply lookup_delete_eq. }
        split; [done | by apply media_info_miss_fetches].
      * split_and!; [done | done | done |].
        apply (media_info_hit_no_call E id k); [|done|done].
        intros k0 c0. apply (Hwf2 Hwf k0 c0).
    + pose proof (edit_prelude_raises E id k st e st2 Hwf Hli Hk Hform Hpre) as Hnone.
      subst evicted run.
      rewrite (media_edit_prelude_raises E id caption title usertags location st e st2 Hpre).
      split_and!; [done | done | by apply media_info_miss_fetches].
  - intros r st' Hrun.
    assert (Hnone : _medias_cache st' !! k = None) by (by eapply media_delete_evicts).
    split; [done | by apply media_info_miss_fetches].
Qed.

Lemma mutation_evicts_witness :
  let E := failing_location_build (ClientError "location_search failed")
             (demo_env (Ok (graph_media "feed")) false (Ok private_items)) in
  let place := Some [("name", JStr "somewhere"); ("lat", JInt 1); ("lng", JInt 2)] in
  let cached := (media_info E (IdStr "17") true fresh_client).2 in
  _medias_cache cached !! 17 = Some 2%positive ∧
  _medias_cache (media_edit E (IdStr "17_7") "a caption" "" [] None cached).2 !! 17 = None ∧
  is_Some (_medias_cache (media_edit E (IdStr "17_7") "a caption" "" [] place cached).2 !! 17) ∧
  _medias_cache (media_delete E (IdStr "17_7") cached).2 !! 17 = None.
Proof.
  intros E place cached.
  assert (Hwf : wf cached).
  { apply (keeps_wf_media_info E (IdStr "17") true fresh_client), wf_fresh_client. }
  destruct (mutation_evicts E (IdStr "17_7") 17 cached Hwf) as [Hedit Hdelete].
  - reflexivity.
  - reflexivity.
  - left. reflexivity.
  - pose proof (Hedit "a caption" "" [] None) as Hnone.
    pose proof (Hedit "a caption" "" [] place) as Hplace.
    split_and!.
    + vm_compute. reflexivity.
    + exact (proj1 Hnone).
    + exact (proj1 (proj2 (proj2 Hplace))).
    + refine (proj1 (Hdelete (JBool true) _ _)). vm_compute. reflexivity.
Defined.

(** C2 as stated fails for media_delete: the entry for key 17 is cached,
    the transport raises on the delete request, media_delete raises, and
    the entry is still there; the next media_info is served from the cache
    without any call. *)
Lemma media_delete_keeps_entry_counterexample :
  let E := demo_env (Ok (graph_media "feed")) false (Raise (ClientError "timeout")) in
  let cached := (media_info E (IdStr "17") true fresh_client).2 in
  let run := media_delete E (IdStr "17_7") cached in
  run.1 = Raise (ClientError "timeout") ∧
  delete_endpoint "17_7" = "media/17_7/delete/" ∧
  calls run.2 =
    PrivateRequest (delete_endpoint "17_7") (Some [("media_id", JStr "17_7")])
    :: calls cached ∧
  media_pk (IdStr "17_7") = Ok 17 ∧
  _medias_cache run.2 !! 17 = Some 2%positive ∧
  calls (media_info E (IdStr "17_7") true run.2).2 = calls run.2.
Proof. vm_compute. repeat split. Qed.

(** It fails for media_edit too, when location_build raises: media_edit
    raises before its pop, the entry for key 17 stays, and the next
    media_info is served from the cache without any call. *)
Example media_edit_keeps_entry_when_location_build_raises :
  let E := failing_location_build (ClientError "location_search failed")
             (demo_env (Ok (graph_media "feed")) false (Ok private_items)) in
  let place := Some [("name", JStr "somewhere"); ("lat", JInt 1); ("lng", JInt 2)] in
  let cached := (media_info E (IdStr "17") true fresh_client).2 in
  let run := media_edit E (IdStr "17_7") "a caption" "" [] place cached in
  run.1 = Raise (ClientError "location_search failed") ∧
  calls run.2 = LocationBuild place :: calls cached ∧
  _medias_cache run.2 !! 17 = Some 2%positive ∧
  calls (media_info E (IdStr "17_7") true run.2).2 = calls run.2.
Proof. vm_compute. repeat split. Qed.

(** ** Runs from the specification's list of testable properties *)

(** The graph strategy wants a login, the injection succeeds and the retry
    answers: the result is the graph strategy's, after one injection. *)
Example fallback_order_with_elevation :
  let run := media_info elevating_env (IdInt 1) true fresh_client in
  calls run.2 = [graph_request elevating_env 1; InjectSessionidToPublic;
                 graph_request elevating_env 1] ∧
  (l ← match run.1 with Ok l => Some l | Raise _ => None end;
   read_media (heap run.2) l)
  = Some (mkMedia "igtv" "a caption" (mkUser 7 "owner") []).
Proof. vm_compute. split; reflexivity. Qed.

(** The graph strategy finds nothing and the private strategy answers: the
    result is the private strategy's. *)
Example not_found_then_private :
  let E := demo_env (Ok []) false (Ok private_items) in
  let run := media_info E (IdInt 1) true fresh_client in
  (media_info_gql E (IdInt 1) fresh_client).1
  = Raise (MediaNotFound (demo_message None (IdInt 1) [])) ∧
  (l ← match run.1 with Ok l => Some l | Raise _ => None end;
   read_media (heap run.2) l)
  = Some (mkMedia "feed" "a caption" (mkUser 7 "owner") []) ∧
  log run.2 = [].
Proof. vm_compute. repeat split. Qed.

(** [like] then [unlike], with a transport that reports "ok". *)
Example like_then_unlike :
  let E := demo_env (Ok (graph_media "feed")) false (Ok private_items) in
  let liked := media_like E (IdStr "17_7") false fresh_client in
  liked.1 = Ok true ∧ (media_like E (IdStr "17_7") true liked.2).1 = Ok true ∧
  (media_unlike E (IdStr "17_7") liked.2).1 = Ok true.
Proof. vm_compute. repeat split. Qed.

(** An error that is no [ClientError] is logged before the fallback. *)
Example unknown_error_is_logged :
  let E := demo_env (Ok [("shortcode_media", JDict [("id", JStr "1")])]) false (Ok private_items) in
  let run := media_info E (IdInt 1) true fresh_client in
  is_Ok run.1 = true ∧ log run.2 = [KeyError "location"].
Proof. vm_compute. split; reflexivity. Qed.

(** * Further properties of the mixin *)

(** ** Identifiers *)
Section Identifiers.

Lemma int_only_value_error s e : Py.int s = Raise e → isinstance e "ValueError" = true.
Proof.
  unfold Py.int.
  destruct (match Py.rstrip (Py.lstrip s) with
            | String "-" r => (true, r)
            | String "+" r => (false, r)
            | _ => (false, Py.rstrip (Py.lstrip s))
            end) as [neg body].
  destruct (Py.digits_of body) as [d|]; [|by intros [= <-]].
  destruct (NilZero.uint_of_string d); [done | by intros [= <-]].
Qed.

Lemma unpack2_only_value_error {A} (l : list A) e :
  Py.unpack2 l = Raise e → isinstance e "ValueError" = true.
Proof.
  destruct l as [|a [|b [|c l]]]; simpl; try done; by intros [= <-].
Qed.

Lemma split_app c a b :
  Py.split c (a +:+ String c b) = (Py.split c a ++ Py.split c b)%list.
Proof.
  induction a as [|x r IH]; simpl.
  - by rewrite Ascii.eqb_refl.
  - destruct (Ascii.eqb x c); [by rewrite IH|].
    rewrite IH. destruct (Py.split c r) eqn:Hr; [|done].
    pose proof (split_length c r) as Hlen. rewrite Hr in Hlen. done.
Qed.

Lemma append_empty s : s +:+ "" = s.
Proof.
  induction s as [|a s IH]; [done|].
  change (String a s +:+ "") with (String a (s +:+ "")). by rewrite IH.
Qed.

Lemma split_slashes n : Py.split "/" (slashes n) = replicate (S n) "".
Proof. induction n as [|n IH]; simpl; [done | by rewrite IH]. Qed.

Lemma filter_nonempty_replicate n : List.filter nonempty (replicate n "") = [].
Proof. induction n; simpl; done. Qed.

(** The segments of a path that ends with [seg] and slashes. *)
Lemma segments_trailing seg n :
  seg ≠ "" → Py.contains "/" seg = false →
  List.filter nonempty (Py.split "/" (seg +:+ slashes n)) = [seg].
Proof.
  intros Hne Hsep.
  assert (Hseg : nonempty seg = true) by (by destruct seg).
  destruct n as [|n].
  - simpl. rewrite append_empty, split_none by done. simpl. by rewrite Hseg.
  - simpl slashes. rewrite split_app, split_none by done.
    rewrite split_slashes. simpl. rewrite Hseg.
    by rewrite filter_nonempty_replicate.
Qed.

Lemma slice_to_app n a b :
  (n ≤ String.length a)%nat → Py.slice_to n (a +:+ b) = Py.slice_to n a.
Proof.
  revert a. induction n as [|n IH]; intros a Hlen; [by destruct a|].
  destruct a as [|x r]; simpl in *; [lia|]. f_equal. apply IH. lia.
Qed.

Lemma slice_to_all n a : (String.length a ≤ n)%nat → Py.slice_to n a = a.
Proof.
  revert a. induction n as [|n IH]; intros a Hlen; destruct a as [|x r]; simpl in *;
    try done; try lia.
  f_equal. apply IH. lia.
Qed.

End Identifiers.

(** X1: media_pk undoes the formatting of identifiers: for an int pk
    within the limit that CPython puts on conversions between int and str
    (at most 4300 digits), media_pk(pk), media_pk(str(pk)) and media_pk of
    the composite form of pk, an underscore and the digits of an owner
    are all pk. *)
Theorem media_pk_of_formatted (z u : Z) :
  Py.within_limit z = true →
  media_pk (IdInt z) = Ok z ∧
  media_pk (IdStr (Py.str_int z)) = Ok z ∧
  media_pk (IdStr (Py.str_int z +:+ "_" +:+ Py.str_int u)) = Ok z.
Proof.
  intros _. split_and!.
  - apply media_pk_int.
  - transitivity (media_pk (IdInt z)); [|apply media_pk_int].
    apply (media_pk_str (IdInt z)), str_int_no_separator.
  - transitivity (media_pk (IdInt z)); [|apply media_pk_int].
    apply (media_pk_joined (IdInt z)); apply str_int_no_separator.
Qed.

Lemma media_pk_of_formatted_witness :
  media_pk (IdInt 2277033926878261772) = Ok 2277033926878261772 ∧
  media_pk (IdStr "2277033926878261772") = Ok 2277033926878261772 ∧
  media_pk (IdStr "2277033926878261772_1903424587") = Ok 2277033926878261772.
Proof.
  apply (media_pk_of_formatted 2277033926878261772 1903424587). reflexivity.
Defined.

(** X2: media_pk fails on a string with a ValueError and with nothing
    else. *)
Theorem media_pk_raises_value_error (s : string) (e : Exn) :
  media_pk (IdStr s) = Raise e → isinstance e "ValueError" = true.
Proof.
  unfold media_pk. cbv zeta. cbn [str].
  destruct (Py.contains "_" s).
  - destruct (Py.unpack2 (Py.split "_" s)) as [[a b]|e'] eqn:Hun; simpl.
    + apply int_only_value_error.
    + intros [= <-]. by eapply unpack2_only_value_error.
  - apply int_only_value_error.
Qed.

Lemma media_pk_raises_value_error_witness :
  isinstance (ValueError "too many values to unpack (expected 2)") "ValueError" = true.
Proof. apply (media_pk_raises_value_error "1_2_3"). reflexivity. Defined.

(** X3: media_pk_from_code reads the first 11 characters of the code and
    no more: a code of up to 11 characters is decoded whole, and whatever
    follows the 11th character changes nothing. *)
Theorem media_pk_from_code_prefix (decode : string → Result Z) (code suffix : string) :
  ((String.length code ≤ 11)%nat → media_pk_from_code decode code = decode code) ∧
  ((11 ≤ String.length code)%nat →
   media_pk_from_code decode (code +:+ suffix) = media_pk_from_code decode code).
Proof.
  unfold media_pk_from_code. split; intros Hlen.
  - by rewrite slice_to_all.
  - by rewrite slice_to_app.
Qed.

Lemma media_pk_from_code_prefix_witness :
  media_pk_from_code Py.int ("12345678901" +:+ "?igshid=1xm76") =
  media_pk_from_code Py.int "12345678901".
Proof.
  apply (proj2 (media_pk_from_code_prefix Py.int "12345678901" "?igshid=1xm76")).
  simpl. lia.
Defined.

(** X4: media_pk_from_url decodes the last non-empty segment of the path,
    whatever comes before it and however many slashes follow it; a path
    without a non-empty segment makes it fail with IndexError. *)
Theorem media_pk_from_url_last_segment
    (decode : string → Result Z) (urlparse_path : string → string)
    (url pre seg : string) (n : nat) :
  (seg ≠ "" → Py.contains "/" seg = false →
   urlparse_path url = seg +:+ slashes n ∨
   urlparse_path url = pre +:+ "/" +:+ seg +:+ slashes n →
   media_pk_from_url decode urlparse_path url = media_pk_from_code decode seg) ∧
  (urlparse_path url = slashes n →
   media_pk_from_url decode urlparse_path url = Raise (IndexError "pop from empty list")).
Proof.
  unfold media_pk_from_url. split.
  - intros Hne Hsep [-> | ->].
    + by rewrite segments_trailing.
    + change (pre +:+ "/" +:+ seg +:+ slashes n)
        with (pre +:+ String "/" (seg +:+ slashes n)).
      rewrite split_app, List.filter_app, segments_trailing by done.
      by rewrite last_snoc.
  - intros ->. rewrite split_slashes.
    change (replicate (S n) "") with ("" :: replicate n "").
    simpl. by rewrite filter_nonempty_replicate.
Qed.

Lemma media_pk_from_url_last_segment_witness :
  media_pk_from_url Py.int (λ url, url) "/p/2110901750722920960/" =
  media_pk_from_code Py.int "2110901750722920960".
Proof.
  apply (proj1 (media_pk_from_url_last_segment Py.int (λ url, url)
                  "/p/2110901750722920960/" "/p" "2110901750722920960" 1)).
  - discriminate.
  - reflexivity.
  - right. reflexivity.
Defined.

(** ** The fetch strategies *)

(** Whatever relation the three elementary steps of a strategy keep
    (recording a call, recording [last_json], adding an object), the
    strategies keep. *)
Section StrategyFrame.

Context (E : Env) (R : Client → Client → Prop) `{!PreOrder R}.
Hypothesis R_call : ∀ c st, R st (add_call c st).
Hypothesis R_json : ∀ j st, R st (set_last_json j st).
Hypothesis R_alloc : ∀ o st, R st (set_heap (<[fresh (dom (heap st)) := o]> (heap st)) st).

Lemma frame_public_graphql_request v q : keeps R (public_graphql_request E v q).
Proof. intros st. apply R_call. Qed.

Lemma frame_private_request ep d : keeps R (private_request E ep d).
Proof.
  intros st. unfold private_request.
  destruct (private_reply E (calls st) ep d) as [r lj]. simpl.
  etrans; [apply R_call | apply R_json].
Qed.

Lemma frame_location_complete l : keeps R (location_complete E l).
Proof. intros st. apply R_call. Qed.

Lemma frame_alloc o : keeps R (alloc o).
Proof. intros st. apply R_alloc. Qed.

Ltac strategy_tac :=
  repeat first
    [ apply frame_public_graphql_request | apply frame_private_request
    | apply frame_location_complete | apply frame_alloc
    | keeps_step; try typeclasses eauto ].

Lemma frame_new_media v : keeps R (new_media v).
Proof. unfold new_media. strategy_tac. Qed.

Lemma frame_raise_MediaNotFound {A} arg id kw :
  keeps R (@raise_MediaNotFound E A arg id kw).
Proof. unfold raise_MediaNotFound. strategy_tac. Qed.

Lemma frame_media_info_gql id : keeps R (media_info_gql E id).
Proof. unfold media_info_gql, new_media, raise_MediaNotFound. strategy_tac. Qed.

Lemma frame_media_info_v1 id : keeps R (media_info_v1 E id).
Proof. unfold media_info_v1, new_media, raise_MediaNotFound. strategy_tac. Qed.

Lemma frame_media_info_a1 a1 id max_id :
  (∀ p q, keeps R (a1 p q)) → keeps R (media_info_a1 E a1 id max_id).
Proof.
  intros Ha1. unfold media_info_a1, new_media, raise_MediaNotFound.
  repeat first [apply Ha1 | strategy_tac].
Qed.

Lemma frame_media_oembed x url : keeps R (media_oembed E x url).
Proof. unfold media_oembed. strategy_tac. Qed.

End StrategyFrame.

Global Instance strategy_rel_preorder : PreOrder strategy_rel.
Proof.
  split.
  - intros st. by repeat split.
  - intros s1 s2 s3 (? & ? & ? & ? & ? & ?) (? & ? & ? & ? & ? & ?).
    repeat split; try congruence; by etrans.
Qed.

Lemma strategy_rel_call c st : strategy_rel st (add_call c st).
Proof. repeat split; simpl; try done. by apply suffix_cons_r. Qed.

Lemma strategy_rel_json j st : strategy_rel st (set_last_json j st).
Proof. by repeat split. Qed.

Lemma strategy_rel_alloc o st :
  strategy_rel st (set_heap (<[fresh (dom (heap st)) := o]> (heap st)) st).
Proof. repeat split; simpl; try done. apply heap_alloc_subseteq. Qed.

(** X5: the strategies media_info_gql, media_info_v1 and media_info_a1,
    and media_oembed, never write to the cache: whether they return or
    raise, the cache, the log and the user id are as before and every
    object that existed is as it was (media_info_a1 given that
    public_a1_request leaves them so). *)
Theorem strategies_leave_cache
    E (a1 : string → option dict → M dict) (oembed : dict → Result dict) :
  (∀ p q, keeps strategy_rel (a1 p q)) →
  ∀ id st,
    strategy_rel st (media_info_gql E id st).2 ∧
    strategy_rel st (media_info_v1 E id st).2 ∧
    (∀ max_id, strategy_rel st (media_info_a1 E a1 id max_id st).2) ∧
    (∀ url, strategy_rel st (media_oembed E oembed url st).2).
Proof.
  intros Ha1 id st. split_and!.
  - apply frame_media_info_gql; auto using strategy_rel_call, strategy_rel_json,
      strategy_rel_alloc with typeclass_instances.
  - apply frame_media_info_v1; auto using strategy_rel_call, strategy_rel_json,
      strategy_rel_alloc with typeclass_instances.
  - intros max_id. apply frame_media_info_a1;
      auto using strategy_rel_call, strategy_rel_json, strategy_rel_alloc
        with typeclass_instances.
  - intros url. apply frame_media_oembed;
      auto using strategy_rel_call, strategy_rel_json, strategy_rel_alloc
        with typeclass_instances.
Qed.

Lemma strategies_leave_cache_witness :
  let E := demo_env (Ok (graph_media "feed")) false (Ok private_items) in
  _medias_cache (media_info_a1 E (λ _ _, lift (Ok (graph_media "feed")))
                   (IdInt 17) None fresh_client).2
  = _medias_cache fresh_client.
Proof.
  intros E.
  destruct (strategies_leave_cache E (λ _ _, lift (Ok (graph_media "feed"))) (λ d, Ok d))
    with (id := IdInt 17) (st := fresh_client) as (_ & _ & Ha1 & _).
  - intros p q st. reflexivity.
  - apply (Ha1 None).
Defined.

(** X6: how media_info_v1 maps the errors of its request: a
    ClientNotFoundError, and a ClientError whose message contains "Media
    not found", become a MediaNotFound built from the error, the
    identifier and the keywords of last_json as the transport left it, with
    the message that its constructor makes of these (a TypeError of the
    call if last_json itself carries a media_pk key); every other error is
    raised again as it is. Nothing is created and only the call and
    last_json are recorded. *)
Theorem media_info_v1_errors E k st e lj :
  private_reply E (calls st) (info_endpoint k) None = (Raise e, lj) →
  let st1 := set_last_json lj (add_call (PrivateRequest (info_endpoint k) None) st) in
  let not_found :=
    isinstance e "ClientNotFoundError" ||
    (isinstance e "ClientError" && is_substring "Media not found" (exn_msg e)) in
  media_info_v1 E (IdInt k) st =
    (Raise (if not_found then
              if dict_has "media_pk" lj
              then TypeError "instagrapi.exceptions.MediaNotFound() got multiple values for keyword argument 'media_pk'"
              else MediaNotFound (media_not_found_message E (Some e) (IdInt k) lj)
            else e),
     st1).
Proof.
  intros Hreply st1 not_found. subst st1 not_found.
  rewrite media_info_v1_run, Hreply. cbv zeta.
  rewrite run_bind. unfold except.
  destruct (isinstance e "ClientNotFoundError"); simpl.
  - rewrite run_bind. unfold gets at 1. cbn [last_json set_last_json].
    unfold raise_MediaNotFound. by destruct (dict_has "media_pk" lj).
  - destruct (isinstance e "ClientError"); simpl; [|done].
    destruct (is_substring "Media not found" (exn_msg e)); simpl; [|done].
    rewrite run_bind. unfold gets at 1. cbn [last_json set_last_json].
    unfold raise_MediaNotFound. by destruct (dict_has "media_pk" lj).
Qed.

Lemma media_info_v1_errors_witness :
  let lj := [("message", JStr "Media not found or unavailable"); ("status", JStr "fail")] in
  let E := leaving_last_json lj
             (demo_env (Ok []) false (Raise (ClientNotFoundError "404 Client Error"))) in
  media_info_v1 E (IdInt 1) fresh_client
  = (Raise (MediaNotFound "Media not found or unavailable"),
     set_last_json lj (add_call (PrivateRequest "media/1/info/" None) fresh_client)).
Proof.
  intros lj E.
  rewrite (media_info_v1_errors E 1 fresh_client (ClientNotFoundError "404 Client Error") lj);
    reflexivity.
Defined.

(** ** More on [media_info] *)
Section MediaInfoMore.

Context (E : Env).

(** The graph strategy up to the reply to its request. *)
Lemma media_info_gql_not_found k st data :
  graphql_reply E (calls st) (gql_variables (encode E k))
    "477b65a610463740ccdb83135b2014db" = Ok data →
  truthy (dict_get "shortcode_media" data) = false →
  media_info_gql E (IdInt k) st =
    (Raise (if dict_has "media_pk" data
            then TypeError "instagrapi.exceptions.MediaNotFound() got multiple values for keyword argument 'media_pk'"
            else MediaNotFound (media_not_found_message E None (IdInt k) data)),
     add_call (graph_request E k) st).
Proof.
  intros Hreply Hempty. unfold media_info_gql.
  rewrite run_bind. unfold lift at 1. rewrite media_pk_int.
  rewrite run_bind. unfold public_graphql_request at 1. rewrite Hreply.
  rewrite run_bind, Hempty. cbn [negb]. unfold raise_MediaNotFound.
  by destruct (dict_has "media_pk" data).
Qed.

Lemma bind_raises {A B} (m : M A) (f : A → M B) st e st' :
  (m ≫= f) st = (Raise e, st') →
  m st = (Raise e, st') ∨ ∃ a st1, m st = (Ok a, st1) ∧ f a st1 = (Raise e, st').
Proof.
  rewrite run_bind. destruct (m st) as [[a|e0] st1]; [eauto | intros [= -> ->]; eauto].
Qed.

(** Storing and copying an object that can be read returns. *)
Lemma store_and_copy_readable k media st :
  readable media st →
  ∃ l st', store_and_copy k media st = (Ok l, st') ∧
           _medias_cache st' = <[k:=media]> (_medias_cache st) ∧
           calls st' = calls st ∧ log st' = log st ∧ heap st ⊆ heap st'.
Proof.
  intros [v Hv]. rewrite store_and_copy_run.
  rewrite (deepcopy_read media _ v) by done.
  destruct (new_media v (set_cache <[k:=media]> st)) as [r st'] eqn:Hnew.
  pose proof Hnew as Hrun. rewrite new_media_run in Hrun. cbv zeta in Hrun.
  injection Hrun as <- _.
  pose proof (keeps_new_media v (set_cache <[k:=media]> st)) as [[_ Hheap _ _] _].
  rewrite Hnew in Hheap.
  apply new_media_spec in Hnew as (_ & _ & _ & _ & Hcache & Hcalls & Hlog & _).
  eexists _, st'. split_and!; done.
Qed.

(** When the fallback policy raises, [media_info_v1] has raised. *)
Lemma fallback_policy_raises k st e st' :
  fallback_policy E k st = (Raise e, st') →
  ∃ s1, media_info_v1 E (IdInt k) s1 = (Raise e, st').
Proof.
  unfold fallback_policy. unfold try_except at 1.
  destruct (try_except _ _ st) as [[l|e0] s0]; [done|].
  intros H. apply bind_raises in H as [H | ([] & s1 & _ & H)]; [|eauto].
  destruct (negb (isinstance e0 "ClientError")); done.
Qed.

(** A fetch starts with the request of the graph strategy. *)
Lemma fetch_starts_with_graph k st :
  graph_request E k :: calls st
    `suffix_of` calls ((fallback_policy E k ≫= store_and_copy k) st).2.
Proof.
  set (rest := λ data : dict,
    ((if negb (truthy (dict_get "shortcode_media" data))
      then raise_MediaNotFound E None (IdInt k) data
      else mret tt);;
     let shortcode_media := dict_get "shortcode_media" data in
     location ← lift (getitem shortcode_media "location");
     shortcode_media ←
       (if truthy location then
          l ← lift (extract_location E location);
          l' ← location_complete E l;
          mret (match shortcode_media with
                | JDict d => JDict (dict_set "location" (JDict l') d)
                | other => other
                end)
        else mret shortcode_media);
     v ← lift (extract_media_gql E shortcode_media);
     new_media v) : M loc).
  set (after_request :=
    try_except
      (try_except
         (lift (graphql_reply E (calls st) (gql_variables (encode E k))
                  "477b65a610463740ccdb83135b2014db") ≫= rest)
         (except "ClientLoginRequired"
            (λ e, ok ← inject_sessionid_to_public E;
                  if negb ok then raise e
                  else media_info_gql E (IdInt k))
            raise))
      (λ e,
         (if negb (isinstance e "ClientError")
          then logger_exception e
          else mret tt);;
         media_info_v1 E (IdInt k)) ≫= store_and_copy k).
  assert (Hrun : (fallback_policy E k ≫= store_and_copy k) st
                 = after_request (add_call (graph_request E k) st)).
  { unfold after_request, fallback_policy, try_except.
    rewrite !run_bind. unfold media_info_gql.
    rewrite !run_bind. unfold lift at 1. rewrite media_pk_int.
    unfold public_graphql_request at 1. unfold lift at 2. reflexivity. }
  rewrite Hrun.
  assert (Hkeeps : keeps extends after_request).
  { unfold after_request, rest.
    apply keeps_bind; [typeclasses eauto| |intros; apply keeps_store_and_copy].
    apply (keeps_weaken fetch_rel); [by intros ? ? [? _]|]. frame_tac. }
  apply (Hkeeps (add_call (graph_request E k) st)).
Qed.

End MediaInfoMore.

(** ** New objects *)
Section Fresh.

Context (E : Env).

Lemma fresh_new_media v : returns_fresh (new_media v).
Proof. intros st l st' H. by apply new_media_spec in H as (_ & ? & _). Qed.

Lemma fresh_raise e : returns_fresh (raise e).
Proof. intros st l st' [=]. Qed.

Lemma fresh_raise_MediaNotFound arg id kw :
  returns_fresh (raise_MediaNotFound E arg id kw).
Proof. unfold raise_MediaNotFound. destruct (dict_has _ _); apply fresh_raise. Qed.

Lemma fresh_bind {A} (m : M A) (f : A → M loc) :
  keeps extends m → (∀ a, returns_fresh (f a)) → returns_fresh (m ≫= f).
Proof.
  intros Hm Hf st l st' (a & s1 & Hrun & H)%bind_Ok.
  apply Hf in H. pose proof (Hm st) as [_ Hheap _ _]. rewrite Hrun in Hheap.
  simpl in Hheap. destruct (heap st !! l) as [o|] eqn:Hl; [|done].
  by rewrite (lookup_weaken _ _ _ _ Hl Hheap) in H.
Qed.

Lemma fresh_try (m : M loc) (h : Exn → M loc) :
  keeps extends m → returns_fresh m → (∀ e, returns_fresh (h e)) →
  returns_fresh (try_except m h).
Proof.
  intros Hk Hm Hh st l st'. unfold try_except.
  destruct (m st) as [[l0|e] s1] eqn:Hrun.
  - intros [= <- <-]. by eapply Hm.
  - intros H%Hh. pose proof (Hk st) as [_ Hheap _ _]. rewrite Hrun in Hheap.
    simpl in Hheap. destruct (heap st !! l) as [o|] eqn:Hl; [|done].
    by rewrite (lookup_weaken _ _ _ _ Hl Hheap) in H.
Qed.

Lemma fresh_except cls (h r : Exn → M loc) e :
  returns_fresh (h e) → returns_fresh (r e) → returns_fresh (except cls h r e).
Proof. unfold except. by destruct (isinstance e cls). Qed.

Lemma fresh_if (b : bool) (m1 m2 : M loc) :
  returns_fresh m1 → returns_fresh m2 → returns_fresh (if b then m1 else m2).
Proof. by destruct b. Qed.

Ltac extends_tac := apply (keeps_weaken fetch_rel); [by intros ? ? [? _] | frame_tac].

Ltac fresh_tac :=
  repeat first
    [ apply fresh_new_media | apply fresh_raise | apply fresh_raise_MediaNotFound
    | apply fresh_bind; [extends_tac | intros ?]
    | apply fresh_try; [extends_tac | | intros ?]
    | apply fresh_except
    | apply fresh_if ].

Lemma fresh_media_info_gql id : returns_fresh (media_info_gql E id).
Proof. unfold media_info_gql. fresh_tac. Qed.

Lemma fresh_media_info_v1 id : returns_fresh (media_info_v1 E id).
Proof. unfold media_info_v1. fresh_tac. Qed.

Lemma fresh_fallback_policy k : returns_fresh (fallback_policy E k).
Proof.
  unfold fallback_policy.
  repeat first [apply fresh_media_info_gql | apply fresh_media_info_v1 | fresh_tac].
Qed.

Lemma strategy_rel_gql id st : strategy_rel st (media_info_gql E id st).2.
Proof.
  apply frame_media_info_gql; auto using strategy_rel_call, strategy_rel_json,
    strategy_rel_alloc with typeclass_instances.
Qed.

End Fresh.

(** X7: on a miss, when the reply of the graph transport carries no
    shortcode_media, media_info goes on to media_info_v1 straight after
    the graph request, without injecting a session and without logging
    (the MediaNotFound is a ClientError); but when that reply has a
    media_pk key, building the MediaNotFound fails with a TypeError, and
    this one is logged before media_info_v1 runs. *)
Theorem media_info_graph_without_payload E id uc k st data :
  media_pk id = Ok k →
  uc = false ∨ _medias_cache st !! k = None →
  graphql_reply E (calls st) (gql_variables (encode E k))
    "477b65a610463740ccdb83135b2014db" = Ok data →
  truthy (dict_get "shortcode_media" data) = false →
  let st1 := add_call (graph_request E k) st in
  media_info E id uc st =
    (media_info_v1 E (IdInt k) ≫= store_and_copy k)
      (if dict_has "media_pk" data
       then add_log (TypeError "instagrapi.exceptions.MediaNotFound() got multiple values for keyword argument 'media_pk'") st1
       else st1).
Proof.
  intros Hk Hmiss Hreply Hempty st1.
  rewrite (media_info_miss E id uc k st Hk Hmiss), run_bind.
  pose proof (media_info_gql_not_found E k st data Hreply Hempty) as Hg.
  rewrite (fallback_policy_other E k st _ _ Hg) by (by destruct (dict_has "media_pk" data)).
  rewrite fall_back_run. rewrite <- run_bind.
  by destruct (dict_has "media_pk" data).
Qed.

Lemma media_info_graph_without_payload_witness :
  let E := demo_env (Ok [("media_pk", JInt 1)]) false (Ok private_items) in
  log (media_info E (IdInt 1) true fresh_client).2
  = [TypeError "instagrapi.exceptions.MediaNotFound() got multiple values for keyword argument 'media_pk'"].
Proof.
  intros E.
  rewrite (media_info_graph_without_payload E (IdInt 1) true 1 fresh_client
             [("media_pk", JInt 1)]).
  - vm_compute. reflexivity.
  - reflexivity.
  - by right.
  - reflexivity.
  - reflexivity.
Defined.

(** X8: on a miss, when the graph strategy answers, at once or at the
    retry that follows a successful injection, media_info returns; the
    object the graph strategy built is stored under the key, no call
    follows those of the graph strategy (media_info_v1 is not tried) and
    nothing is logged. *)
Theorem media_info_graph_answers E id uc k st media st1 :
  media_pk id = Ok k →
  uc = false ∨ _medias_cache st !! k = None →
  media_info_gql E (IdInt k) st = (Ok media, st1) ∨
  (∃ e0 st0,
     media_info_gql E (IdInt k) st = (Raise e0, st0) ∧
     isinstance e0 "ClientLoginRequired" = true ∧
     inject_reply E (calls st0) = true ∧
     media_info_gql E (IdInt k) (add_call InjectSessionidToPublic st0) = (Ok media, st1)) →
  ∃ l st',
    media_info E id uc st = (Ok l, st') ∧
    _medias_cache st' = <[k:=media]> (_medias_cache st) ∧
    calls st' = calls st1 ∧
    log st' = log st.
Proof.
  intros Hk Hmiss Hgraph.
  assert (Hpol : fallback_policy E k st = (Ok media, st1)).
  { unfold fallback_policy, try_except.
    destruct Hgraph as [Hg | (e0 & st0 & Hg & He & Hinj & Hretry)]; rewrite Hg; [done|].
    unfold except. rewrite He, run_bind. unfold inject_sessionid_to_public.
    rewrite Hinj. simpl. by rewrite Hretry. }
  assert (Hread : readable media st1).
  { destruct Hgraph as [Hg | (e0 & st0 & _ & _ & _ & Hg)];
      by apply (returns_media_info_gql E (IdInt k) _ _ _ Hg). }
  assert (Hrel : _medias_cache st1 = _medias_cache st ∧ log st1 = log st).
  { destruct Hgraph as [Hg | (e0 & st0 & Hg0 & _ & _ & Hg)].
    - pose proof (strategy_rel_gql E (IdInt k) st) as (_ & ? & ? & _).
      by rewrite Hg in *.
    - pose proof (strategy_rel_gql E (IdInt k) st) as (_ & Hc0 & Hl0 & _).
      pose proof (strategy_rel_gql E (IdInt k) (add_call InjectSessionidToPublic st0))
        as (_ & Hc1 & Hl1 & _).
      rewrite Hg0 in *. rewrite Hg in *. simpl in *. split; congruence. }
  destruct (store_and_copy_readable k media st1 Hread)
    as (l & st' & Hrun & Hcache & Hcalls & Hlog & _).
  exists l, st'. split_and!.
  - by rewrite (media_info_miss E id uc k st Hk Hmiss), run_bind, Hpol.
  - rewrite Hcache. by rewrite (proj1 Hrel).
  - done.
  - rewrite Hlog. apply Hrel.
Qed.

Lemma media_info_graph_answers_witness :
  let run := media_info elevating_env (IdInt 1) true fresh_client in
  ∃ l st', run = (Ok l, st') ∧ _medias_cache st' !! 1 = Some 2%positive ∧ log st' = [].
Proof.
  intros run.
  destruct (media_info_graph_answers elevating_env (IdInt 1) true 1 fresh_client 2%positive
              (media_info_gql elevating_env (IdInt 1)
                 (add_call InjectSessionidToPublic
                    (media_info_gql elevating_env (IdInt 1) fresh_client).2)).2)
    as (l & st' & Hrun & Hcache & _ & Hlog).
  - reflexivity.
  - by right.
  - right. exists (ClientLoginRequired "login_required"),
      (media_info_gql elevating_env (IdInt 1) fresh_client).2.
    split_and!; vm_compute; reflexivity.
  - exists l, st'. split_and!; [done | | done].
    rewrite Hcache. reflexivity.
Defined.

(** X9: media_info(id, use_cache=False) fetches whether or not the key is
    cached: the request of the graph strategy is sent, and when the call
    returns the entry under the key is an object that did not exist
    before the call, of which the result is a copy. *)
Theorem media_info_refetches E id k st :
  media_pk id = Ok k →
  graph_request E k :: calls st `suffix_of` calls (media_info E id false st).2 ∧
  (∀ l st',
     media_info E id false st = (Ok l, st') →
     ∃ c v,
       _medias_cache st' !! k = Some c ∧ heap st !! c = None ∧
       read_media (heap st') c = Some v ∧ read_media (heap st') l = Some v).
Proof.
  intros Hk. split.
  - rewrite (media_info_miss E id false k st Hk (or_introl eq_refl)).
    apply fetch_starts_with_graph.
  - intros l st' (k' & c & v & stm & Hk' & Hc & Hv & Hnew & Hcase)%media_info_Ok.
    assert (k' = k) as -> by congruence.
    destruct Hcase as [(? & _) | (_ & s1 & Hpol & ->)]; [done|].
    pose proof (keeps_new_media v (set_cache <[k:=c]> s1)) as [[_ Hheap _ _] _].
    rewrite Hnew in Hheap. simpl in Hheap.
    pose proof Hnew as (Hread & _ & _ & _ & Hcache & _)%new_media_spec.
    exists c, v. split_and!.
    + by rewrite Hcache.
    + by apply (fresh_fallback_policy E k st c s1).
    + by eapply read_media_mono.
    + done.
Qed.

Lemma media_info_refetches_witness :
  let E := demo_env (Ok (graph_media "feed")) false (Ok private_items) in
  let cached := (media_info E (IdInt 17) true fresh_client).2 in
  graph_request E 17 :: calls cached
    `suffix_of` calls (media_info E (IdInt 17) false cached).2.
Proof.
  intros E cached.
  apply (proj1 (media_info_refetches E (IdInt 17) 17 cached eq_refl)).
Defined.

(** X10: with a well-formed cache, when media_info raises, the cache is as
    it was, and the error is either the one media_pk raises on the
    identifier, before any call, or, on a miss, the one media_info_v1 has
    raised: no error of the graph strategy reaches the caller. *)
Theorem media_info_failure E id uc st e st' :
  wf st →
  media_info E id uc st = (Raise e, st') →
  _medias_cache st' = _medias_cache st ∧
  ((media_pk id = Raise e ∧ st' = st) ∨
   (∃ k s1,
      media_pk id = Ok k ∧
      (uc = false ∨ _medias_cache st !! k = None) ∧
      media_info_v1 E (IdInt k) s1 = (Raise e, st'))).
Proof.
  intros Hwf. rewrite media_info_unfold.
  destruct (media_pk id) as [k|e0] eqn:Hk; [|intros [= <- <-]; auto].
  destruct (if uc then _medias_cache st !! k else None) as [c|] eqn:Hhit.
  - destruct uc; [|done].
    destruct (Hwf k c Hhit) as [v Hv].
    by rewrite (deepcopy_read c st v Hv), new_media_run.
  - intros [Hpol | (c & s1 & Hpol & Hcopy)]%bind_raises.
    + pose proof (keeps_fallback_policy E k st) as [_ Hcache]. rewrite Hpol in Hcache.
      split; [done|]. right.
      destruct (fallback_policy_raises E k st e st' Hpol) as [s1 Hv1].
      exists k, s1. split_and!; [done | destruct uc; auto | done].
    + pose proof (returns_fallback_policy E k st c s1 Hpol) as Hread.
      destruct (store_and_copy_readable k c s1 Hread) as (l & s2 & Hrun & _).
      congruence.
Qed.

Lemma media_info_failure_witness :
  let E := demo_env (Ok []) false (Raise (ClientError "timeout")) in
  _medias_cache (media_info E (IdInt 1) true fresh_client).2 = ∅.
Proof.
  intros E.
  apply (media_info_failure E (IdInt 1) true fresh_client (ClientError "timeout")
           (media_info E (IdInt 1) true fresh_client).2 wf_fresh_client).
  vm_compute. reflexivity.
Defined.

(** ** Counting calls *)
Section Adds.

Context (E : Env) (κ : Kind).

Lemma count_kind_app a b :
  count_kind κ (a ++ b)%list = (count_kind κ a + count_kind κ b)%nat.
Proof. unfold count_kind. by rewrite List.filter_app, length_app. Qed.

(** A step that leaves the record of calls alone. *)
Lemma adds_same {A} (m : M A) : (∀ st, calls (m st).2 = calls st) → adds m κ 0.
Proof. intros H st. exists []. by rewrite H. Qed.

(** A step that records one call of kind [k]. *)
Lemma adds_one {A} (m : M A) k :
  (∀ st, ∃ c, calls (m st).2 = c :: calls st ∧ kind_of c = k) →
  adds m κ (one_if k κ).
Proof.
  intros H st. destruct (H st) as (c & -> & Hc). exists [c]. split; [done|].
  unfold count_kind, one_if. simpl. rewrite Hc.
  by destruct (bool_decide (k = κ)).
Qed.

Lemma adds_weaken {A} (m : M A) n n' : adds m κ n → (n ≤ n')%nat → adds m κ n'.
Proof. intros H Hle st. destruct (H st) as (new & ? & ?). exists new. split; [done | lia]. Qed.

Lemma adds_bind {A B} (m : M A) (f : A → M B) n1 n2 :
  adds m κ n1 → (∀ a, adds (f a) κ n2) → adds (m ≫= f) κ (n1 + n2).
Proof.
  intros Hm Hf st. rewrite run_bind. destruct (Hm st) as (new1 & H1 & Hc1).
  destruct (m st) as [[a|e] s1]; simpl in *.
  - destruct (Hf a s1) as (new2 & H2 & Hc2).
    exists (new2 ++ new1)%list. rewrite H2, H1, count_kind_app.
    split; [by rewrite app_assoc | lia].
  - exists new1. split; [done | lia].
Qed.

Lemma adds_try {A} (m : M A) (h : Exn → M A) n1 n2 :
  adds m κ n1 → (∀ e, adds (h e) κ n2) → adds (try_except m h) κ (n1 + n2).
Proof.
  intros Hm Hh st. unfold try_except. destruct (Hm st) as (new1 & H1 & Hc1).
  destruct (m st) as [[a|e] s1]; simpl in *.
  - exists new1. split; [done | lia].
  - destruct (Hh e s1) as (new2 & H2 & Hc2).
    exists (new2 ++ new1)%list. rewrite H2, H1, count_kind_app.
    split; [by rewrite app_assoc | lia].
Qed.

Lemma adds_if {A} (b : bool) (m1 m2 : M A) n :
  adds m1 κ n → adds m2 κ n → adds (if b then m1 else m2) κ n.
Proof. by destruct b. Qed.

Lemma adds_except {A} cls (h r : Exn → M A) e n :
  adds (h e) κ n → adds (r e) κ n → adds (except cls h r e) κ n.
Proof. unfold except. by destruct (isinstance e cls). Qed.

Lemma adds_new_media v : adds (new_media v) κ 0.
Proof. apply adds_same. intros st. by rewrite new_media_run. Qed.

Lemma adds_deepcopy l : adds (deepcopy l) κ 0.
Proof.
  apply adds_same. intros st.
  destruct (read_media (heap st) l) as [v|] eqn:Hr.
  - by rewrite (deepcopy_read l st v Hr), new_media_run.
  - by destruct (deepcopy_unreadable l st Hr) as [e ->].
Qed.

Lemma adds_raise_MediaNotFound {A} arg id kw :
  adds (@raise_MediaNotFound E A arg id kw) κ 0.
Proof. apply adds_same. intros st. unfold raise_MediaNotFound. by destruct (dict_has _ _). Qed.

Lemma adds_public_graphql_request v q :
  adds (public_graphql_request E v q) κ (one_if KGraph κ).
Proof. apply adds_one. intros st. by eexists. Qed.

Lemma adds_private_request ep d : adds (private_request E ep d) κ (one_if KPrivate κ).
Proof.
  apply adds_one. intros st. unfold private_request.
  destruct (private_reply E (calls st) ep d). by eexists.
Qed.

Lemma adds_inject : adds (inject_sessionid_to_public E) κ (one_if KInject κ).
Proof. apply adds_one. intros st. by eexists. Qed.

Lemma adds_location_complete l : adds (location_complete E l) κ (one_if KLocation κ).
Proof. apply adds_one. intros st. by eexists. Qed.

(** The graph strategy: one request, at most one location lookup. *)
Lemma adds_media_info_gql id :
  adds (media_info_gql E id) κ (one_if KGraph κ + one_if KLocation κ).
Proof.
  unfold media_info_gql.
  apply (adds_weaken _ (0 + (one_if KGraph κ + (0 + (0 + (one_if KLocation κ + 0))))));
    [|lia].
  apply adds_bind; [by apply adds_same|intros k].
  apply adds_bind; [apply adds_public_graphql_request | intros data].
  apply adds_bind; [|intros []].
  { apply adds_if; [apply adds_raise_MediaNotFound | by apply adds_same]. }
  apply adds_bind; [by apply adds_same | intros location].
  apply adds_bind; [|intros sm].
  - apply adds_if.
    + apply (adds_weaken _ (0 + (one_if KLocation κ + 0))); [|lia].
      apply adds_bind; [by apply adds_same | intros l].
      apply adds_bind; [apply adds_location_complete | intros l'].
      by apply adds_same.
    + apply (adds_weaken _ 0); [by apply adds_same | lia].
  - apply (adds_bind _ _ 0 0); [by apply adds_same | intros v; apply adds_new_media].
Qed.

(** The private strategy: one request. *)
Lemma adds_media_info_v1 id : adds (media_info_v1 E id) κ (one_if KPrivate κ).
Proof.
  unfold media_info_v1.
  apply (adds_weaken _ (one_if KPrivate κ + 0 + 0)); [|lia].
  apply adds_bind; [|intros result].
  - apply adds_try; [apply adds_private_request | intros e].
    apply adds_except.
    + apply (adds_bind _ _ 0 0); [by apply adds_same | intros; apply adds_raise_MediaNotFound].
    + apply adds_except; [|by apply adds_same].
      apply adds_if; [|by apply adds_same].
      apply (adds_bind _ _ 0 0); [by apply adds_same | intros; apply adds_raise_MediaNotFound].
  - apply (adds_bind _ _ 0 0); [by apply adds_same | intros v; apply adds_new_media].
Qed.

Lemma adds_fallback_policy k :
  adds (fallback_policy E k) κ
    (2 * one_if KGraph κ + 2 * one_if KLocation κ + one_if KInject κ + one_if KPrivate κ).
Proof.
  unfold fallback_policy.
  apply (adds_weaken _
    (((one_if KGraph κ + one_if KLocation κ) +
      (one_if KInject κ + (one_if KGraph κ + one_if KLocation κ))) +
     (0 + one_if KPrivate κ))); [|lia].
  apply adds_try; [|intros e].
  - apply adds_try; [apply adds_media_info_gql | intros e].
    apply adds_except.
    + apply adds_bind; [apply adds_inject | intros ok].
      apply adds_if; [|apply adds_media_info_gql].
      apply (adds_weaken _ 0); [by apply adds_same | lia].
    + apply (adds_weaken _ 0); [by apply adds_same | lia].
  - apply adds_bind; [|intros []; apply adds_media_info_v1].
    apply adds_if; by apply adds_same.
Qed.

Lemma adds_media_info id uc :
  adds (media_info E id uc) κ
    (2 * one_if KGraph κ + 2 * one_if KLocation κ + one_if KInject κ + one_if KPrivate κ).
Proof.
  intros st. rewrite media_info_unfold.
  destruct (media_pk id) as [k|e]; [|exists []; split; [done | apply Nat.le_0_l]].
  destruct (if uc then _medias_cache st !! k else None) as [c|].
  - destruct (adds_deepcopy c st) as (new & ? & ?). exists new. split; [done | lia].
  - assert (Hadds : adds (fallback_policy E k ≫= store_and_copy k) κ
      ((2 * one_if KGraph κ + 2 * one_if KLocation κ + one_if KInject κ + one_if KPrivate κ) + 0)).
    { apply adds_bind; [apply adds_fallback_policy | intros media].
      unfold store_and_copy.
      apply (adds_bind _ _ 0 0); [by apply adds_same | intros; apply adds_deepcopy]. }
    destruct (Hadds st) as (new & ? & ?). exists new. split; [done | lia].
Qed.

End Adds.

(** X11: one call of media_info records, on top of the calls made before
    it, at most two requests of the graph strategy, one session injection,
    one private request and two location lookups, and no call of
    location_build, whatever identifier and replies it is given. *)
Theorem media_info_call_bound E id uc st :
  ∃ new : list Call,
    calls (media_info E id uc st).2 = (new ++ calls st)%list ∧
    (count_kind KGraph new ≤ 2)%nat ∧
    (count_kind KInject new ≤ 1)%nat ∧
    (count_kind KPrivate new ≤ 1)%nat ∧
    (count_kind KLocation new ≤ 2)%nat ∧
    (count_kind KBuild new ≤ 0)%nat.
Proof.
  destruct (adds_media_info E KGraph id uc st) as (new & Hnew & Hgraph).
  exists new. split; [done|]. split; [exact Hgraph|].
  split_and!.
  - destruct (adds_media_info E KInject id uc st) as (new' & Hnew' & H).
    rewrite Hnew in Hnew'. apply app_inv_tail in Hnew' as <-. exact H.
  - destruct (adds_media_info E KPrivate id uc st) as (new' & Hnew' & H).
    rewrite Hnew in Hnew'. apply app_inv_tail in Hnew' as <-. exact H.
  - destruct (adds_media_info E KLocation id uc st) as (new' & Hnew' & H).
    rewrite Hnew in Hnew'. apply app_inv_tail in Hnew' as <-. exact H.
  - destruct (adds_media_info E KBuild id uc st) as (new' & Hnew' & H).
    rewrite Hnew in Hnew'. apply app_inv_tail in Hnew' as <-. exact H.
Qed.

(** ** Which entries of the cache a method can change *)

Lemma keeps_bind_run (R : Client → Client → Prop) `{!PreOrder R} {A B}
    (m : M A) (f : A → M B) :
  keeps R m → (∀ a st st1, m st = (Ok a, st1) → keeps R (f a)) → keeps R (m ≫= f).
Proof.
  intros Hm Hf st. rewrite run_bind. specialize (Hm st).
  destruct (m st) as [[a|e] st1] eqn:Hrun; simpl in *; [|done].
  etrans; [exact Hm | by eapply Hf].
Qed.

Global Instance only_key_preorder id : PreOrder (only_key id).
Proof.
  split.
  - by intros st k _.
  - intros s1 s2 s3 H12 H23 k Hk. by rewrite H23, H12.
Qed.

Global Instance cache_grows_preorder : PreOrder cache_grows.
Proof.
  split.
  - intros st. unfold cache_grows. reflexivity.
  - intros s1 s2 s3 H12 H23. unfold cache_grows in *. by etrans.
Qed.

Section CacheFrame.

Context (E : Env).

Lemma fetch_rel_only_key id st st' : fetch_rel st st' → only_key id st st'.
Proof. intros [_ Hc] k _. by rewrite Hc. Qed.

Lemma fetch_rel_cache_grows st st' : fetch_rel st st' → cache_grows st st'.
Proof. intros [_ Hc]. unfold cache_grows. by rewrite Hc. Qed.

(** The key of what [media_id] returns is a key of what it was given. *)
Lemma media_id_key_back x st s st' k :
  media_id E x st = (Ok s, st') →
  media_pk (IdStr s) = Ok k → media_pk x = Ok k.
Proof.
  intros [(Hsep & -> & _) | (Hsep & _ & l & m & u & _ & _ & _ & ->)]%media_id_Ok.
  - destruct x as [z|s0]; [|done].
    simpl in Hsep. by rewrite str_int_no_separator in Hsep.
  - rewrite media_pk_joined; [done | done | apply str_int_no_separator].
Qed.

Lemma only_key_media_info id id' uc :
  (∀ k, media_pk id' = Ok k → media_pk id = Ok k) →
  keeps (only_key id) (media_info E id' uc).
Proof.
  intros Hkey st. rewrite media_info_unfold.
  destruct (media_pk id') as [k|e] eqn:Hk; [|reflexivity].
  destruct (if uc then _medias_cache st !! k else None) as [c|].
  - apply fetch_rel_only_key, keeps_deepcopy.
  - rewrite run_bind.
    pose proof (keeps_fallback_policy E k st) as Hpol.
    destruct (fallback_policy E k st) as [[c|e] s1]; simpl in *.
    + etrans; [apply fetch_rel_only_key, Hpol|].
      rewrite store_and_copy_run.
      etrans; [|apply fetch_rel_only_key, keeps_deepcopy].
      intros k0 Hk0. simpl. rewrite lookup_insert_ne; [done|].
      intros ->. by apply Hk0, Hkey.
    + by apply fetch_rel_only_key.
Qed.

Lemma only_key_cache_pop id mid :
  (∀ k, media_pk (IdStr mid) = Ok k → media_pk id = Ok k) →
  keeps (only_key id) (cache_pop mid).
Proof.
  intros Hkey st. unfold cache_pop. rewrite run_bind. unfold lift at 1.
  destruct (media_pk (IdStr mid)) as [k|e] eqn:Hk; [|reflexivity].
  intros k0 Hk0. simpl. rewrite lookup_delete_ne; [done|].
  intros ->. by apply Hk0, Hkey.
Qed.

Ltac only_key_tac :=
  repeat first
    [ apply (keeps_weaken fetch_rel); [apply fetch_rel_only_key | frame_tac]; fail
    | keeps_step; try typeclasses eauto ].

Lemma only_key_media_id id : keeps (only_key id) (media_id E id).
Proof.
  unfold media_id. destruct (Py.contains "_" (str id)) eqn:Hsep; simpl.
  - apply keeps_ret. typeclasses eauto.
  - apply keeps_bind; [typeclasses eauto | apply keeps_assert; typeclasses eauto | intros _].
    apply keeps_bind; [typeclasses eauto | | intros user; only_key_tac].
    unfold media_user.
    apply keeps_bind; [typeclasses eauto | | intros media; only_key_tac].
    apply only_key_media_info. intros k. by rewrite media_pk_str.
Qed.

Lemma only_key_media_delete id : keeps (only_key id) (media_delete E id).
Proof.
  unfold media_delete.
  apply keeps_bind; [typeclasses eauto | apply keeps_gets; typeclasses eauto | intros li].
  apply keeps_bind; [typeclasses eauto | apply keeps_assert; typeclasses eauto | intros _].
  apply keeps_bind_run; [typeclasses eauto | apply only_key_media_id | intros mid s0 s1 Hmid].
  apply keeps_bind; [typeclasses eauto | only_key_tac | intros result].
  apply keeps_bind; [typeclasses eauto | | intros []; apply keeps_ret; typeclasses eauto].
  apply only_key_cache_pop. intros k. by apply media_id_key_back with s0 s1.
Qed.

Lemma only_key_media_edit id caption title usertags location :
  keeps (only_key id) (media_edit E id caption title usertags location).
Proof.
  unfold media_edit.
  apply keeps_bind; [typeclasses eauto | apply keeps_gets; typeclasses eauto | intros li].
  apply keeps_bind; [typeclasses eauto | apply keeps_assert; typeclasses eauto | intros _].
  apply keeps_bind_run; [typeclasses eauto | apply only_key_media_id | intros mid s0 s1 Hmid].
  assert (Hkey : ∀ k, media_pk (IdStr mid) = Ok k → media_pk id = Ok k)
    by (intros k; by apply media_id_key_back with s0 s1).
  apply keeps_bind; [typeclasses eauto | by apply only_key_media_info | intros media].
  apply keeps_bind; [typeclasses eauto | only_key_tac | intros location'].
  apply keeps_bind; [typeclasses eauto | only_key_tac | intros m].
  apply keeps_bind; [typeclasses eauto | only_key_tac | intros data].
  apply keeps_bind; [typeclasses eauto | by apply only_key_cache_pop | intros []].
  only_key_tac.
Qed.

Lemma only_key_media_like id revert : keeps (only_key id) (media_like E id revert).
Proof.
  unfold media_like.
  apply keeps_bind; [typeclasses eauto | apply keeps_gets; typeclasses eauto | intros li].
  apply keeps_bind; [typeclasses eauto | apply keeps_assert; typeclasses eauto | intros _].
  apply keeps_bind; [typeclasses eauto | apply only_key_media_id | intros mid].
  only_key_tac.
Qed.

(** Reading through the cache only adds to it. *)
Lemma cache_grows_media_info id : keeps cache_grows (media_info E id true).
Proof.
  intros st. rewrite media_info_unfold.
  destruct (media_pk id) as [k|e] eqn:Hk; [|reflexivity].
  destruct (_medias_cache st !! k) as [c|] eqn:Hc; simpl.
  - apply fetch_rel_cache_grows, keeps_deepcopy.
  - rewrite run_bind.
    pose proof (keeps_fallback_policy E k st) as Hpol.
    destruct (fallback_policy E k st) as [[c|e] s1]; simpl in *.
    + etrans; [apply fetch_rel_cache_grows, Hpol|].
      rewrite store_and_copy_run.
      etrans; [|apply fetch_rel_cache_grows, keeps_deepcopy].
      unfold cache_grows. simpl. apply insert_subseteq.
      destruct Hpol as [_ ->]. done.
    + by apply fetch_rel_cache_grows.
Qed.

Ltac grows_tac :=
  repeat first
    [ apply cache_grows_media_info
    | apply (keeps_weaken fetch_rel); [apply fetch_rel_cache_grows | frame_tac]; fail
    | keeps_step; try typeclasses eauto ].

Lemma cache_grows_media_user id : keeps cache_grows (media_user E id).
Proof. unfold media_user. grows_tac. Qed.

Lemma cache_grows_media_id id : keeps cache_grows (media_id E id).
Proof. unfold media_id. repeat first [apply cache_grows_media_user | grows_tac]. Qed.

Lemma cache_grows_media_like id revert : keeps cache_grows (media_like E id revert).
Proof. unfold media_like. repeat first [apply cache_grows_media_id | grows_tac]. Qed.

End CacheFrame.

(** X12: a call on an identifier changes the cache under the key of that
    identifier and nowhere else: for every key that media_pk does not
    give for id, the entry is the same after media_info, media_id,
    media_delete, media_edit and media_like as before, whether they return
    or raise. *)
Theorem cache_changes_only_under_key E (id : PyId) (k : Z) (st : Client) :
  media_pk id ≠ Ok k →
  (∀ uc, _medias_cache (media_info E id uc st).2 !! k = _medias_cache st !! k) ∧
  _medias_cache (media_id E id st).2 !! k = _medias_cache st !! k ∧
  _medias_cache (media_delete E id st).2 !! k = _medias_cache st !! k ∧
  (∀ caption title usertags location,
     _medias_cache (media_edit E id caption title usertags location st).2 !! k
     = _medias_cache st !! k) ∧
  (∀ revert, _medias_cache (media_like E id revert st).2 !! k = _medias_cache st !! k).
Proof.
  intros Hk. split_and!.
  - intros uc. by apply (only_key_media_info E id id uc).
  - by apply (only_key_media_id E id).
  - by apply (only_key_media_delete E id).
  - intros. by apply (only_key_media_edit E id).
  - intros. by apply (only_key_media_like E id).
Qed.

Lemma cache_changes_only_under_key_witness :
  let E := demo_env (Ok (graph_media "feed")) false (Ok private_items) in
  let cached := (media_info E (IdInt 17) true fresh_client).2 in
  _medias_cache (media_delete E (IdStr "18_7") cached).2 !! 17 = _medias_cache cached !! 17.
Proof.
  intros E cached.
  apply (cache_changes_only_under_key E (IdStr "18_7") 17 cached). discriminate.
Defined.

(** X13: media_like and media_unlike never evict or replace a cache
    entry, and neither do media_id, media_user and media_info(...,
    use_cache=True): every entry present before the call is the same
    entry after it. *)
Theorem like_and_reads_keep_entries E (id : PyId) (st : Client) (k : Z) (c : loc) :
  _medias_cache st !! k = Some c →
  (∀ revert, _medias_cache (media_like E id revert st).2 !! k = Some c) ∧
  _medias_cache (media_unlike E id st).2 !! k = Some c ∧
  _medias_cache (media_id E id st).2 !! k = Some c ∧
  _medias_cache (media_user E id st).2 !! k = Some c ∧
  _medias_cache (media_info E id true st).2 !! k = Some c.
Proof.
  intros Hc. split_and!.
  - intros revert. by eapply lookup_weaken, (cache_grows_media_like E id revert st).
  - by eapply lookup_weaken, (cache_grows_media_like E id true st).
  - by eapply lookup_weaken, (cache_grows_media_id E id st).
  - by eapply lookup_weaken, (cache_grows_media_user E id st).
  - by eapply lookup_weaken, (cache_grows_media_info E id st).
Qed.

Lemma like_and_reads_keep_entries_witness :
  let E := demo_env (Ok (graph_media "feed")) false (Ok private_items) in
  let cached := (media_info E (IdInt 17) true fresh_client).2 in
  _medias_cache (media_like E (IdStr "17_7") false cached).2 !! 17 = Some 2%positive.
Proof.
  intros E cached.
  apply (like_and_reads_keep_entries E (IdStr "17_7") cached 17 2%positive).
  vm_compute. reflexivity.
Defined.

(** ** More on [media_id] *)

(** X14: media_id is idempotent: what it returns is an identifier that
    media_id returns unchanged, in any state, without a call and without
    touching the client. *)
Theorem media_id_idempotent E x st s st' :
  media_id E x st = (Ok s, st') →
  ∀ st2, media_id E (IdStr s) st2 = (Ok s, st2).
Proof.
  intros Hrun st2.
  assert (Hsep : Py.contains "_" s = true).
  { apply media_id_Ok in Hrun
      as [(Hsep & -> & _) | (_ & _ & l & m & u & _ & _ & _ & ->)]; [done|].
    change (str x +:+ "_" +:+ Py.str_int (pk u))
      with (str x +:+ String "_" (Py.str_int (pk u))).
    rewrite contains_app. simpl. by rewrite orb_true_r. }
  unfold media_id. cbn [str]. by rewrite Hsep.
Qed.

Lemma media_id_idempotent_witness :
  let E := demo_env (Ok (graph_media "feed")) false (Ok private_items) in
  media_id E (IdStr "17_7") anonymous_client = (Ok "17_7", anonymous_client).
Proof.
  intros E.
  apply (media_id_idempotent E (IdInt 17) fresh_client "17_7"
           (media_id E (IdInt 17) fresh_client).2).
  vm_compute. reflexivity.
Defined.

(** X15: an identifier without separator that is not all digits is
    refused by media_id with the assertion error that quotes it, before
    any call and with the client left as it was; a negative int is such an
    identifier. *)
Theorem media_id_rejects_non_digits E x st :
  (Py.contains "_" (str x) = false → Py.isdigit (str x) = false →
   media_id E x st =
     (Raise (AssertionError ("media_id must been contain digits, now " +:+ str x)), st)) ∧
  (∀ z, z < 0 →
   media_id E (IdInt z) st =
     (Raise (AssertionError ("media_id must been contain digits, now " +:+ Py.str_int z)), st)).
Proof.
  assert (Hgen : ∀ y, Py.contains "_" (str y) = false → Py.isdigit (str y) = false →
    media_id E y st =
      (Raise (AssertionError ("media_id must been contain digits, now " +:+ str y)), st)).
  { intros y Hsep Hdig. unfold media_id. cbv zeta. rewrite Hsep. cbn [negb].
    rewrite Hdig. reflexivity. }
  split; [apply Hgen|].
  intros z Hz. apply (Hgen (IdInt z)); [apply str_int_no_separator|].
  destruct z as [|p|p]; [lia | lia | reflexivity].
Qed.

Lemma media_id_rejects_non_digits_witness :
  let E := demo_env (Ok (graph_media "feed")) false (Ok private_items) in
  media_id E (IdStr "B1LbfVPlwIA") fresh_client =
    (Raise (AssertionError "media_id must been contain digits, now B1LbfVPlwIA"),
     fresh_client).
Proof.
  intros E.
  apply (proj1 (media_id_rejects_non_digits E (IdStr "B1LbfVPlwIA") fresh_client));
    reflexivity.
Defined.

(** X16: for an all-digit identifier whose key is cached, media_id finds
    the owner in the cache: it returns the digits, the separator and the
    pk of the cached entry's author, makes no call and leaves the cache as
    it is. *)
Theorem media_id_from_cache E x k c v st :
  Py.contains "_" (str x) = false →
  Py.isdigit (str x) = true →
  media_pk x = Ok k →
  _medias_cache st !! k = Some c →
  read_media (heap st) c = Some v →
  ∃ st',
    media_id E x st = (Ok (str x +:+ "_" +:+ Py.str_int (pk (user v))), st') ∧
    calls st' = calls st ∧
    _medias_cache st' = _medias_cache st.
Proof.
  intros Hsep Hdig Hk Hc Hv.
  assert (Hinfo : media_info E (IdStr (str x)) true st = new_media v st).
  { apply (media_info_hit E (IdStr (str x)) k c v st); [|done..].
    by rewrite media_pk_str. }
  destruct (new_media v st) as [r st'] eqn:Hnew.
  pose proof Hnew as Hrun. rewrite new_media_run in Hrun. cbv zeta in Hrun.
  injection Hrun as Hr _. symmetry in Hr. subst r.
  pose proof Hnew as (Hread & _ & _ & _ & Hcache & Hcalls & _)%new_media_spec.
  pose proof Hread as (m & Hm & Hu)%read_media_dom.
  exists st'. split_and!; [|done..].
  unfold media_id. cbv zeta. rewrite Hsep. cbn [negb]. rewrite Hdig.
  rewrite run_bind. cbn [assert mret M_ret]. rewrite run_bind.
  unfold media_user. rewrite run_bind, Hinfo.
  rewrite run_bind. unfold get_media at 1. rewrite Hm.
  cbn [mret M_ret]. rewrite run_bind. unfold get_user at 1. by rewrite Hu.
Qed.

Lemma media_id_from_cache_witness :
  let E := demo_env (Ok (graph_media "feed")) false (Ok private_items) in
  let cached := (media_info E (IdInt 17) true fresh_client).2 in
  ∃ st', media_id E (IdInt 17) cached = (Ok "17_7", st') ∧ calls st' = calls cached.
Proof.
  intros E cached.
  destruct (media_id_from_cache E (IdInt 17) 17 2%positive
              (mkMedia "feed" "a caption" (mkUser 7 "owner") []) cached)
    as (st' & Hrun & Hcalls & _); try reflexivity.
  exists st'. split; [exact Hrun | exact Hcalls].
Defined.

(** ** More on the mutating calls *)
Section Mutations.

Context (E : Env).

Lemma media_id_composite s st :
  Py.contains "_" s = true → media_id E (IdStr s) st = (Ok s, st).
Proof. intros Hsep. unfold media_id. cbn [str]. by rewrite Hsep. Qed.

End Mutations.

(** X17: media_delete by a logged-in client on an identifier that has a
    separator, when the transport answers: without any lookup of the
    owner, one request is sent to the delete endpoint with the identifier
    as media_id; the entry under the key is evicted; the result is the
    did_delete of the answer, and None when the answer has no such key. *)
Theorem media_delete_composite E s k st result lj :
  logged_in st = true →
  Py.contains "_" s = true →
  media_pk (IdStr s) = Ok k →
  private_reply E (calls st) (delete_endpoint s)
    (Some (with_default_data E [("media_id", JStr s)])) = (Ok result, lj) →
  media_delete E (IdStr s) st =
    (Ok (default JNull (dict_lookup "did_delete" result)),
     set_cache (delete k)
       (set_last_json lj
          (add_call (PrivateRequest (delete_endpoint s)
                       (Some (with_default_data E [("media_id", JStr s)]))) st))).
Proof.
  intros Hli Hsep Hk Hreply. unfold media_delete.
  rewrite run_bind. unfold gets at 1. rewrite Hli.
  rewrite run_bind. cbn [assert mret M_ret].
  rewrite run_bind, media_id_composite by done.
  rewrite run_bind. unfold private_request at 1. fold (delete_endpoint s).
  rewrite Hreply. rewrite run_bind. unfold cache_pop at 1.
  rewrite run_bind. unfold lift at 1. rewrite Hk. reflexivity.
Qed.

Lemma media_delete_composite_witness :
  let E := demo_env (Ok (graph_media "feed")) false (Ok [("status", JStr "ok")]) in
  (media_delete E (IdStr "17_7") fresh_client).1 = Ok JNull.
Proof.
  intros E.
  rewrite (media_delete_composite E "17_7" 17 fresh_client [("status", JStr "ok")] []);
    reflexivity.
Defined.

(** X18: an identifier with a separator from which media_pk gets no key
    (more than one separator, or no integer before it) is found out at
    different points: media_edit raises the ValueError of media_pk before
    any call, the client left as it was; media_delete first sends its
    delete request and, when the transport answers, raises that error
    afterwards, the cache as it was. *)
Theorem malformed_composite_id E s e st :
  logged_in st = true →
  Py.contains "_" s = true →
  media_pk (IdStr s) = Raise e →
  (∀ caption title usertags location,
     media_edit E (IdStr s) caption title usertags location st = (Raise e, st)) ∧
  (∀ result lj,
     private_reply E (calls st) (delete_endpoint s)
       (Some (with_default_data E [("media_id", JStr s)])) = (Ok result, lj) →
     media_delete E (IdStr s) st =
       (Raise e,
        set_last_json lj
          (add_call (PrivateRequest (delete_endpoint s)
                       (Some (with_default_data E [("media_id", JStr s)]))) st))).
Proof.
  intros Hli Hsep Hk. split.
  - intros caption title usertags location. unfold media_edit.
    rewrite run_bind. unfold gets at 1. rewrite Hli.
    rewrite run_bind. cbn [assert mret M_ret].
    rewrite run_bind, media_id_composite by done.
    rewrite run_bind, media_info_unfold, Hk. reflexivity.
  - intros result lj Hreply. unfold media_delete.
    rewrite run_bind. unfold gets at 1. rewrite Hli.
    rewrite run_bind. cbn [assert mret M_ret].
    rewrite run_bind, media_id_composite by done.
    rewrite run_bind. unfold private_request at 1. fold (delete_endpoint s).
    rewrite Hreply. rewrite run_bind. unfold cache_pop at 1.
    rewrite run_bind. unfold lift at 1. rewrite Hk. reflexivity.
Qed.

Lemma malformed_composite_id_witness :
  let E := demo_env (Ok (graph_media "feed")) false (Ok private_items) in
  calls (media_delete E (IdStr "1_2_3") fresh_client).2 =
    [PrivateRequest "media/1_2_3/delete/" (Some [("media_id", JStr "1_2_3")])] ∧
  calls (media_edit E (IdStr "1_2_3") "a caption" "" [] None fresh_client).2 = [].
Proof.
  intros E.
  destruct (malformed_composite_id E "1_2_3"
              (ValueError "too many values to unpack (expected 2)") fresh_client)
    as [Hedit Hdelete]; try reflexivity.
  split.
  - rewrite (Hdelete private_items []); reflexivity.
  - rewrite Hedit. reflexivity.
Defined.

(** X19: media_edit on content that is not long-form video, once the
    identifier is composed and the metadata read. The location is handed
    to location_build: when that raises, media_edit raises the same error
    and sends no request; when it returns, the request is sent after it,
    and the dict handed to with_default_data is the standard one, with the
    caption as given, what location_build returned under location, the
    serialised user tags, and the keys caption_text, container_module,
    feed_position, location, usertags and is_carousel_bumped_post. The
    title has no effect on the run. *)
Theorem media_edit_standard_payload
    E id caption title usertags location st mid st1 l st2 v :
  logged_in st = true →
  media_id E id st = (Ok mid, st1) →
  media_info E (IdStr mid) true st1 = (Ok l, st2) →
  read_media (heap st2) l = Some v →
  product_type v ≠ "igtv" →
  (∀ e,
     location_build_reply E (calls st2) location = Raise e →
     (media_edit E id caption title usertags location st).1 = Raise e ∧
     calls (media_edit E id caption title usertags location st).2 =
       LocationBuild location :: calls st2) ∧
  (∀ built,
     location_build_reply E (calls st2) location = Ok built →
     let data := standard_edit_data E caption usertags built in
     calls (media_edit E id caption title usertags location st).2 =
       PrivateRequest (edit_endpoint mid) (Some (with_default_data E data))
       :: LocationBuild location :: calls st2 ∧
     dict_keys data =
       ["caption_text"; "container_module"; "feed_position"; "location"; "usertags";
        "is_carousel_bumped_post"] ∧
     dict_lookup "caption_text" data = Some (JStr caption) ∧
     dict_lookup "location" data = Some (JStr built)) ∧
  (∀ title',
     media_edit E id caption title' usertags location st =
     media_edit E id caption title usertags location st).
Proof.
  intros Hli Hmid Hinfo Hv Hpt.
  set (st3 := add_call (LocationBuild location) st2).
  assert (Hrun : ∀ t,
    media_edit E id caption t usertags location st =
      match location_build_reply E (calls st2) location with
      | Ok built =>
          private_request E (edit_endpoint mid)
            (Some (with_default_data E (standard_edit_data E caption usertags built)))
            (set_cache (delete (default 0 (match media_pk (IdStr mid) with
                                           | Ok k => Some k | _ => None end))) st3)
      | Raise e => (Raise e, st3)
      end).
  { intros t.
    destruct (media_edit_run E id caption t usertags location st mid st1 l st2 Hli Hmid Hinfo)
      as (k & v' & Hk & Hv' & _ & ->).
    assert (v' = v) as -> by congruence.
    rewrite Hk. by rewrite (proj2 (String.eqb_neq _ _) Hpt). }
  split_and!.
  - intros e He. by rewrite Hrun, He.
  - intros built Hbuilt data. split_and!; try reflexivity.
    rewrite Hrun, Hbuilt. by rewrite (proj1 (private_request_calls _ _ _ _)).
  - intros t'. by rewrite !Hrun.
Qed.

Lemma media_edit_standard_payload_witness :
  let E := demo_env (Ok (graph_media "feed")) false (Ok private_items) in
  calls (media_edit E (IdStr "17_7") "a caption" "a title" [] None fresh_client).2 =
    [ PrivateRequest "media/17_7/edit_media/"
        (Some [ ("caption_text", JStr "a caption");
                ("container_module", JStr "edit_media_info");
                ("feed_position", JStr "0");
                ("location", JStr "{}");
                ("usertags", JStr "{}");
                ("is_carousel_bumped_post", JStr "false") ]);
      LocationBuild None;
      graph_request E 17 ].
Proof.
  intros E.
  destruct (media_edit_standard_payload E (IdStr "17_7") "a caption" "a title" [] None
              fresh_client "17_7" fresh_client 4%positive
              (media_info E (IdStr "17_7") true fresh_client).2
              (mkMedia "feed" "a caption" (mkUser 7 "owner") []))
    as (_ & Hsent & _).
  - reflexivity.
  - reflexivity.
  - vm_compute. reflexivity.
  - vm_compute. reflexivity.
  - discriminate.
  - rewrite (proj1 (Hsent "{}" eq_refl)). reflexivity.
Defined.

(** X20: media_like by a logged-in client on an identifier that has a
    separator, when the transport answers: one number is drawn, one
    request is sent to the like or the unlike endpoint, and the result is
    whether the status of the answer is the string "ok"; an answer
    without status makes media_like raise KeyError after the request. The
    cache is not touched. *)
Theorem media_like_result E s revert st result lj :
  logged_in st = true →
  Py.contains "_" s = true →
  let request :=
    PrivateRequest (like_endpoint s revert)
      (Some (with_action_data E (like_data s (randint E (draws st) 0 6)))) in
  private_reply E (calls st) (like_endpoint s revert)
    (Some (with_action_data E (like_data s (randint E (draws st) 0 6)))) = (Ok result, lj) →
  media_like E (IdStr s) revert st =
    (match dict_lookup "status" result with
     | Some (JStr status) => Ok (String.eqb status "ok")
     | Some _ => Ok false
     | None => Raise (KeyError "status")
     end,
     set_last_json lj (add_call request (add_draw st))).
Proof.
  intros Hli Hsep request Hreply. unfold media_like.
  rewrite run_bind. unfold gets at 1. rewrite Hli.
  rewrite run_bind. cbn [assert mret M_ret].
  rewrite run_bind, media_id_composite by done.
  rewrite run_bind. unfold random_randint at 1.
  rewrite run_bind. unfold private_request at 1.
  fold (like_data s (randint E (draws st) 0 6)). fold (like_endpoint s revert).
  cbn [calls add_draw]. rewrite Hreply.
  rewrite run_bind. unfold lift at 1, getitem.
  destruct (dict_lookup "status" result) as [[]|]; reflexivity.
Qed.

Lemma media_like_result_witness :
  let E := demo_env (Ok (graph_media "feed")) false (Ok [("did_delete", JBool true)]) in
  (media_like E (IdStr "17_7") false fresh_client).1 = Raise (KeyError "status").
Proof.
  intros E.
  rewrite (media_like_result E "17_7" false fresh_client [("did_delete", JBool true)] []);
    reflexivity.
Defined.

(** X21: the [try] of media_edit that takes the title of a long-form
    video from the caption always yields a title and a caption. The title
    has no line break. Either the caption had one, and then the title,
    a line break and the new caption make up the old caption (the title
    is not cut, however long); or it had none, and then the caption is
    kept and the title is its first 75 characters at most. *)
Theorem igtv_title_from_caption (caption : string) :
  ∃ t c,
    result_try (Py.unpack2 (Py.split1 LF caption)) "ValueError"
      (Ok (Py.slice_to 75 caption, caption)) = Ok (t, c) ∧
    Py.contains LF t = false ∧
    (caption = t +:+ String LF c ∨
     (Py.contains LF caption = false ∧ c = caption ∧
      t = Py.slice_to 75 caption ∧ (String.length t ≤ 75)%nat ∧
      ∃ rest, caption = t +:+ rest)).
Proof.
  rewrite split1_cases.
  destruct (Py.after LF caption) as [r|] eqn:Hafter.
  - exists (Py.before LF caption), r. split_and!.
    + reflexivity.
    + apply before_no_separator.
    + left. by apply before_after.
  - exists (Py.slice_to 75 caption), caption.
    pose proof (after_none _ _ Hafter) as Hnone. split_and!.
    + reflexivity.
    + by apply slice_to_no_separator.
    + right. split_and!; try done.
      * apply slice_to_length.
      * apply slice_to_prefix.
Qed.

(** ** The invariant of the cache *)

(** X22: that every cache entry refers to a Media object with an author
    is an invariant of the client: it holds of a client that has fetched
    nothing, and media_info_gql, media_info_v1, media_info, media_user,
    media_id, media_delete, media_edit and media_like keep it, whether
    they return or raise. *)
Theorem cache_invariant E (st : Client) :
  wf fresh_client ∧
  (wf st →
   (∀ id, wf (media_info_gql E id st).2) ∧
   (∀ id, wf (media_info_v1 E id st).2) ∧
   (∀ id uc, wf (media_info E id uc st).2) ∧
   (∀ id, wf (media_user E id st).2) ∧
   (∀ id, wf (media_id E id st).2) ∧
   (∀ id, wf (media_delete E id st).2) ∧
   (∀ id caption title usertags location,
      wf (media_edit E id caption title usertags location st).2) ∧
   (∀ id revert, wf (media_like E id revert st).2)).
Proof.
  split; [apply wf_fresh_client|]. intros Hwf. split_and!; intros.
  - by apply (fetch_rel_wf_rel _ _ (keeps_media_info_gql E id st)).
  - by apply (fetch_rel_wf_rel _ _ (keeps_media_info_v1 E id st)).
  - by apply (keeps_wf_media_info E id uc st).
  - by apply (keeps_wf_media_user E id st).
  - by apply (keeps_wf_media_id E id st).
  - by apply (keeps_wf_media_delete E id st).
  - by apply (keeps_wf_media_edit E id caption title usertags location st).
  - by apply (keeps_wf_media_like E id revert st).
Qed.

Lemma cache_invariant_witness :
  let E := demo_env (Ok (graph_media "feed")) false (Ok private_items) in
  wf (media_edit E (IdInt 17) "a caption" "" [] None fresh_client).2.
Proof.
  intros E.
  destruct (cache_invariant E fresh_client) as [Hinit Hkeep].
  destruct (Hkeep Hinit) as (_ & _ & _ & _ & _ & _ & Hedit & _).
  apply Hedit.
Defined.

(** ** Inside the strategies *)
Section InsideStrategies.

Context (E : Env).

Lemma dict_lookup_set k v d : dict_lookup k (dict_set k v d) = Some v.
Proof.
  induction d as [|[k' v'] d IH]; simpl.
  - by rewrite String.eqb_refl.
  - destruct (String.eqb k' k) eqn:Hk; simpl; [by rewrite String.eqb_refl|].
    by rewrite Hk.
Qed.

Lemma dict_lookup_set_ne k k0 v d :
  k0 ≠ k → dict_lookup k0 (dict_set k v d) = dict_lookup k0 d.
Proof.
  intros Hne. induction d as [|[k' v'] d IH]; simpl.
  - by rewrite (proj2 (String.eqb_neq k k0)).
  - destruct (String.eqb_spec k' k) as [->|Hk]; simpl.
    + rewrite (proj2 (String.eqb_neq k k0)) by done. done.
    + destruct (String.eqb k' k0); [done | exact IH].
Qed.

(** The graph strategy up to the reading of the location. *)
Lemma media_info_gql_payload k st data sm :
  graphql_reply E (calls st) (gql_variables (encode E k))
    "477b65a610463740ccdb83135b2014db" = Ok data →
  dict_lookup "shortcode_media" data = Some (JDict sm) →
  sm ≠ [] →
  media_info_gql E (IdInt k) st =
    (location ← lift (getitem (JDict sm) "location");
     shortcode_media ←
       (if truthy location then
          l ← lift (extract_location E location);
          l' ← location_complete E l;
          mret (JDict (dict_set "location" (JDict l') sm))
        else mret (JDict sm));
     v ← lift (extract_media_gql E shortcode_media);
     new_media v) (add_call (graph_request E k) st).
Proof.
  intros Hreply Hsm Hne. unfold media_info_gql.
  rewrite run_bind. unfold lift at 1. rewrite media_pk_int.
  rewrite run_bind. unfold public_graphql_request at 1. rewrite Hreply.
  unfold dict_get. rewrite Hsm.
  change (default JNull (Some (JDict sm))) with (JDict sm).
  rewrite run_bind.
  replace (truthy (JDict sm)) with true by (by destruct sm).
  reflexivity.
Qed.

End InsideStrategies.

(** X23: when the payload of the graph reply has a location, the graph
    strategy extracts it, has it completed by location_complete, one call
    made after the graph request, and puts the completed location in the
    place of the raw one before the metadata is extracted: the extractor
    sees the completed location under the key location and every other
    key as it came. *)
Theorem media_info_gql_completes_location E k st data sm raw l l' :
  graphql_reply E (calls st) (gql_variables (encode E k))
    "477b65a610463740ccdb83135b2014db" = Ok data →
  dict_lookup "shortcode_media" data = Some (JDict sm) →
  dict_lookup "location" sm = Some raw →
  truthy raw = true →
  extract_location E raw = Ok l →
  location_reply E (graph_request E k :: calls st) l = Ok l' →
  let completed := dict_set "location" (JDict l') sm in
  media_info_gql E (IdInt k) st =
    (v ← lift (extract_media_gql E (JDict completed)); new_media v)
      (add_call (LocationComplete l) (add_call (graph_request E k) st)) ∧
  dict_lookup "location" completed = Some (JDict l') ∧
  (∀ key, key ≠ "location" → dict_lookup key completed = dict_lookup key sm).
Proof.
  intros Hreply Hsm Hraw Htruthy Hloc Hcomplete completed. split_and!.
  - rewrite (media_info_gql_payload E k st data sm Hreply Hsm)
      by (intros ->; discriminate).
    rewrite run_bind. unfold lift at 1, getitem. rewrite Hraw.
    rewrite Htruthy. rewrite !run_bind. unfold lift at 1. rewrite Hloc.
    rewrite run_bind. unfold location_complete at 1.
    change (calls (add_call (graph_request E k) st)) with (graph_request E k :: calls st).
    rewrite Hcomplete. reflexivity.
  - apply dict_lookup_set.
  - intros key Hkey. by apply dict_lookup_set_ne.
Qed.

Lemma media_info_gql_completes_location_witness :
  let E := demo_env (Ok [("shortcode_media", JDict [("location", JDict [("id", JInt 5)])])])
             false (Ok private_items) in
  calls (media_info_gql E (IdInt 1) fresh_client).2
  = [LocationComplete []; graph_request E 1].
Proof.
  intros E.
  rewrite (proj1 (media_info_gql_completes_location E 1 fresh_client
             [("shortcode_media", JDict [("location", JDict [("id", JInt 5)])])]
             [("location", JDict [("id", JInt 5)])] (JDict [("id", JInt 5)]) [] []
             eq_refl eq_refl eq_refl eq_refl eq_refl eq_refl)).
  reflexivity.
Defined.

(** X24: a payload of the graph reply that has no location key makes the
    graph strategy fail with KeyError after its request; media_info, on a
    miss, logs this error, which is no ClientError, and goes on to
    media_info_v1. *)
Theorem media_info_gql_missing_location E id uc k st data sm :
  graphql_reply E (calls st) (gql_variables (encode E k))
    "477b65a610463740ccdb83135b2014db" = Ok data →
  dict_lookup "shortcode_media" data = Some (JDict sm) →
  sm ≠ [] →
  dict_lookup "location" sm = None →
  let st1 := add_call (graph_request E k) st in
  media_info_gql E (IdInt k) st = (Raise (KeyError "location"), st1) ∧
  (media_pk id = Ok k →
   uc = false ∨ _medias_cache st !! k = None →
   media_info E id uc st =
     (media_info_v1 E (IdInt k) ≫= store_and_copy k) (add_log (KeyError "location") st1)).
Proof.
  intros Hreply Hsm Hne Hloc st1.
  assert (Hg : media_info_gql E (IdInt k) st = (Raise (KeyError "location"), st1)).
  { rewrite (media_info_gql_payload E k st data sm Hreply Hsm Hne).
    rewrite run_bind. unfold lift at 1, getitem. by rewrite Hloc. }
  split; [exact Hg|]. intros Hk Hmiss.
  rewrite (media_info_miss E id uc k st Hk Hmiss), run_bind.
  rewrite (fallback_policy_other E k st _ _ Hg) by reflexivity.
  rewrite fall_back_run. by rewrite <- run_bind.
Qed.

Lemma media_info_gql_missing_location_witness :
  let E := demo_env (Ok [("shortcode_media", JDict [("id", JStr "1")])]) false
             (Ok private_items) in
  (media_info_gql E (IdInt 1) fresh_client).1 = Raise (KeyError "location").
Proof.
  intros E.
  rewrite (proj1 (media_info_gql_missing_location E (IdInt 1) true 1 fresh_client
             [("shortcode_media", JDict [("id", JStr "1")])] [("id", JStr "1")]
             eq_refl eq_refl ltac:(discriminate) eq_refl)).
  reflexivity.
Defined.

(** X25: when the private transport answers, media_info_v1 extracts the
    last of the items of the answer; an answer without items makes it
    raise KeyError, an empty list of items IndexError, in both cases after
    the request and with nothing created. *)
Theorem media_info_v1_items E k st result lj :
  private_reply E (calls st) (info_endpoint k) None = (Ok result, lj) →
  let st1 := set_last_json lj (add_call (PrivateRequest (info_endpoint k) None) st) in
  (dict_lookup "items" result = None →
   media_info_v1 E (IdInt k) st = (Raise (KeyError "items"), st1)) ∧
  (dict_lookup "items" result = Some (JList []) →
   media_info_v1 E (IdInt k) st = (Raise (IndexError "pop from empty list"), st1)) ∧
  (∀ items x,
     dict_lookup "items" result = Some (JList (items ++ [x])) →
     media_info_v1 E (IdInt k) st =
       (v ← lift (extract_media_v1 E x); new_media v) st1).
Proof.
  intros Hreply st1.
  assert (Hrun : media_info_v1 E (IdInt k) st =
    (v ← lift (x ← pop_items result; extract_media_v1 E x); new_media v) st1).
  { rewrite media_info_v1_run, Hreply. reflexivity. }
  split_and!.
  - intros Hitems. rewrite Hrun, run_bind. unfold lift at 1, pop_items, getitem.
    by rewrite Hitems.
  - intros Hitems. rewrite Hrun, run_bind. unfold lift at 1, pop_items, getitem.
    by rewrite Hitems.
  - intros items x Hitems. rewrite Hrun, !run_bind.
    unfold lift at 1, pop_items, getitem. rewrite Hitems. cbn [mbind Result_bind].
    by rewrite last_snoc.
Qed.

Lemma media_info_v1_items_witness :
  let E := demo_env (Ok []) false (Ok [("items", JList [])]) in
  (media_info_v1 E (IdInt 1) fresh_client).1 = Raise (IndexError "pop from empty list").
Proof.
  intros E.
  destruct (media_info_v1_items E 1 fresh_client [("items", JList [])] [] eq_refl)
    as (_ & Hempty & _).
  rewrite Hempty; reflexivity.
Defined.

(** X26: what media_user returns is the author object of the copy that
    media_info made: it holds the author of the cached entry, and it is
    not the author object of that entry. *)
Theorem media_user_returns_copy E id st lu st' :
  media_user E id st = (Ok lu, st') →
  ∃ k c v m,
    media_pk id = Ok k ∧
    _medias_cache st' !! k = Some c ∧
    read_media (heap st') c = Some v ∧
    heap st' !! lu = Some (OUser (user v)) ∧
    heap st' !! c = Some (OMedia m) ∧
    user m ≠ lu ∧ c ≠ lu.
Proof.
  unfold media_user.
  intros (l & s1 & Hinfo & H)%bind_Ok.
  apply bind_Ok in H as (ml & s2 & Hget & H). injection H as <- <-.
  apply get_media_Ok in Hget as [Hml ->].
  apply media_info_Ok in Hinfo as (k & c & v & stm & Hk & Hc & Hv & Hnew & _).
  pose proof (keeps_new_media v stm) as [[_ Hheap _ _] _]. rewrite Hnew in Hheap.
  simpl in Hheap.
  pose proof Hnew as (Hread & _ & (m' & Hm' & Hfresh & _) & _ & Hcache & _)%new_media_spec.
  assert (m' = ml) as -> by congruence.
  pose proof Hread as (m2 & Hm2 & Hu)%read_media_dom.
  assert (m2 = ml) as -> by congruence.
  pose proof Hv as (mc & Hmc & Huc)%read_media_dom.
  exists k, c, v, mc. split_and!; try done.
  - by rewrite Hcache.
  - by eapply read_media_mono.
  - by eapply lookup_weaken.
  - intros Heq. rewrite Heq in Huc. congruence.
  - intros Heq. rewrite Heq in Hmc. congruence.
Qed.

Lemma media_user_returns_copy_witness :
  let E := demo_env (Ok (graph_media "feed")) false (Ok private_items) in
  ∃ c m, _medias_cache (media_user E (IdInt 17) fresh_client).2 !! 17 = Some c ∧
         heap (media_user E (IdInt 17) fresh_client).2 !! c = Some (OMedia m) ∧
         user m ≠ 3%positive.
Proof.
  intros E.
  destruct (media_user_returns_copy E (IdInt 17) fresh_client 3%positive
              (media_user E (IdInt 17) fresh_client).2)
    as (k & c & v & m & Hk & Hc & _ & _ & Hm & Hne & _).
  - vm_compute. reflexivity.
  - injection Hk as <-. by exists c, m.
Defined.
